(** * Multi-provider chat comparison tool: store, stream adapters, fan-out

    A shallow embedding of the TypeScript sources

    - [unnamed/part_000] (the provider adapters [DeepSeekService],
      [AliyunService], [VolcengineService], [KimiService], [ClaudeService],
      and the [ChatService] registry),
    - [src/store/index.ts] (the zustand store), and
    - [src/App.tsx] ([handleSendMessage]),

    followed by the properties the specification states about them.

    Conventions of the embedding.
    - A JS [number] is a rational ([Q]); doubles are idealised as exact,
      and [NaN], where the code can produce it, is [None].
    - A JS string is a [string] holding the bytes of its UTF-8 encoding;
      [trim()] and [length] are those of the code points and code units
      so encoded.
    - An object used as a dictionary is a [gmap string _] of its own
      properties; a lookup by a name that is not an own property finds
      what the object inherits from [Object.prototype] ([JS.get]).
    - [new Date()] and [generateId()] read the environment: every such read
      is an explicit argument of the operation that performs it, one
      argument per read, in the order of evaluation.
    - A thrown exception is a value of a sum type; [try]/[catch] is a
      [match]. *)

From Stdlib Require Import ZArith QArith String Ascii List Lia.
From stdpp Require Import base option list strings gmap pretty.
From Ceres Require CeresS CeresFormat CeresParser.

Local Open Scope string_scope.

(* ================================================================== *)
(** * Part I: definitions                                              *)
(* ================================================================== *)

(** ** JavaScript string primitives used by the sources *)

Module JS.

(** [s.startsWith(p)] *)
Definition startsWith (p s : string) : bool := String.prefix p s.

(** [s.slice(n)] for [0 <= n], used behind a prefix of [n] ASCII
    characters: the string without its first [n] bytes. *)
Fixpoint slice (n : nat) (s : string) : string :=
  match n, s with
  | O, _ => s
  | S n', String _ r => slice n' r
  | S _, EmptyString => EmptyString
  end.

(** Strings are held as the bytes of their UTF-8 encoding. *)
Definition bytes (l : list nat) : string :=
  string_of_list_ascii (map ascii_of_nat l).

(** The code points that [trim()] removes (WhiteSpace and LineTerminator
    of ECMAScript), each as its UTF-8 bytes: TAB, LF, VT, FF, CR, SPACE,
    U+00A0, U+1680, U+2000 to U+200A, U+2028, U+2029, U+202F, U+205F,
    U+3000 and U+FEFF. None of them is a prefix or a suffix of another. *)
Definition whiteSpace : list string :=
  map bytes
    ([[9]; [10]; [11]; [12]; [13]; [32]; [194; 160]; [225; 154; 128]]
     ++ map (fun n => [226; 128; 128 + n]) (seq 0 11)
     ++ [[226; 128; 168]; [226; 128; 169]; [226; 128; 175]; [226; 129; 159];
         [227; 128; 128]; [239; 187; 191]])%nat%list.

Definition isWhiteSpace (s : string) : bool :=
  existsb (String.eqb s) whiteSpace.

(** [s.trimStart()]: white-space code points of one, two or three bytes
    are removed from the front. *)
Fixpoint trimStart (s : string) : string :=
  match s with
  | EmptyString => EmptyString
  | String a r1 =>
      if isWhiteSpace (String a EmptyString) then trimStart r1
      else
        match r1 with
        | EmptyString => s
        | String b r2 =>
            if isWhiteSpace (String a (String b EmptyString)) then trimStart r2
            else
              match r2 with
              | EmptyString => s
              | String c r3 =>
                  if isWhiteSpace (String a (String b (String c EmptyString)))
                  then trimStart r3
                  else s
              end
        end
  end.

(** [s.trimEnd()]: once the rest is trimmed, what is left is dropped
    when it is one white-space code point. *)
Fixpoint trimEnd (s : string) : string :=
  match s with
  | EmptyString => EmptyString
  | String c r =>
      let r' := trimEnd r in
      if isWhiteSpace (String c r') then EmptyString else String c r'
  end.

(** [s.trim()] *)
Definition trim (s : string) : string := trimEnd (trimStart s).

(** [s.length], the number of UTF-16 code units: a continuation byte
    adds none, the first byte of a four-byte sequence adds two, any
    other byte adds one. The first byte of a string is not a
    continuation byte; it counts as one unit if it is. *)
Definition units (c : ascii) : nat :=
  let n := nat_of_ascii c in
  if (128 <=? n)%nat && (n <? 192)%nat then 0%nat
  else if (240 <=? n)%nat then 2%nat
  else 1%nat.

Fixpoint unitsOf (s : string) : nat :=
  match s with
  | EmptyString => 0%nat
  | String c r => (units c + unitsOf r)%nat
  end.

Definition length (s : string) : nat :=
  match s with
  | EmptyString => 0%nat
  | String c r => (Nat.max 1 (units c) + unitsOf r)%nat
  end.

(** [s.split(sep)] for a one-character separator: never the empty list. *)
Fixpoint split (sep : ascii) (s : string) : list string :=
  match s with
  | EmptyString => [EmptyString]
  | String c r =>
      if Ascii.eqb c sep then EmptyString :: split sep r
      else match split sep r with
           | [] => [String c EmptyString]
           | h :: t => String c h :: t
           end
  end.

(** The line feed character, ['\n']. *)
Definition LF : ascii := ascii_of_nat 10.

(** Truthiness of a string and of a number. *)
Definition truthy_string (s : string) : bool := negb (String.eqb s "").
Definition truthy_number (q : Q) : bool := negb (Qeq_bool q 0).

(** [x || d] on numbers. *)
Definition or_number (x : option Q) (d : Q) : Q :=
  match x with
  | Some q => if truthy_number q then q else d
  | None => d
  end.

(** The property names every object created by a literal or a spread
    inherits from [Object.prototype]. All of them hold a function,
    except [__proto__], which reads as [Object.prototype] itself: each
    is truthy, none is a number, none has an enumerable property. *)
Definition objectPrototype : list string :=
  [ "constructor"; "hasOwnProperty"; "isPrototypeOf"; "propertyIsEnumerable";
    "toLocaleString"; "toString"; "valueOf"; "__proto__";
    "__defineGetter__"; "__defineSetter__"; "__lookupGetter__"; "__lookupSetter__" ].

(** The outcome of [o[key]] on such an object: an own property, an
    inherited one, or [undefined]. *)
Inductive Read (A : Type) :=
| Own (a : A)
| Inherited
| Undefined.
Arguments Own {A} a.
Arguments Inherited {A}.
Arguments Undefined {A}.

Definition get {A : Type} (o : gmap string A) (key : string) : Read A :=
  match o !! key with
  | Some a => Own a
  | None => if bool_decide (key ∈ objectPrototype) then Inherited else Undefined
  end.

(** A value thrown by [throw] or by a rejected promise: an [Error]
    instance with its [message], or any other value. *)
Inductive Thrown :=
| ErrorObj (message : string)
| NonError.

(** [error.message], [undefined] when the thrown value has none. *)
Definition message_of (e : Thrown) : option string :=
  match e with
  | ErrorObj m => Some m
  | NonError => None
  end.

(** A date-typed field: a [Date] object (milliseconds since the epoch), or
    the ISO string that takes its place once the value went through JSON. *)
Inductive DateVal :=
| DateObj (ms : Z)
| DateStr (iso : string).

End JS.

(** ** Providers and model table ([src/lib/models.ts]) *)

Inductive AIProvider := deepseek | aliyun | volcengine | kimi | claude.

#[global] Instance AIProvider_eq_dec : EqDecision AIProvider.
Proof. solve_decision. Defined.

Definition provider_name (p : AIProvider) : string :=
  match p with
  | deepseek => "deepseek"
  | aliyun => "aliyun"
  | volcengine => "volcengine"
  | kimi => "kimi"
  | claude => "claude"
  end.

Module ModelConfig.
Record t := mk {
  id : string;
  name : string;
  provider : AIProvider;
  modelId : string;
  maxTokens : Q;
  temperature : Q;
  supportVision : bool;
  costPerToken : Q
}.
End ModelConfig.

Definition AVAILABLE_MODELS : list ModelConfig.t :=
  [ ModelConfig.mk "deepseek-chat" "DeepSeek V3 0324" deepseek "deepseek-chat"
      4096 (7 # 10) false (14 # 10000000)
  ; ModelConfig.mk "deepseek-reasoner" "DeepSeek R1 0528" deepseek "deepseek-reasoner"
      4096 (7 # 10) false (55 # 1000000)
  ; ModelConfig.mk "qwen-turbo" "通义千问 Turbo" aliyun "qwen-turbo"
      1500 (7 # 10) false (8 # 10000000)
  ; ModelConfig.mk "qwen-plus" "通义千问 Plus" aliyun "qwen-plus"
      2000 (7 # 10) false (4 # 1000000)
  ; ModelConfig.mk "qwen-max" "通义千问 Max" aliyun "qwen-max"
      2000 (7 # 10) false (2 # 100000)
  ; ModelConfig.mk "qwen2-57b-instruct" "通义千问2-57B" aliyun "qwen2-57b-a14b-instruct"
      2000 (7 # 10) false (1 # 1000000)
  ; ModelConfig.mk "doubao-pro-32k" "豆包 Pro 32K" volcengine "ep-20250424184643-vjbdz"
      4096 (7 # 10) false (5 # 10000000)
  ; ModelConfig.mk "doubao-pro-32k-241215" "豆包 1.5 pro 32k" volcengine "ep-20250424184104-trxs8"
      4096 (7 # 10) false (5 # 10000000)
  ; ModelConfig.mk "doubao-pro-256k" "豆包 Pro 256K" volcengine "doubao-pro-256k-241115"
      4096 (7 # 10) false (1 # 1000000)
  ; ModelConfig.mk "doubao-vision-pro" "豆包 Vision Pro" volcengine "doubao-1.5-vision-pro-250328"
      4096 (7 # 10) true (2 # 1000000)
  ; ModelConfig.mk "moonshot-v1-8k" "Kimi V1 8K" kimi "moonshot-v1-8k"
      2048 (3 # 10) false (12 # 1000000)
  ; ModelConfig.mk "moonshot-v1-32k" "Kimi V1 32K" kimi "moonshot-v1-32k"
      8192 (3 # 10) false (24 # 1000000)
  ; ModelConfig.mk "moonshot-v1-128k" "Kimi V1 128K" kimi "moonshot-v1-128k"
      16384 (3 # 10) false (6 # 100000)
  ; ModelConfig.mk "claude-sonnet-4-20250514" "Claude Sonnet 4" claude "claude-sonnet-4-20250514"
      4096 (7 # 10) false (3 # 1000000)
  ].

(** ** Cost tables of the adapters ([calculateCost]) *)

Module Cost.

(** The [prices] literal of each adapter. The first four tables hold a
    price per million tokens, the last one a price per token. *)
Definition prices (p : AIProvider) : gmap string Q :=
  match p with
  | deepseek =>
      list_to_map [ ("deepseek-chat", 14 # 100)
                  ; ("deepseek-coder", 14 # 100)
                  ; ("deepseek-reasoner", 55 # 1) ]
  | aliyun =>
      list_to_map [ ("qwen-turbo", 8 # 10)
                  ; ("qwen-plus", 4 # 1)
                  ; ("qwen-max", 20 # 1)
                  ; ("qwen2-57b-a14b-instruct", 2 # 1) ]
  | volcengine =>
      list_to_map [ ("ep-20250424184643-vjbdz", 5 # 10)
                  ; ("doubao-pro-256k-241115", 1 # 1)
                  ; ("doubao-1.5-vision-pro-250328", 2 # 1) ]
  | kimi =>
      list_to_map [ ("moonshot-v1-8k", 12 # 1)
                  ; ("moonshot-v1-32k", 24 # 1)
                  ; ("moonshot-v1-128k", 60 # 1) ]
  | claude =>
      list_to_map [ ("claude-sonnet-3-5-20240620", 3 / 1000000)
                  ; ("claude-opus-20240229", 15 / 1000000)
                  ; ("claude-sonnet-20240229", 3 / 1000000)
                  ; ("claude-haiku-20240307", (25 # 100) / 1000000)
                  ; ("claude-3-sonnet-20240229", 3 / 1000000) ]%Q
  end.

(** The right operand of [prices[model] || default]. *)
Definition defaultPrice (p : AIProvider) : Q :=
  match p with
  | deepseek => 14 # 100
  | aliyun => 1
  | volcengine => 1
  | kimi => 12
  | claude => 3 / 1000000
  end.

(** [const pricePerMillion = prices[model] || default]. The lookup
    goes through the prototype of the literal: at a name inherited from
    [Object.prototype] it finds a function (or the prototype object),
    which is truthy, so the default is not taken and the result is not
    a number ([None]). *)
Definition pricePerMillion (p : AIProvider) (model : string) : option Q :=
  match JS.get (prices p) model with
  | JS.Own price => Some (if JS.truthy_number price then price else defaultPrice p)
  | JS.Inherited => None
  | JS.Undefined => Some (defaultPrice p)
  end.

(** [calculateCost(tokens, model)]: [(tokens / 1000000) * pricePerMillion]
    for the first four adapters, [tokens * pricePerMillion] for Claude;
    [None] is [NaN], the product of a number and a value that is not
    one. *)
Definition calculateCost (p : AIProvider) (tokens : Q) (model : string) : option Q :=
  match p with
  | claude => (fun price : Q => (tokens * price)%Q) <$> pricePerMillion p model
  | _ => (fun price : Q => ((tokens / 1000000) * price)%Q) <$> pricePerMillion p model
  end.

(** The default price expressed per token. *)
Definition defaultRatePerToken (p : AIProvider) : Q :=
  match p with
  | claude => defaultPrice p
  | _ => defaultPrice p / 1000000
  end.

End Cost.

(** ** Streaming adapters ([sendMessageStream] of the five services) *)

Module Stream.

(** A chunk handed to the [onChunk] callback. *)
Record StreamChunk := mkChunk {
  content : string;
  finished : bool;
  tokens : option Q;
  cost : option Q
}.

(** [{ content: delta, finished: false }] *)
Definition deltaChunk (delta : string) : StreamChunk :=
  mkChunk delta false None None.

(** [{ content: '', finished: true, tokens }] *)
Definition terminalChunk (tokens : Q) : StreamChunk :=
  mkChunk "" true (Some tokens) None.

(** The value an adapter resolves with. *)
Record ChatResponse := mkResponse {
  r_content : string;
  r_tokens : Q;
  r_cost : option Q;      (* [None]: [NaN] *)
  r_responseTime : Q
}.

(** What the reader takes from one parsed event:
    [parsed.choices?.[0]?.delta?.content || ''] and
    [parsed.usage?.total_tokens]. *)
Record Payload := mkPayload {
  delta : string;
  total_tokens : option Q
}.

(** What [fetch] and the body reader deliver to one streaming call. *)
Inductive FetchResult :=
| FetchRejected (e : JS.Thrown)
    (* fetch() itself rejects *)
| FetchNotOk (status : N) (statusText errorText : string)
    (* !response.ok *)
| FetchNoBody
    (* response.body is null *)
| FetchOk (reads : list string) (failure : option JS.Thrown).
    (* the decoded values of the successive reads, then either done
       ([None]) or a rejected read *)

(** The local variables of the read loop and the chunks passed to
    [onChunk] so far, oldest first. *)
Record Reader := mkReader {
  rd_content : string;
  rd_tokens : Q;
  rd_emitted : list StreamChunk
}.

Definition emit (c : StreamChunk) (r : Reader) : Reader :=
  mkReader (rd_content r) (rd_tokens r) (rd_emitted r ++ [c]).

Section Reader.

(** [JSON.parse(data)] followed by the two reads above; [None] when the
    [try] block throws (a syntax error, or a [null] document). *)
Variable parsePayload : string -> option Payload.

(** The body of the [try] block for one non-empty [data]. *)
Definition onData (data : string) (r : Reader) : Reader :=
  match parsePayload data with
  | None => r
  | Some p =>
      let r1 :=
        if JS.truthy_string (delta p)
        then emit (deltaChunk (delta p))
               (mkReader (rd_content r ++ delta p) (rd_tokens r) (rd_emitted r))
        else r in
      match total_tokens p with
      | Some t =>
          if JS.truthy_number t
          then mkReader (rd_content r1) t (rd_emitted r1)
          else r1
      | None => r1
      end
  end.

(** [for (const line of lines) { ... }]; the [break] on the sentinel
    leaves this loop only. *)
Fixpoint forLines (lines : list string) (r : Reader) : Reader :=
  match lines with
  | [] => r
  | line :: rest =>
      if JS.startsWith "data: " line then
        let data := JS.trim (JS.slice 6 line) in
        if String.eqb data "[DONE]" then emit (terminalChunk (rd_tokens r)) r
        else if JS.truthy_string data then forLines rest (onData data r)
        else forLines rest r
      else forLines rest r
  end.

(** One iteration of [while (true)] with [done = false]. *)
Definition onRead (value : string) (r : Reader) : Reader :=
  forLines (JS.split JS.LF value) r.

(** The whole [while (true)] loop over the reads that arrive. *)
Definition readLoop (reads : list string) (r : Reader) : Reader :=
  fold_left (fun r value => onRead value r) reads r.

(** Only three of the five adapters call [onChunk] once more after the
    loop ("确保发送完成信号"). *)
Definition emitsAfterLoop (p : AIProvider) : bool :=
  match p with
  | deepseek | kimi | claude => true
  | aliyun | volcengine => false
  end.

(** The message of the [Error] thrown on [!response.ok]. *)
Definition httpError (p : AIProvider) (status : N) (statusText errorText : string) : string :=
  match p with
  | deepseek | kimi | claude =>
      "HTTP " ++ pretty status ++ ": " ++ statusText
  | aliyun | volcengine =>
      "HTTP " ++ pretty status ++ ": " ++ statusText ++ " - " ++ errorText
  end.

(** The [catch] clause: three adapters wrap the message, two rethrow. *)
Definition rethrow (p : AIProvider) (e : JS.Thrown) : JS.Thrown :=
  let errorMessage :=
    match JS.message_of e with
    | Some m => if JS.truthy_string m then m else "流式请求失败"
    | None => "流式请求失败"
    end in
  match p with
  | deepseek => JS.ErrorObj ("DeepSeek Stream API错误: " ++ errorMessage)
  | kimi => JS.ErrorObj ("Kimi Stream API错误: " ++ errorMessage)
  | claude => JS.ErrorObj ("Claude Stream API错误: " ++ errorMessage)
  | aliyun | volcengine => e
  end.

(** [service.sendMessageStream(request, onChunk)] of the adapter of
    provider [p], for the model [model] of the request: the chunks passed
    to [onChunk], oldest first, and how the returned promise settles.
    [startTime] and [endTime] are the two [Date.now()] readings. *)
Definition sendMessageStream (p : AIProvider) (model : string)
    (startTime endTime : Z) (net : FetchResult)
  : list StreamChunk * (JS.Thrown + ChatResponse) :=
  match net with
  | FetchRejected e => ([], inl (rethrow p e))
  | FetchNotOk status statusText errorText =>
      ([], inl (rethrow p (JS.ErrorObj (httpError p status statusText errorText))))
  | FetchNoBody => ([], inl (rethrow p (JS.ErrorObj "无法读取流响应")))
  | FetchOk reads failure =>
      let r := readLoop reads (mkReader "" 0 []) in
      match failure with
      | Some e => (rd_emitted r, inl (rethrow p e))
      | None =>
          let r' := if emitsAfterLoop p then emit (terminalChunk (rd_tokens r)) r else r in
          (rd_emitted r',
           inr (mkResponse (rd_content r') (rd_tokens r')
                  (Cost.calculateCost p (rd_tokens r') model)
                  (inject_Z (endTime - startTime))))
      end
  end.

End Reader.

(** The terminal chunks among the emitted ones. *)
Definition terminals (cs : list StreamChunk) : list StreamChunk :=
  List.filter finished cs.

(** A line that makes [forLines] emit the terminal chunk and stop. *)
Definition isDoneLine (line : string) : bool :=
  JS.startsWith "data: " line && String.eqb (JS.trim (JS.slice 6 line)) "[DONE]".

(** A read one of whose lines is the sentinel. *)
Definition hasDoneLine (value : string) : bool :=
  existsb isDoneLine (JS.split JS.LF value).

(** ** The registry ([ChatService]) *)

(** [services]: the credential each registered adapter was built with. *)
Definition Registry := AIProvider -> option string.

Definition emptyRegistry : Registry := fun _ => None.

(** [chatService.setApiKey(provider, apiKey)] *)
Definition setApiKey (provider : AIProvider) (apiKey : string) (reg : Registry) : Registry :=
  fun p =>
    if decide (p = provider)
    then (if JS.truthy_string (JS.trim apiKey) then Some apiKey else None)
    else reg p.

(** [chatService.sendMessageStream(provider, request, onChunk)]: without a
    registered adapter the call throws before anything is sent. The third
    component tells whether [fetch] was called. *)
Definition chatSendMessageStream (parsePayload : string -> option Payload)
    (reg : Registry) (provider : AIProvider) (model : string)
    (startTime endTime : Z) (net : FetchResult)
  : list StreamChunk * (JS.Thrown + ChatResponse) * bool :=
  match reg provider with
  | None =>
      ([], inl (JS.ErrorObj ("请先配置 " ++ provider_name provider ++ " 的API密钥")), false)
  | Some _ =>
      (sendMessageStream parsePayload provider model startTime endTime net, true)
  end.

End Stream.

(** ** Data model of the store (the types of [@/types] as the store and
    the application use them) *)

Inductive Role := user | assistant | system.

Module Message.
Record t := mk {
  id : string;
  role : Role;
  content : string;
  timestamp : JS.DateVal;
  images : option (list string)
}.
End Message.

Module ModelResponse.
Record t := mk {
  modelId : string;
  content : string;
  loading : bool;
  error : option string;
  responseTime : option Q;
  tokens : option Q;
  cost : option Q;
  timestamp : JS.DateVal
}.

(** [Partial<ModelResponse>]: [None] is an absent key. *)
Record partial := mkPartial {
  p_modelId : option string;
  p_content : option string;
  p_loading : option bool;
  p_error : option string;
  p_responseTime : option Q;
  p_tokens : option Q;
  p_cost : option Q;
  p_timestamp : option JS.DateVal
}.

Definition noUpdates : partial :=
  mkPartial None None None None None None None None.

(** [{ ...r, ...u }] *)
Definition merge (r : t) (u : partial) : t :=
  mk (default (modelId r) (p_modelId u))
     (default (content r) (p_content u))
     (default (loading r) (p_loading u))
     (match p_error u with Some e => Some e | None => error r end)
     (match p_responseTime u with Some x => Some x | None => responseTime r end)
     (match p_tokens u with Some x => Some x | None => tokens r end)
     (match p_cost u with Some x => Some x | None => cost r end)
     (default (timestamp r) (p_timestamp u)).

(** [{ ...r, content: r.content + delta }] *)
Definition append (r : t) (delta : string) : t :=
  mk (modelId r) (content r ++ delta) (loading r) (error r)
     (responseTime r) (tokens r) (cost r) (timestamp r).
End ModelResponse.

Module ChatSession.
Record t := mk {
  id : string;
  title : option string;
  systemPrompt : string;
  selectedModels : list string;
  messages : list Message.t;
  responses : gmap string (gmap string ModelResponse.t);
  createdAt : JS.DateVal;
  updatedAt : JS.DateVal;
  model : string;
  provider : AIProvider;
  tokenCount : Q;
  cost : Q;
  temperature : Q;
  maxTokens : Q
}.

(** [{ ...s, title, updatedAt }] *)
Definition withTitle (title' : string) (updatedAt' : JS.DateVal) (s : t) : t :=
  mk (id s) (Some title') (systemPrompt s) (selectedModels s) (messages s)
     (responses s) (createdAt s) updatedAt' (model s) (provider s)
     (tokenCount s) (cost s) (temperature s) (maxTokens s).

(** [{ ...s, messages, updatedAt }] *)
Definition withMessages (messages' : list Message.t) (updatedAt' : JS.DateVal) (s : t) : t :=
  mk (id s) (title s) (systemPrompt s) (selectedModels s) messages'
     (responses s) (createdAt s) updatedAt' (model s) (provider s)
     (tokenCount s) (cost s) (temperature s) (maxTokens s).

(** [{ ...s, responses, updatedAt }] *)
Definition withResponses (responses' : gmap string (gmap string ModelResponse.t))
    (updatedAt' : JS.DateVal) (s : t) : t :=
  mk (id s) (title s) (systemPrompt s) (selectedModels s) (messages s)
     responses' (createdAt s) updatedAt' (model s) (provider s)
     (tokenCount s) (cost s) (temperature s) (maxTokens s).

(** The own slot [(modelId, messageId)] of [s.responses], if there is
    one. *)
Definition slot (modelId messageId : string) (s : t) : option ModelResponse.t :=
  responses s !! modelId ≫= (fun byMessage => byMessage !! messageId).

(** The value of [s.responses[modelId]?.[messageId]], both lookups going
    through [Object.prototype]: an own slot; a property that the
    object of the model inherits ([Inherited], truthy, no [content] and no
    enumerable property of its own); a property of the builtin that
    [responses] inherits under the name [modelId] ([Builtin], a value
    that depends on the builtin); or [undefined]. The two cases in the
    middle arise only at ids that are names of [Object.prototype]; the
    operations of the store are given for the first and the last
    case. *)
Inductive SlotRead :=
| OwnSlot (r : ModelResponse.t)
| InheritedSlot
| Builtin
| NoSlot.

Definition read (modelId messageId : string) (s : t) : SlotRead :=
  match JS.get (responses s) modelId with
  | JS.Own byMessage =>
      match JS.get byMessage messageId with
      | JS.Own r => OwnSlot r
      | JS.Inherited => InheritedSlot
      | JS.Undefined => NoSlot
      end
  | JS.Inherited => Builtin
  | JS.Undefined => NoSlot
  end.

(** [{ ...s.responses, [modelId]: { ...s.responses[modelId], [messageId]: r } }] *)
Definition putSlot (modelId messageId : string) (r : ModelResponse.t) (s : t)
  : gmap string (gmap string ModelResponse.t) :=
  <[modelId := <[messageId := r]> (default ∅ (responses s !! modelId))]> (responses s).
End ChatSession.

Module AppState.
Record t := mk {
  apiKeys : AIProvider -> string;
  availableModels : list ModelConfig.t;
  selectedModels : list string;
  currentSession : option ChatSession.t;
  sessions : list ChatSession.t;
  isLoading : bool;
  systemPrompt : string;
  totalTokens : Q;
  totalCost : Q
}.

(** [set({ selectedModels })] and the like: a partial state merged into
    the current one. *)
Definition setSelected (x : list string) (st : t) : t :=
  mk (apiKeys st) (availableModels st) x (currentSession st) (sessions st)
     (isLoading st) (systemPrompt st) (totalTokens st) (totalCost st).

Definition setSessions (cur : option ChatSession.t) (l : list ChatSession.t) (st : t) : t :=
  mk (apiKeys st) (availableModels st) (selectedModels st) cur l
     (isLoading st) (systemPrompt st) (totalTokens st) (totalCost st).

Definition setSessionList (l : list ChatSession.t) (st : t) : t :=
  setSessions (currentSession st) l st.

Definition setIsLoading (b : bool) (st : t) : t :=
  mk (apiKeys st) (availableModels st) (selectedModels st) (currentSession st)
     (sessions st) b (systemPrompt st) (totalTokens st) (totalCost st).
End AppState.

(** ** The store ([src/store/index.ts]) *)

Module Store.
Import AppState.

(** The state the store is created with. *)
Definition initialState : AppState.t :=
  AppState.mk
    (fun p => match p with
              | volcengine => "93a51fb1-9701-4d3b-b905-a4457c4a3776"
              | _ => ""
              end)
    AVAILABLE_MODELS
    ["deepseek-chat"; "qwen-turbo"; "moonshot-v1-8k"]
    None [] false "你是一个有用的AI助手。" 0 0.

(** [sessions.find(s => s.id === sessionId)] *)
Definition findSession (sessionId : string) (l : list ChatSession.t) : option ChatSession.t :=
  List.find (fun s => bool_decide (ChatSession.id s = sessionId)) l.

(** [sessions.map(s => s.id === updated.id ? updated : s)] *)
Definition replaceSession (updated : ChatSession.t) (l : list ChatSession.t) : list ChatSession.t :=
  (fun s => if bool_decide (ChatSession.id s = ChatSession.id updated) then updated else s) <$> l.

Definition toggleModel (modelId : string) (st : AppState.t) : AppState.t :=
  let isSelected := bool_decide (modelId ∈ selectedModels st) in
  let newSelectedModels :=
    if isSelected
    then filter (fun id : string => id ≠ modelId) (selectedModels st)
    else (selectedModels st ++ [modelId])%list in
  setSelected newSelectedModels st.

Definition setSelectedModels (modelIds : list string) (st : AppState.t) : AppState.t :=
  setSelected modelIds st.

Definition setLoading (loading : bool) (st : AppState.t) : AppState.t :=
  setIsLoading loading st.

(** [createNewSession()]; [newId] is the [generateId()] reading,
    [tCreated] and [tUpdated] the two [new Date()] readings. *)
Definition createNewSession (newId : string) (tCreated tUpdated : Z)
    (st : AppState.t) : AppState.t :=
  let first :=
    match selectedModels st with
    | m :: _ => if JS.truthy_string m then m else "deepseek-chat"
    | [] => "deepseek-chat"
    end in
  let newSession :=
    ChatSession.mk newId None (systemPrompt st) (selectedModels st) [] ∅
      (JS.DateObj tCreated) (JS.DateObj tUpdated) first
      (match List.find (fun m => bool_decide (ModelConfig.id m = first)) (availableModels st) with
       | Some m => ModelConfig.provider m
       | None => deepseek
       end)
      0 0 (7 # 10) 4096 in
  setSessions (Some newSession) (newSession :: sessions st) st.

Definition loadSession (sessionId : string) (st : AppState.t) : AppState.t :=
  match findSession sessionId (sessions st) with
  | Some session =>
      AppState.mk (apiKeys st) (availableModels st)
        (ChatSession.selectedModels session) (Some session) (sessions st)
        (isLoading st) (ChatSession.systemPrompt session)
        (totalTokens st) (totalCost st)
  | None => st
  end.

(** [updateSessionTitle(sessionId, title)]. The list is mapped first:
    [tList i] is the [new Date()] reading taken for the entry at index
    [i] when that entry matches; [tCurrent] is the reading taken
    afterwards for [currentSession]. *)
Definition updateSessionTitle (sessionId title : string)
    (tList : nat -> Z) (tCurrent : Z) (st : AppState.t) : AppState.t :=
  let sessions' :=
    imap (fun i session =>
            if bool_decide (ChatSession.id session = sessionId)
            then ChatSession.withTitle title (JS.DateObj (tList i)) session
            else session)
         (sessions st) in
  let currentSession' :=
    match currentSession st with
    | Some cur =>
        if bool_decide (ChatSession.id cur = sessionId)
        then Some (ChatSession.withTitle title (JS.DateObj tCurrent) cur)
        else Some cur
    | None => None
    end in
  setSessions currentSession' sessions' st.

Definition deleteSession (sessionId : string) (st : AppState.t) : AppState.t :=
  let sessions' := filter (fun s : ChatSession.t => ChatSession.id s ≠ sessionId) (sessions st) in
  let currentSession' :=
    match currentSession st with
    | Some cur => if bool_decide (ChatSession.id cur = sessionId) then None else Some cur
    | None => None
    end in
  setSessions currentSession' sessions' st.

(** The environment readings of one [addMessage] call, in the order in
    which the call takes them; the first three are only taken when there
    is no current session. *)
Record AddMessageEnv := mkAddMessageEnv {
  newSessionId : string;   (* generateId() in createNewSession *)
  tCreated : Z;            (* createdAt: new Date() *)
  tUpdated : Z;            (* updatedAt: new Date() *)
  messageId : string;      (* generateId() for the message *)
  tMessage : Z;            (* timestamp: new Date() *)
  tCurrent : Z;            (* updatedAt of the new currentSession *)
  tList : nat -> Z         (* updatedAt of the list entry at an index *)
}.

(** A [generateSessionTitle(sessionId, content)] call started by
    [addMessage]; its effect on the store comes later, as an
    [updateSessionTitle]. *)
Definition TitleRequest : Type := string * string.

(** [addMessage(content, images)]: the returned message id, the title
    request it starts (if any), and the new state. *)
Definition addMessage (content : string) (images : option (list string))
    (env : AddMessageEnv) (st : AppState.t)
  : string * option TitleRequest * AppState.t :=
  match currentSession st with
  | None =>
      let st1 := createNewSession (newSessionId env) (tCreated env) (tUpdated env) st in
      match currentSession st1 with
      | Some newSession =>
          let message :=
            Message.mk (messageId env) user content (JS.DateObj (tMessage env)) images in
          let messages' := (ChatSession.messages newSession ++ [message])%list in
          let st2 :=
            setSessions
              (Some (ChatSession.withMessages messages' (JS.DateObj (tCurrent env)) newSession))
              (imap (fun i s =>
                       if bool_decide (ChatSession.id s = ChatSession.id newSession)
                       then ChatSession.withMessages messages' (JS.DateObj (tList env i)) newSession
                       else s)
                    (sessions st1))
              st1 in
          (Message.id message, Some (ChatSession.id newSession, content), st2)
      | None => ("", None, st1)
      end
  | Some cur =>
      let message :=
        Message.mk (messageId env) user content (JS.DateObj (tMessage env)) images in
      let updatedSession :=
        ChatSession.withMessages (ChatSession.messages cur ++ [message])%list
          (JS.DateObj (tCurrent env)) cur in
      let st' := setSessions (Some updatedSession)
                   (replaceSession updatedSession (sessions st)) st in
      let request :=
        match ChatSession.title cur, ChatSession.messages cur with
        | None, [] => Some (ChatSession.id cur, content)
        | Some t, [] => if JS.truthy_string t then None else Some (ChatSession.id cur, content)
        | _, _ :: _ => None
        end in
      (Message.id message, request, st')
  end.

(** [addModelResponse(modelId, messageId, response)]; [now] is the
    [new Date()] reading. *)
Definition addModelResponse (modelId messageId : string) (response : ModelResponse.t)
    (now : Z) (st : AppState.t) : AppState.t :=
  match currentSession st with
  | None => st
  | Some cur =>
      let updatedResponses := ChatSession.putSlot modelId messageId response cur in
      let updatedSession := ChatSession.withResponses updatedResponses (JS.DateObj now) cur in
      setSessions (Some updatedSession) (replaceSession updatedSession (sessions st)) st
  end.

(** [updateModelResponse(modelId, messageId, updates)] and
    [appendToModelResponse(modelId, messageId, content)], for a pair
    whose read ([ChatSession.read]) is an own slot or [undefined]. *)
Definition updateModelResponse (modelId messageId : string) (updates : ModelResponse.partial)
    (now : Z) (st : AppState.t) : AppState.t :=
  match currentSession st with
  | None => st
  | Some cur =>
      match ChatSession.slot modelId messageId cur with
      | None => st
      | Some currentResponse =>
          let updatedResponses :=
            ChatSession.putSlot modelId messageId
              (ModelResponse.merge currentResponse updates) cur in
          let updatedSession := ChatSession.withResponses updatedResponses (JS.DateObj now) cur in
          setSessions (Some updatedSession) (replaceSession updatedSession (sessions st)) st
      end
  end.

Definition appendToModelResponse (modelId messageId content : string)
    (now : Z) (st : AppState.t) : AppState.t :=
  match currentSession st with
  | None => st
  | Some cur =>
      match ChatSession.slot modelId messageId cur with
      | None => st
      | Some currentResponse =>
          let updatedResponses :=
            ChatSession.putSlot modelId messageId
              (ModelResponse.append currentResponse content) cur in
          let updatedSession := ChatSession.withResponses updatedResponses (JS.DateObj now) cur in
          setSessions (Some updatedSession) (replaceSession updatedSession (sessions st)) st
      end
  end.

(** The slot [(modelId, messageId)] of the current session. *)
Definition currentSlot (modelId messageId : string) (st : AppState.t) : option ModelResponse.t :=
  currentSession st ≫= ChatSession.slot modelId messageId.

(** A run of [appendToModelResponse] calls on one slot, each with its own
    clock reading and delta. *)
Definition appendAll (modelId messageId : string) (calls : list (Z * string))
    (st : AppState.t) : AppState.t :=
  fold_left (fun st c => appendToModelResponse modelId messageId c.2 c.1 st) calls st.

End Store.

(** ** JSON documents, export and import *)

Module JSON.

(** A value as [JSON.parse] returns it. The fields of an object carry
    distinct keys ([JSON.parse] keeps one value per key). *)
#[warnings="-register-all"] Inductive value :=
| Null
| Bool (b : bool)
| Num (q : Q)
| Str (s : string)
| Arr (items : list value)
| Obj (fields : list (string * value)).

Definition getField (k : string) (fields : list (string * value)) : option value :=
  snd <$> List.find (fun kv => String.eqb kv.1 k) fields.

(** [v[k]] for one of the keys read by the store, on a value other than
    [null]: [undefined] on everything but an object that has the key. *)
Definition prop (k : string) (v : value) : option value :=
  match v with
  | Obj fields => getField k fields
  | _ => None
  end.

(** Truthiness of a property that may be [undefined]. *)
Definition truthy (o : option value) : bool :=
  match o with
  | None | Some Null => false
  | Some (Bool b) => b
  | Some (Num q) => JS.truthy_number q
  | Some (Str s) => JS.truthy_string s
  | Some (Arr _) | Some (Obj _) => true
  end.

(** [Array.isArray(x)] *)
Definition isArray (o : option value) : bool :=
  match o with
  | Some (Arr _) => true
  | _ => false
  end.

(** The validation of [importSession], [false] also when reading a
    property throws (the document is [null]):
    [!(!session.id || !session.title || !Array.isArray(session.messages))]. *)
Definition accepts (v : value) : bool :=
  match v with
  | Null => false
  | _ => negb (negb (truthy (prop "id" v))
               || negb (truthy (prop "title" v))
               || negb (isArray (prop "messages" v)))
  end.

(** *** What [JSON.stringify] sees of the typed values *)

(** A property whose value is [undefined] is left out. *)
Definition optField {A : Type} (k : string) (enc : A -> value) (o : option A)
  : list (string * value) :=
  match o with
  | Some a => [(k, enc a)]
  | None => []
  end.

Definition role_name (r : Role) : string :=
  match r with
  | user => "user"
  | assistant => "assistant"
  | system => "system"
  end.

Definition strings (l : list string) : value := Arr (map Str l).

(** An object used as a dictionary. *)
Definition dict {A : Type} (enc : A -> value) (m : gmap string A) : value :=
  Obj (map (fun kv => (kv.1, enc kv.2)) (map_to_list m)).

Section Encode.

(** [Date.prototype.toISOString], through which [JSON.stringify] writes a
    [Date]. *)
Variable toISOString : Z -> string.

Definition date (d : JS.DateVal) : value :=
  match d with
  | JS.DateObj ms => Str (toISOString ms)
  | JS.DateStr iso => Str iso
  end.

Definition ofMessage (m : Message.t) : value :=
  Obj ([ ("id", Str (Message.id m))
       ; ("role", Str (role_name (Message.role m)))
       ; ("content", Str (Message.content m))
       ; ("timestamp", date (Message.timestamp m)) ]
       ++ optField "images" strings (Message.images m)).

Definition ofResponse (r : ModelResponse.t) : value :=
  Obj ([ ("modelId", Str (ModelResponse.modelId r))
       ; ("content", Str (ModelResponse.content r))
       ; ("loading", Bool (ModelResponse.loading r))
       ; ("timestamp", date (ModelResponse.timestamp r)) ]
       ++ optField "error" Str (ModelResponse.error r)
       ++ optField "responseTime" Num (ModelResponse.responseTime r)
       ++ optField "tokens" Num (ModelResponse.tokens r)
       ++ optField "cost" Num (ModelResponse.cost r)).

Definition ofSession (s : ChatSession.t) : value :=
  Obj ([ ("id", Str (ChatSession.id s))
       ; ("systemPrompt", Str (ChatSession.systemPrompt s))
       ; ("selectedModels", strings (ChatSession.selectedModels s))
       ; ("messages", Arr (map ofMessage (ChatSession.messages s)))
       ; ("responses", dict (dict ofResponse) (ChatSession.responses s))
       ; ("createdAt", date (ChatSession.createdAt s))
       ; ("updatedAt", date (ChatSession.updatedAt s))
       ; ("model", Str (ChatSession.model s))
       ; ("provider", Str (provider_name (ChatSession.provider s)))
       ; ("tokenCount", Num (ChatSession.tokenCount s))
       ; ("cost", Num (ChatSession.cost s))
       ; ("temperature", Num (ChatSession.temperature s))
       ; ("maxTokens", Num (ChatSession.maxTokens s)) ]
       ++ optField "title" Str (ChatSession.title s)).

(** *** The typed values once they went through JSON: every [Date] has
    become its ISO string, nothing else has changed. *)

Definition reloadDate (d : JS.DateVal) : JS.DateVal :=
  match d with
  | JS.DateObj ms => JS.DateStr (toISOString ms)
  | JS.DateStr iso => JS.DateStr iso
  end.

Definition reloadMessage (m : Message.t) : Message.t :=
  Message.mk (Message.id m) (Message.role m) (Message.content m)
    (reloadDate (Message.timestamp m)) (Message.images m).

Definition reloadResponse (r : ModelResponse.t) : ModelResponse.t :=
  ModelResponse.mk (ModelResponse.modelId r) (ModelResponse.content r)
    (ModelResponse.loading r) (ModelResponse.error r) (ModelResponse.responseTime r)
    (ModelResponse.tokens r) (ModelResponse.cost r)
    (reloadDate (ModelResponse.timestamp r)).

Definition reloadSession (s : ChatSession.t) : ChatSession.t :=
  ChatSession.mk (ChatSession.id s) (ChatSession.title s) (ChatSession.systemPrompt s)
    (ChatSession.selectedModels s)
    (map reloadMessage (ChatSession.messages s))
    ((fun byMessage : gmap string ModelResponse.t => reloadResponse <$> byMessage)
       <$> ChatSession.responses s)
    (reloadDate (ChatSession.createdAt s)) (reloadDate (ChatSession.updatedAt s))
    (ChatSession.model s) (ChatSession.provider s) (ChatSession.tokenCount s)
    (ChatSession.cost s) (ChatSession.temperature s) (ChatSession.maxTokens s).

End Encode.

(** *** A parsed value read at the type [ChatSession] *)

Definition asStr (v : value) : option string :=
  match v with Str s => Some s | _ => None end.
Definition asNum (v : value) : option Q :=
  match v with Num q => Some q | _ => None end.
Definition asBool (v : value) : option bool :=
  match v with Bool b => Some b | _ => None end.

(** An array whose items all read at the item type. *)
Fixpoint each {A : Type} (dec : value -> option A) (items : list value) : option (list A) :=
  match items with
  | [] => Some []
  | v :: rest =>
      match dec v, each dec rest with
      | Some a, Some l => Some (a :: l)
      | _, _ => None
      end
  end.

Definition asStrings (v : value) : option (list string) :=
  match v with Arr items => each asStr items | _ => None end.

Fixpoint eachField {A : Type} (dec : value -> option A) (fields : list (string * value))
  : option (list (string * A)) :=
  match fields with
  | [] => Some []
  | (k, v) :: rest =>
      match dec v, eachField dec rest with
      | Some a, Some l => Some ((k, a) :: l)
      | _, _ => None
      end
  end.

Definition asDict {A : Type} (dec : value -> option A) (v : value) : option (gmap string A) :=
  match v with
  | Obj fields => list_to_map <$> eachField dec fields
  | _ => None
  end.

(** A required property, and one that may be missing. *)
Definition required {A : Type} (dec : value -> option A) (k : string)
    (fields : list (string * value)) : option A :=
  getField k fields ≫= dec.

Definition optional {A : Type} (dec : value -> option A) (k : string)
    (fields : list (string * value)) : option (option A) :=
  match getField k fields with
  | None => Some None
  | Some v => Some <$> dec v
  end.

Definition role_of_name (s : string) : option Role :=
  if String.eqb s "user" then Some user
  else if String.eqb s "assistant" then Some assistant
  else if String.eqb s "system" then Some system
  else None.

Definition provider_of_name (s : string) : option AIProvider :=
  if String.eqb s "deepseek" then Some deepseek
  else if String.eqb s "aliyun" then Some aliyun
  else if String.eqb s "volcengine" then Some volcengine
  else if String.eqb s "kimi" then Some kimi
  else if String.eqb s "claude" then Some claude
  else None.

Definition asDate (v : value) : option JS.DateVal := JS.DateStr <$> asStr v.

Definition toMessage (v : value) : option Message.t :=
  match v with
  | Obj fs =>
      id ← required asStr "id" fs;
      role ← required asStr "role" fs ≫= role_of_name;
      content ← required asStr "content" fs;
      timestamp ← required asDate "timestamp" fs;
      images ← optional asStrings "images" fs;
      Some (Message.mk id role content timestamp images)
  | _ => None
  end.

Definition toResponse (v : value) : option ModelResponse.t :=
  match v with
  | Obj fs =>
      modelId ← required asStr "modelId" fs;
      content ← required asStr "content" fs;
      loading ← required asBool "loading" fs;
      error ← optional asStr "error" fs;
      responseTime ← optional asNum "responseTime" fs;
      tokens ← optional asNum "tokens" fs;
      cost ← optional asNum "cost" fs;
      timestamp ← required asDate "timestamp" fs;
      Some (ModelResponse.mk modelId content loading error responseTime tokens cost timestamp)
  | _ => None
  end.

Definition asMessages (v : value) : option (list Message.t) :=
  match v with Arr items => each toMessage items | _ => None end.

Definition toSession (v : value) : option ChatSession.t :=
  match v with
  | Obj fs =>
      id ← required asStr "id" fs;
      title ← optional asStr "title" fs;
      systemPrompt ← required asStr "systemPrompt" fs;
      selectedModels ← required asStrings "selectedModels" fs;
      messages ← required asMessages "messages" fs;
      responses ← required (asDict (asDict toResponse)) "responses" fs;
      createdAt ← required asDate "createdAt" fs;
      updatedAt ← required asDate "updatedAt" fs;
      model ← required asStr "model" fs;
      provider ← required asStr "provider" fs ≫= provider_of_name;
      tokenCount ← required asNum "tokenCount" fs;
      cost ← required asNum "cost" fs;
      temperature ← required asNum "temperature" fs;
      maxTokens ← required asNum "maxTokens" fs;
      Some (ChatSession.mk id title systemPrompt selectedModels messages responses
              createdAt updatedAt model provider tokenCount cost temperature maxTokens)
  | _ => None
  end.

End JSON.

(** ** [exportSession] and [importSession] *)

Module Transfer.
Import AppState.

Section Codec.

(** The platform: [Date.prototype.toISOString], [JSON.stringify] (on
    what it sees of a value) and [JSON.parse] ([None]: a syntax error). *)
Variable toISOString : Z -> string.
Variable JSON_stringify : JSON.value -> string.
Variable JSON_parse : string -> option JSON.value.

Definition exportSession (sessionId : string) (st : AppState.t) : string :=
  match Store.findSession sessionId (sessions st) with
  | Some session => JSON_stringify (JSON.ofSession toISOString session)
  | None => ""
  end.

(** The outcomes of [importSession]. The parsed object is put in the
    list as it is; [AddedUntyped] is the case in which it passed the
    validation without having the shape of a [ChatSession]. *)
Inductive ImportResult :=
| Rejected                            (* returns false, the store is unchanged *)
| Added (st' : AppState.t)            (* returns true *)
| AddedUntyped (v : JSON.value).      (* returns true *)

Definition importSession (data : string) (st : AppState.t) : ImportResult :=
  match JSON_parse data with
  | None => Rejected
  | Some v =>
      if JSON.accepts v
      then match JSON.toSession v with
           | Some session => Added (setSessionList (session :: sessions st) st)
           | None => AddedUntyped v
           end
      else Rejected
  end.

End Codec.

(** The boolean [importSession] returns. *)
Definition returned (r : ImportResult) : bool :=
  match r with
  | Rejected => false
  | Added _ | AddedUntyped _ => true
  end.

End Transfer.

(** ** The session-mutating operations as one family *)

Module SessionOp.
Import AppState.

Inductive t :=
| AddMessage (content : string) (images : option (list string)) (env : Store.AddMessageEnv)
| AddModelResponse (modelId messageId : string) (response : ModelResponse.t) (now : Z)
| UpdateModelResponse (modelId messageId : string) (updates : ModelResponse.partial) (now : Z)
| AppendToModelResponse (modelId messageId content : string) (now : Z)
| UpdateSessionTitle (sessionId title : string) (tList : nat -> Z) (tCurrent : Z).

Definition apply (op : t) (st : AppState.t) : AppState.t :=
  match op with
  | AddMessage content images env => (Store.addMessage content images env st).2
  | AddModelResponse m mid r now => Store.addModelResponse m mid r now st
  | UpdateModelResponse m mid u now => Store.updateModelResponse m mid u now st
  | AppendToModelResponse m mid c now => Store.appendToModelResponse m mid c now st
  | UpdateSessionTitle sid title tList tCurrent =>
      Store.updateSessionTitle sid title tList tCurrent st
  end.

(** The readings of [updatedAt] that one operation takes for the list
    entries and for [currentSession] are the same instant. The three
    response operations and [addMessage] on an existing session build one
    object and use it in both places, so nothing is asked of them. *)
Definition sameInstant (op : t) : Prop :=
  match op with
  | AddMessage _ _ env => forall i, Store.tList env i = Store.tCurrent env
  | UpdateSessionTitle _ _ tList tCurrent => forall i, tList i = tCurrent
  | _ => True
  end.

(** The current session does not diverge from the list: every entry of
    the list that carries the id of [currentSession] is [currentSession]. *)
Definition coherent (st : AppState.t) : Prop :=
  forall cur s,
    currentSession st = Some cur ->
    s ∈ sessions st ->
    ChatSession.id s = ChatSession.id cur ->
    s = cur.

(** The same for the one entry that a lookup by id returns (the first
    that carries the id). *)
Definition coherentEntry (st : AppState.t) : Prop :=
  forall cur s,
    currentSession st = Some cur ->
    Store.findSession (ChatSession.id cur) (sessions st) = Some s ->
    s = cur.

End SessionOp.

(** ** The send handler ([handleSendMessage] in [src/App.tsx]) *)

Module App.

(** *** Which models are dispatched *)

(** [AVAILABLE_MODELS.filter(model => selectedModels.includes(model.id))] *)
Definition activeModels (selectedModels : list string) : list ModelConfig.t :=
  filter (fun model : ModelConfig.t => ModelConfig.id model ∈ selectedModels) AVAILABLE_MODELS.

(** [!!apiKeys['volcengine']] *)
Definition hasVolcengineKey (apiKeys : AIProvider -> string) : bool :=
  JS.truthy_string (apiKeys volcengine).

(** [activeModels.some(m => m.provider === 'volcengine')] *)
Definition needVolcengine (active : list ModelConfig.t) : bool :=
  existsb (fun m => bool_decide (ModelConfig.provider m = volcengine)) active.

Record Dispatch := mkDispatch {
  alerted : bool;                      (* window.alert was called *)
  dispatched : list ModelConfig.t      (* the models a task is created for *)
}.

(** The selection of the models to call, up to the early [return]. *)
Definition selectDispatch (apiKeys : AIProvider -> string) (selectedModels : list string)
  : Dispatch :=
  let active := activeModels selectedModels in
  if needVolcengine active && negb (hasVolcengineKey apiKeys)
  then mkDispatch true
         (filter (fun m : ModelConfig.t => ModelConfig.provider m ≠ volcengine) active)
  else mkDispatch false active.

(** *** Store calls made while the fan-out runs *)

(** The calls of the per-model tasks, all for the message id of the
    send, and the [updateSessionTitle] with which a title request
    started by [addMessage] ends. *)
Inductive StoreCall :=
| CallAdd (modelId : string) (response : ModelResponse.t) (now : Z)
| CallAppend (modelId content : string) (now : Z)
| CallUpdate (modelId : string) (updates : ModelResponse.partial) (now : Z)
| CallTitle (sessionId title : string) (tList : nat -> Z) (tCurrent : Z).

Definition call (messageId : string) (c : StoreCall) (st : AppState.t) : AppState.t :=
  match c with
  | CallAdd m r now => Store.addModelResponse m messageId r now st
  | CallAppend m content now => Store.appendToModelResponse m messageId content now st
  | CallUpdate m u now => Store.updateModelResponse m messageId u now st
  | CallTitle sid title tList tCurrent => Store.updateSessionTitle sid title tList tCurrent st
  end.

Definition runCalls (messageId : string) (calls : list StoreCall) (st : AppState.t)
  : AppState.t :=
  fold_left (fun st c => call messageId c st) calls st.

(** The model a call writes to, if it writes to a slot. *)
Definition target (c : StoreCall) : option string :=
  match c with
  | CallAdd m _ _ | CallAppend m _ _ | CallUpdate m _ _ => Some m
  | CallTitle _ _ _ _ => None
  end.

(** What a call does to the slot of the model it targets, seen from
    the slot alone. *)
Definition slotStep (c : StoreCall) (o : option ModelResponse.t) : option ModelResponse.t :=
  match c with
  | CallAdd _ r _ => Some r
  | CallAppend _ content _ => (fun r => ModelResponse.append r content) <$> o
  | CallUpdate _ u _ => (fun r => ModelResponse.merge r u) <$> o
  | CallTitle _ _ _ _ => o
  end.

(** *** Tasks: a log of store calls and a settlement *)

(** An [async] body run to its end: the store calls it made, oldest
    first, and whether its promise is rejected ([inl]) or fulfilled. *)
Definition Task (A : Type) : Type := list StoreCall * (JS.Thrown + A).

Definition ret {A} (a : A) : Task A := ([], inr a).

Definition bind {A B} (t : Task A) (k : A -> Task B) : Task B :=
  match t with
  | (log, inl e) => (log, inl e)
  | (log, inr a) => let (log', r) := k a in ((log ++ log')%list, r)
  end.

Definition tell (c : StoreCall) : Task unit := ([c], inr tt).

(** [try { body } catch (error) { handler }] *)
Definition tryCatch {A} (body : Task A) (handler : JS.Thrown -> Task A) : Task A :=
  match body with
  | (log, inr a) => (log, inr a)
  | (log, inl e) => let (log', r) := handler e in ((log ++ log')%list, r)
  end.

Notation "t >>= k" := (bind t k) (at level 50, left associativity).
Notation "t1 ;;; t2" := (bind t1 (fun _ => t2)) (at level 100, right associativity).

(** What the environment delivers to the task of one model. *)
Record TaskEnv := mkTaskEnv {
  tSlot : Z;                    (* timestamp: new Date() of the loading response *)
  tAdd : Z;                     (* new Date() inside addModelResponse *)
  uiStart : Z;                  (* const startTime = Date.now() in the task *)
  adapterStart : Z;             (* Date.now() readings inside the adapter *)
  adapterEnd : Z;
  net : Stream.FetchResult;     (* the answer of the network *)
  chunkClock : nat -> Z * Z;    (* for the i-th chunk: Date.now() in the
                                   callback, new Date() in the store *)
  tError : Z                    (* new Date() of the update in the catch *)
}.

(** The callback passed to [sendMessageStream]. *)
Definition onChunk (modelId : string) (uiStart : Z) (clock : Z * Z)
    (chunk : Stream.StreamChunk) : StoreCall :=
  if Stream.finished chunk
  then CallUpdate modelId
         (ModelResponse.mkPartial None None (Some false) None
            (Some (inject_Z (clock.1 - uiStart)))
            (Some (JS.or_number (Stream.tokens chunk) 0))
            (Some (JS.or_number (Stream.cost chunk) 0))
            None)
         clock.2
  else CallAppend modelId (Stream.content chunk) clock.2.

(** [error instanceof Error ? error.message : '请求失败'] *)
Definition errorText (error : JS.Thrown) : string :=
  match error with
  | JS.ErrorObj m => m
  | JS.NonError => "请求失败"
  end.

(** [{ content: '', loading: false, error }] *)
Definition failure (error : JS.Thrown) : ModelResponse.partial :=
  ModelResponse.mkPartial None (Some "") (Some false) (Some (errorText error))
    None None None None.

(** The streaming call of one task: its chunks, its settlement. *)
Definition streamCall (parsePayload : string -> option Stream.Payload)
    (reg : Stream.Registry) (model : ModelConfig.t) (env : TaskEnv)
  : list Stream.StreamChunk * (JS.Thrown + Stream.ChatResponse) :=
  (Stream.chatSendMessageStream parsePayload reg (ModelConfig.provider model)
     (ModelConfig.modelId model) (adapterStart env) (adapterEnd env) (net env)).1.

(** Whether the task of [model] calls [fetch]. *)
Definition taskFetches (parsePayload : string -> option Stream.Payload)
    (reg : Stream.Registry) (model : ModelConfig.t) (env : TaskEnv) : bool :=
  (Stream.chatSendMessageStream parsePayload reg (ModelConfig.provider model)
     (ModelConfig.modelId model) (adapterStart env) (adapterEnd env) (net env)).2.

(** The store calls the callback makes for the chunks of one stream. *)
Definition chunkCalls (modelId : string) (env : TaskEnv)
    (chunks : list Stream.StreamChunk) : list StoreCall :=
  imap (fun i chunk => onChunk modelId (uiStart env) (chunkClock env i) chunk) chunks.

(** The body of [activeModels.map(async (model) => { ... })]. *)
Definition modelTask (parsePayload : string -> option Stream.Payload)
    (reg : Stream.Registry) (model : ModelConfig.t) (env : TaskEnv) : Task unit :=
  let modelId := ModelConfig.id model in
  let loadingResponse :=
    ModelResponse.mk modelId "" true None None None None (JS.DateObj (tSlot env)) in
  tell (CallAdd modelId loadingResponse (tAdd env)) ;;;
  tryCatch
    (let (chunks, settled) := streamCall parsePayload reg model env in
     (chunkCalls modelId env chunks, settled) >>= fun _ => ret tt)
    (fun error => tell (CallUpdate modelId (failure error) (tError env))).

(** *** Interleaving *)

(** [Interleave tasks sched]: [sched] runs every call of every list of
    [tasks], each list in its own order, in any order across lists. *)
Inductive Interleave {A : Type} : list (list A) -> list A -> Prop :=
| interleave_done tasks :
    Forall (fun t => t = []) tasks -> Interleave tasks []
| interleave_step tasks i x rest sched :
    tasks !! i = Some (x :: rest) ->
    Interleave (<[i := rest]> tasks) sched ->
    Interleave tasks (x :: sched).

(** The schedule that takes its next call from the list named by each
    index of [order] in turn; [None] when [order] names an exhausted
    list or stops before every list is exhausted. *)
Fixpoint schedule {A : Type} (order : list nat) (lists : list (list A)) : option (list A) :=
  match order with
  | [] =>
      if forallb (fun t => match t with [] => true | _ :: _ => false end) lists
      then Some [] else None
  | i :: order' =>
      match lists !! i with
      | Some (x :: rest) => cons x <$> schedule order' (<[i := rest]> lists)
      | _ => None
      end
  end.

(** *** The handler *)

Record SendInput := mkSendInput {
  inputMessage : string;
  parsedFileContent : string;
  images : option (list string)   (* the image, or the file name, if any *)
}.

Record SendEnv := mkSendEnv {
  newId : string;                  (* readings of createNewSession() *)
  tCreated : Z;
  tUpdated : Z;
  addEnv : Store.AddMessageEnv;    (* readings of addMessage() *)
  taskEnv : string -> TaskEnv;     (* by model id *)
  titleResult : option (string * (nat -> Z) * Z)
    (* the title and the clock readings of the updateSessionTitle that
       ends the title request, when it ends before the fan-out does *)
}.

(** A send that got past the guards. *)
Record FanOut := mkFanOut {
  notified : bool;                       (* window.alert was called *)
  userMessageId : string;
  started : AppState.t;                  (* the state after setLoading(true) *)
  models : list ModelConfig.t;           (* the models a task is created for *)
  tasks : list (Task unit);              (* promises, in the order of models *)
  titleCalls : list StoreCall
}.

(** [handleSendMessage()] up to [await Promise.allSettled(promises)].
    [None]: one of the two guards returned. The closure values
    [selectedModels], [apiKeys], [isLoading] and [currentSession] are
    those of the store state [st] the handler was rendered with. *)
Definition handleSendMessage (parsePayload : string -> option Stream.Payload)
    (reg : Stream.Registry) (input : SendInput) (env : SendEnv) (st : AppState.t)
  : option FanOut :=
  if negb (JS.truthy_string (JS.trim (inputMessage input)))
     && negb (JS.truthy_string (parsedFileContent input)) then None
  else if AppState.isLoading st then None
  else
    let st1 :=
      match AppState.currentSession st with
      | None => Store.createNewSession (newId env) (tCreated env) (tUpdated env) st
      | Some _ => st
      end in
    let '(mid, request, st2) :=
      Store.addMessage (inputMessage input) (images input) (addEnv env) st1 in
    let st3 := Store.setLoading true st2 in
    let d := selectDispatch (AppState.apiKeys st) (AppState.selectedModels st) in
    let title :=
      match request, titleResult env with
      | Some (sid, _), Some (t, tList, tCurrent) => [CallTitle sid t tList tCurrent]
      | _, _ => []
      end in
    Some (mkFanOut (alerted d) mid st3 (dispatched d)
            (map (fun model => modelTask parsePayload reg model
                                 (taskEnv env (ModelConfig.id model)))
                 (dispatched d))
            title).


(** [await Promise.allSettled(promises); setLoading(false)] (or the
    early [setLoading(false); return] when no model is left): the store
    reaches [final] through some interleaving of the calls of the tasks
    and of the title request, no other store operation (a user action)
    coming in between. [Promise.allSettled] waits for every promise and
    is fulfilled whatever their settlements. *)
Definition completes (f : FanOut) (final : AppState.t) : Prop :=
  exists sched,
    Interleave (titleCalls f :: map fst (tasks f)) sched
    /\ final = Store.setLoading false (runCalls (userMessageId f) sched (started f)).

End App.

(** ** Sample values used to run the definitions *)

Module Sample.

Definition response : ModelResponse.t :=
  ModelResponse.mk "deepseek-chat" "He" true None None None None (JS.DateObj 1000).

Definition message : Message.t :=
  Message.mk "m1" user "Hello" (JS.DateObj 1000) None.

(** A titled session with one message and one open slot. *)
Definition session : ChatSession.t :=
  ChatSession.mk "s1" (Some "Greeting") "You are a helpful assistant."
    ["deepseek-chat"] [message]
    {[ "deepseek-chat" := {[ "m1" := response ]} ]}
    (JS.DateObj 900) (JS.DateObj 1000) "deepseek-chat" deepseek 0 0 (7 # 10) 4096.

(** A second session, without messages and without title. *)
Definition other : ChatSession.t :=
  ChatSession.mk "s2" None "You are a helpful assistant."
    ["qwen-turbo"] [] ∅
    (JS.DateObj 500) (JS.DateObj 500) "qwen-turbo" aliyun 0 0 (7 # 10) 4096.

(** [session] is current; both sessions are in the list. *)
Definition state : AppState.t :=
  AppState.mk (AppState.apiKeys Store.initialState) AVAILABLE_MODELS
    ["deepseek-chat"] (Some session) [session; other] false
    "You are a helpful assistant." 0 0.

(** An event parser for the samples: the payload text is the delta. *)
Definition echoPayload (data : string) : option Stream.Payload :=
  Some (Stream.mkPayload data None).

(** A body that streams "He", "llo" and the sentinel in two reads. *)
Definition helloBody : Stream.FetchResult :=
  Stream.FetchOk [ "data: He" ++ String JS.LF "data: llo"
                 ; "data: [DONE]" ++ String JS.LF "" ] None.

(** The readings and network answers of one send: the aliyun model gets
    a 500, the others the body above. *)
Definition taskEnv (modelId : string) : App.TaskEnv :=
  App.mkTaskEnv 3002 3002 3003 3003 3010
    (if String.eqb modelId "qwen-turbo"
     then Stream.FetchNotOk 500 "Internal Server Error" "busy"
     else helloBody)
    (fun i => (3005 + Z.of_nat i, 3005 + Z.of_nat i)%Z)
    3011.

Definition sendEnv : App.SendEnv :=
  App.mkSendEnv "s9" 3000 3000
    (Store.mkAddMessageEnv "s9" 3000 3000 "m2" 3001 3001 (fun _ => 3001%Z))
    taskEnv None.

Definition sendInput : App.SendInput := App.mkSendInput "Hello" "" None.

(** Adapters for deepseek, aliyun and kimi. *)
Definition registry : Stream.Registry :=
  Stream.setApiKey deepseek "sk-a"
    (Stream.setApiKey aliyun "sk-b" (Stream.setApiKey kimi "sk-c" Stream.emptyRegistry)).

(** [state] with three selected models. *)
Definition sendState : AppState.t :=
  Store.setSelectedModels ["deepseek-chat"; "qwen-turbo"; "moonshot-v1-8k"] state.

(** The send of "Hello" from [sendState], and one order in which the
    calls of its three tasks (lists 1, 2 and 3; list 0 is the title
    request) may reach the store. *)
Definition fanOut : option App.FanOut :=
  App.handleSendMessage echoPayload registry sendInput sendEnv sendState.

Definition order : list nat := [1; 2; 3; 1; 3; 2; 1; 3; 1; 3; 1; 3]%nat.

Definition finalState : option AppState.t :=
  match fanOut with
  | Some f =>
      match App.schedule order (App.titleCalls f :: map fst (App.tasks f)) with
      | Some sched =>
          Some (Store.setLoading false
                  (App.runCalls (App.userMessageId f) sched (App.started f)))
      | None => None
      end
  | None => None
  end.


(** [Date.prototype.toISOString] for the instants of the years 0000 to
    9999 and beyond (days are turned into a civil date of the proleptic
    Gregorian calendar). *)
Definition pad (width : nat) (n : Z) : string :=
  let digits := pretty (Z.to_N n) in
  String.concat "" (replicate (width - String.length digits) "0") ++ digits.

Definition toISOString (ms : Z) : string :=
  let days := (ms / 86400000)%Z in
  let rest := (ms mod 86400000)%Z in
  let z := (days + 719468)%Z in
  let era := (z / 146097)%Z in
  let doe := (z mod 146097)%Z in
  let yoe := ((doe - doe / 1460 + doe / 36524 - doe / 146096) / 365)%Z in
  let doy := (doe - (365 * yoe + yoe / 4 - yoe / 100))%Z in
  let mp := ((5 * doy + 2) / 153)%Z in
  let d := (doy - (153 * mp + 2) / 5 + 1)%Z in
  let m := (if mp <? 10 then mp + 3 else mp - 9)%Z in
  let y := (yoe + era * 400 + (if m <=? 2 then 1 else 0))%Z in
  let year :=
    if ((0 <=? y) && (y <=? 9999))%Z then pad 4 y
    else (if (y <? 0)%Z then "-" else "+") ++ pad 6 (Z.abs y) in
  year ++ "-" ++ pad 2 m ++ "-" ++ pad 2 d
    ++ "T" ++ pad 2 (rest / 3600000) ++ ":" ++ pad 2 (rest / 60000 mod 60)
    ++ ":" ++ pad 2 (rest / 1000 mod 60) ++ "." ++ pad 3 (rest mod 1000) ++ "Z".

(** A codec that stands for the JSON codec of the platform when the
    samples are run: it writes a value as an S-expression and reads it
    back. It handles the documents whose strings are ASCII. *)
Fixpoint toSexp (v : JSON.value) : CeresS.sexp :=
  match v with
  | JSON.Null => CeresS.Atom_ (CeresS.Raw "null")
  | JSON.Bool b => CeresS.Atom_ (CeresS.Raw (if b then "true" else "false"))
  | JSON.Num q =>
      CeresS.List [ CeresS.Atom_ (CeresS.Raw "num")
                  ; CeresS.Atom_ (CeresS.Num (Qnum q))
                  ; CeresS.Atom_ (CeresS.Num (Zpos (Qden q))) ]
  | JSON.Str s => CeresS.Atom_ (CeresS.Str s)
  | JSON.Arr items => CeresS.List (CeresS.Atom_ (CeresS.Raw "arr") :: map toSexp items)
  | JSON.Obj fields =>
      CeresS.List
        (CeresS.Atom_ (CeresS.Raw "obj")
         :: map (fun kv => match kv with
                           | (k, x) => CeresS.List [CeresS.Atom_ (CeresS.Str k); toSexp x]
                           end)
              fields)
  end.

Fixpoint fromSexp (e : CeresS.sexp) : option JSON.value :=
  match e with
  | CeresS.Atom_ (CeresS.Raw tag) =>
      if String.eqb tag "null" then Some JSON.Null
      else if String.eqb tag "true" then Some (JSON.Bool true)
      else if String.eqb tag "false" then Some (JSON.Bool false)
      else None
  | CeresS.Atom_ (CeresS.Str s) => Some (JSON.Str s)
  | CeresS.Atom_ (CeresS.Num _) => None
  | CeresS.List (CeresS.Atom_ (CeresS.Raw tag) :: args) =>
      if String.eqb tag "num" then
        match args with
        | [CeresS.Atom_ (CeresS.Num n); CeresS.Atom_ (CeresS.Num (Zpos d))] =>
            Some (JSON.Num (n # d))
        | _ => None
        end
      else if String.eqb tag "arr" then
        JSON.Arr <$>
          (fix items (l : list CeresS.sexp) : option (list JSON.value) :=
             match l with
             | [] => Some []
             | x :: r =>
                 match fromSexp x, items r with
                 | Some v, Some vs => Some (v :: vs)
                 | _, _ => None
                 end
             end) args
      else if String.eqb tag "obj" then
        JSON.Obj <$>
          (fix fields (l : list CeresS.sexp) : option (list (string * JSON.value)) :=
             match l with
             | [] => Some []
             | CeresS.List [CeresS.Atom_ (CeresS.Str k); x] :: r =>
                 match fromSexp x, fields r with
                 | Some v, Some vs => Some ((k, v) :: vs)
                 | _, _ => None
                 end
             | _ => None
             end) args
      else None
  | CeresS.List _ => None
  end.

Definition JSON_stringify (v : JSON.value) : string :=
  CeresFormat.string_of_sexp (toSexp v).

Definition JSON_parse (data : string) : option JSON.value :=
  match CeresParser.parse_sexp data with
  | inr e => fromSexp e
  | inl _ => None
  end.

(** One read that holds the sentinel line, and one that holds an event. *)
Definition doneRead : string := "data: [DONE]" ++ String JS.LF "".
Definition eventRead : string := "data: {}" ++ String JS.LF "".

(** [session] once its title was set with two different clock readings. *)
Definition retitledList : ChatSession.t :=
  ChatSession.withTitle "Hi" (JS.DateObj 2000) session.
Definition retitledCurrent : ChatSession.t :=
  ChatSession.withTitle "Hi" (JS.DateObj 2001) session.

End Sample.

(** ** The request side of the adapters ([formatMessages] and the
    request bodies of [sendMessage] and [sendMessageStream]) *)

Module Adapter.

(** A [ChatRequest] as the adapters read it. *)
Record ChatRequest := mkRequest {
  model : string;
  messages : list Message.t;
  systemPrompt : option string;
  temperature : option Q;
  maxTokens : option Q
}.

(** The content of a formatted message: a text, or (for the vision
    format) a text part followed by image parts. *)
Inductive Part :=
| TextPart (text : string)
| ImagePart (url : string).

Inductive Content :=
| Plain (text : string)
| Parts (parts : list Part).

Record Formatted := mkFormatted {
  role : Role;
  content : Content
}.

(** [if (systemPrompt) formattedMessages.push({ role: 'system', ... })] *)
Definition systemEntry (systemPrompt : option string) : list Formatted :=
  match systemPrompt with
  | Some prompt =>
      if JS.truthy_string prompt then [mkFormatted system (Plain prompt)] else []
  | None => []
  end.

(** The callback of [messages.map]: only the volcengine adapter looks
    at [msg.images]. *)
Definition formatMessage (p : AIProvider) (msg : Message.t) : Formatted :=
  match p, Message.images msg with
  | volcengine, Some (image :: rest) =>
      mkFormatted (Message.role msg)
        (Parts (TextPart (Message.content msg)
                :: map (fun image => ImagePart ("data:image/jpeg;base64," ++ image))
                     (image :: rest)))
  | _, _ => mkFormatted (Message.role msg) (Plain (Message.content msg))
  end.

Definition formatMessages (p : AIProvider) (messages : list Message.t)
    (systemPrompt : option string) : list Formatted :=
  (systemEntry systemPrompt ++ map (formatMessage p) messages)%list.

(** The right operands of [request.temperature || t] and
    [request.maxTokens || m], and the second argument of [Math.min]. *)
Definition defaultTemperature (p : AIProvider) : Q :=
  match p with
  | deepseek | volcengine | claude => 7 # 10
  | aliyun => 85 # 100
  | kimi => 3 # 10
  end.

Definition defaultMaxTokens (p : AIProvider) : Q :=
  match p with
  | deepseek | volcengine | claude => 4096
  | aliyun => 2000
  | kimi => 2048
  end.

Definition maxTokensCeiling (p : AIProvider) : Q :=
  match p with
  | deepseek | volcengine | claude => 4096
  | aliyun => 2000
  | kimi => 128000
  end.

(** [Math.min(a, b)] *)
Definition min (a b : Q) : Q := if Qle_bool a b then a else b.

Record RequestBody := mkBody {
  b_model : string;
  b_messages : list Formatted;
  b_temperature : Q;
  b_max_tokens : Q;
  b_top_p : option Q;
  b_stream : bool
}.

(** The [requestBody] of [sendMessage] ([stream = false]) and of
    [sendMessageStream] ([stream = true]). *)
Definition requestBody (p : AIProvider) (stream : bool) (request : ChatRequest)
  : RequestBody :=
  mkBody (model request)
    (formatMessages p (messages request) (systemPrompt request))
    (JS.or_number (temperature request) (defaultTemperature p))
    (min (JS.or_number (maxTokens request) (defaultMaxTokens p)) (maxTokensCeiling p))
    (match p with aliyun => Some (8 # 10) | _ => None end)
    stream.

End Adapter.

(** ** The rest of the store ([src/store/index.ts]) *)

Module StoreRest.
Import AppState.

Definition setApiKey (provider : AIProvider) (apiKey : string) (st : AppState.t)
  : AppState.t :=
  AppState.mk (fun p => if decide (p = provider) then apiKey else apiKeys st p)
    (availableModels st) (selectedModels st) (currentSession st) (sessions st)
    (isLoading st) (systemPrompt st) (totalTokens st) (totalCost st).

Definition getApiKey (provider : AIProvider) (st : AppState.t) : string :=
  apiKeys st provider.

Definition setSystemPrompt (prompt : string) (st : AppState.t) : AppState.t :=
  AppState.mk (apiKeys st) (availableModels st) (selectedModels st) (currentSession st)
    (sessions st) (isLoading st) prompt (totalTokens st) (totalCost st).

Definition addTokens (tokens : Q) (st : AppState.t) : AppState.t :=
  AppState.mk (apiKeys st) (availableModels st) (selectedModels st) (currentSession st)
    (sessions st) (isLoading st) (systemPrompt st) (totalTokens st + tokens) (totalCost st).

Definition addCost (cost : Q) (st : AppState.t) : AppState.t :=
  AppState.mk (apiKeys st) (availableModels st) (selectedModels st) (currentSession st)
    (sessions st) (isLoading st) (systemPrompt st) (totalTokens st) (totalCost st + cost).

Definition clearAllData (st : AppState.t) : AppState.t :=
  AppState.mk (apiKeys st) (availableModels st) (selectedModels st) None []
    (isLoading st) (systemPrompt st) 0 0.

End StoreRest.

(** ** The rest of the application ([src/App.tsx]) and the key
    validation it shows ([src/utils/helpers.ts]) *)

Module AppRest.

(** The providers in the order of [Object.entries(apiKeys)]. *)
Definition providers : list AIProvider := [deepseek; aliyun; volcengine; kimi; claude].

(** The effect that follows every change of [apiKeys]:
    [Object.entries(apiKeys).forEach(([provider, apiKey]) =>
       { if (apiKey) chatService.setApiKey(provider, apiKey) })]. *)
Definition syncRegistry (apiKeys : AIProvider -> string) (reg : Stream.Registry)
  : Stream.Registry :=
  fold_left
    (fun reg provider =>
       if JS.truthy_string (apiKeys provider)
       then Stream.setApiKey provider (apiKeys provider) reg
       else reg)
    providers reg.

(** [messageToSend]: the input, followed by the text of the parsed
    file when there is one. *)
Definition messageToSend (input : App.SendInput) : string :=
  if JS.truthy_string (App.parsedFileContent input)
  then App.inputMessage input
       ++ String JS.LF (String JS.LF
            ("【上传文档内容】：" ++ String JS.LF (App.parsedFileContent input)))
  else App.inputMessage input.

(** [allMessages]: the messages of the session the handler was rendered
    with, followed by the message being sent; [tNow] is the [new Date()]
    reading of its timestamp. *)
Definition allMessages (input : App.SendInput) (userMessageId : string) (tNow : Z)
    (st : AppState.t) : list Message.t :=
  (match AppState.currentSession st with
   | Some cur => ChatSession.messages cur
   | None => []
   end
   ++ [Message.mk userMessageId user (messageToSend input) (JS.DateObj tNow)
         (App.images input)])%list.

(** The request the task of [model] passes to the registry. *)
Definition requestFor (model : ModelConfig.t) (input : App.SendInput)
    (userMessageId : string) (tNow : Z) (st : AppState.t) : Adapter.ChatRequest :=
  Adapter.mkRequest (ModelConfig.modelId model)
    (allMessages input userMessageId tNow st)
    (Some (AppState.systemPrompt st))
    (Some (ModelConfig.temperature model))
    (Some (ModelConfig.maxTokens model)).

End AppRest.

Module Helpers.

(** The character class of [/^[a-zA-Z0-9_-]+$/]. *)
Definition isKeyChar (c : ascii) : bool :=
  let n := nat_of_ascii c in
  ((97 <=? n)%nat && (n <=? 122)%nat)
  || ((65 <=? n)%nat && (n <=? 90)%nat)
  || ((48 <=? n)%nat && (n <=? 57)%nat)
  || (n =? 95)%nat || (n =? 45)%nat.

Definition matchesKeyPattern (key : string) : bool :=
  JS.truthy_string key && forallb isKeyChar (list_ascii_of_string key).

(** [validateApiKey(provider, key)]; the provider is any string. *)
Definition validateApiKey (provider key : string) : bool :=
  if negb (JS.truthy_string key) || (JS.length (JS.trim key) =? 0)%nat then false
  else if String.eqb provider "deepseek" then JS.startsWith "sk-" key
  else if String.eqb provider "aliyun" then
    (20 <? JS.length key)%nat && (JS.startsWith "sk-" key || matchesKeyPattern key)
  else if String.eqb provider "volcengine" then (10 <? JS.length key)%nat
  else if String.eqb provider "kimi" then JS.startsWith "sk-" key
  else if String.eqb provider "claude" then (0 <? JS.length (JS.trim key))%nat
  else false.

End Helpers.

(** ** Shapes of chunks and readers *)

Module Shape.
Import Stream.

(** A chunk is a non-empty delta or the terminal chunk. *)
Definition shaped (c : StreamChunk) : Prop :=
  (exists d, d <> "" /\ c = deltaChunk d) \/ (exists t, c = terminalChunk t).

(** The reader's [content] is what it has passed to [onChunk]. *)
Definition faithful (r : Reader) : Prop :=
  rd_content r = String.concat "" (map content (rd_emitted r))
  /\ Forall shaped (rd_emitted r).

End Shape.

(** ** More sample values *)

Module Fixtures.

(** A message that carries two images. *)
Definition picture : Message.t :=
  Message.mk "m7" user "What is this?" (JS.DateObj 7000) (Some ["AAAA"; "BBBB"]).

Definition request : Adapter.ChatRequest :=
  Adapter.mkRequest "moonshot-v1-8k" [Sample.message; picture]
    (Some "You are a helpful assistant.") (Some 0%Q) (Some 500000%Q).

(** A request within the ceiling of its adapter. *)
Definition modest : Adapter.ChatRequest :=
  Adapter.mkRequest "qwen-turbo" [Sample.message] None (Some (5 # 10)) (Some 1500%Q).

(** Two models of the table, and readings of a task whose stream
    breaks after its first read. *)
Definition doubao : ModelConfig.t :=
  ModelConfig.mk "doubao-pro-32k" "豆包 Pro 32K" volcengine "ep-20250424184643-vjbdz"
    4096 (7 # 10) false (5 # 10000000).

Definition moonshot : ModelConfig.t :=
  ModelConfig.mk "moonshot-v1-8k" "Kimi V1 8K" kimi "moonshot-v1-8k"
    2048 (3 # 10) false (12 # 1000000).

Definition brokenEnv : App.TaskEnv :=
  App.mkTaskEnv 3002 3002 3003 3003 3010
    (Stream.FetchOk ["data: He" ++ String JS.LF ""] (Some JS.NonError))
    (fun i => (3005 + Z.of_nat i, 3005 + Z.of_nat i)%Z)
    3011.

(** A send in which the deepseek call is answered with an error and
    the two other calls with a body that ends without sentinel line,
    and one order in which the calls of the three tasks may reach the
    store. *)
Definition silentBody : list string := ["data: Hello" ++ String JS.LF ""].

Definition silentTaskEnv (modelId : string) : App.TaskEnv :=
  App.mkTaskEnv 3002 3002 3003 3003 3010
    (if String.eqb modelId "deepseek-chat"
     then Stream.FetchNotOk 500 "Internal Server Error" "busy"
     else Stream.FetchOk silentBody None)
    (fun i => (3005 + Z.of_nat i, 3005 + Z.of_nat i)%Z)
    3011.

Definition silentSendEnv : App.SendEnv :=
  App.mkSendEnv "s9" 3000 3000
    (Store.mkAddMessageEnv "s9" 3000 3000 "m2" 3001 3001 (fun _ => 3001%Z))
    silentTaskEnv None.

Definition silentFanOut : option App.FanOut :=
  App.handleSendMessage Sample.echoPayload Sample.registry Sample.sendInput
    silentSendEnv Sample.sendState.

Definition silentOrder : list nat := [1; 2; 3; 2; 3; 1; 3]%nat.

Definition silentFinal : option AppState.t :=
  match silentFanOut with
  | Some f =>
      match App.schedule silentOrder (App.titleCalls f :: map fst (App.tasks f)) with
      | Some sched =>
          Some (Store.setLoading false
                  (App.runCalls (App.userMessageId f) sched (App.started f)))
      | None => None
      end
  | None => None
  end.

(** A document with the three properties [importSession] checks, and
    nothing else. *)
Definition bareSession : JSON.value :=
  JSON.Obj [("id", JSON.Str "s3"); ("title", JSON.Str "Bare"); ("messages", JSON.Arr [])].

(** U+00A0 and U+3000. *)
Definition nbsp : string := JS.bytes [194; 160].
Definition ideographicSpace : string := JS.bytes [227; 128; 128].

(** A send with an uploaded document. *)
Definition withDocument : App.SendInput :=
  App.mkSendInput "Summarise" "Chapter 1" (Some ["notes.txt"]).


End Fixtures.

(* ================================================================== *)
(** * Part II: properties                                              *)
(* ================================================================== *)

(** ** Auxiliary facts on strings and slots *)

Lemma string_app_nil_r (s : string) : s ++ "" = s.
Proof.
  induction s as [|c s IH]; [reflexivity|].
  change (String c (s ++ "") = String c s). now f_equal.
Qed.

Lemma string_app_assoc (s1 s2 s3 : string) : (s1 ++ s2) ++ s3 = s1 ++ (s2 ++ s3).
Proof.
  induction s1 as [|c s1 IH]; [reflexivity|].
  change (String c ((s1 ++ s2) ++ s3) = String c (s1 ++ (s2 ++ s3))). now f_equal.
Qed.

Lemma string_concat_cons (x : string) (xs : list string) :
  String.concat "" (x :: xs) = x ++ String.concat "" xs.
Proof.
  destruct xs as [|y ys]; simpl.
  - now rewrite string_app_nil_r.
  - reflexivity.
Qed.

Section SlotFacts.
Import ChatSession.

Lemma slot_withResponses_putSlot m mid r d (s : ChatSession.t) :
  slot m mid (withResponses (putSlot m mid r s) d s) = Some r.
Proof.
  unfold slot, putSlot; simpl.
  rewrite lookup_insert_eq; simpl. apply lookup_insert_eq.
Qed.

Lemma slot_withResponses_putSlot_ne m mid m' mid' r d (s : ChatSession.t) :
  (m', mid') ≠ (m, mid) →
  slot m' mid' (withResponses (putSlot m mid r s) d s) = slot m' mid' s.
Proof.
  intros Hne. unfold slot, putSlot; simpl.
  destruct (decide (m = m')) as [<-|Hm].
  - rewrite lookup_insert_eq; simpl.
    assert (mid ≠ mid') by congruence.
    rewrite lookup_insert_ne by done.
    destruct (responses s !! m); simpl; [done | apply lookup_empty].
  - now rewrite lookup_insert_ne.
Qed.

End SlotFacts.

Section StoreFacts.
Import AppState Store.

(** An existing slot is replaced by its extension. *)
Lemma currentSlot_append m mid delta now st r :
  currentSlot m mid st = Some r →
  currentSlot m mid (appendToModelResponse m mid delta now st)
  = Some (ModelResponse.append r delta).
Proof.
  unfold currentSlot, appendToModelResponse.
  destruct (currentSession st) as [cur|]; simpl; [|discriminate].
  intros ->; simpl. apply slot_withResponses_putSlot.
Qed.

(** The entries of the list whose id is not the current one are not
    touched by a replacement. *)
Lemma replaceSession_lookup_ne (updated a : ChatSession.t) l (i : nat) :
  l !! i = Some a → ChatSession.id a ≠ ChatSession.id updated →
  replaceSession updated l !! i = Some a.
Proof.
  intros Hi Hne. unfold replaceSession. rewrite list_lookup_fmap, Hi; simpl.
  now rewrite bool_decide_eq_false_2.
Qed.

Lemma findSession_id sid l s : findSession sid l = Some s → ChatSession.id s = sid.
Proof.
  unfold findSession. intros H. apply find_some in H as [_ H].
  now apply bool_decide_eq_true in H.
Qed.

End StoreFacts.

(** ** C2: appended deltas accumulate in call order *)

(** C2. On an existing slot of the current session, a finite run of
    [appendToModelResponse] calls leaves a slot whose [content] is the
    initial content followed by the deltas in call order, none dropped
    and none reordered; the other fields of the slot stay as they
    were. *)
Theorem appendToModelResponse_concatenates
    (modelId messageId : string) (calls : list (Z * string))
    (st : AppState.t) (r : ModelResponse.t) :
  Store.currentSlot modelId messageId st = Some r →
  ∃ r' : ModelResponse.t,
    Store.currentSlot modelId messageId (Store.appendAll modelId messageId calls st)
    = Some r'
    ∧ ModelResponse.content r'
      = ModelResponse.content r ++ String.concat "" (map snd calls)
    ∧ r' = ModelResponse.mk (ModelResponse.modelId r) (ModelResponse.content r')
             (ModelResponse.loading r) (ModelResponse.error r)
             (ModelResponse.responseTime r) (ModelResponse.tokens r)
             (ModelResponse.cost r) (ModelResponse.timestamp r).
Proof.
  unfold Store.appendAll.
  revert st r. induction calls as [|[now delta] calls IH]; intros st r Hr.
  - exists r. split; [exact Hr|]. split; [|now destruct r].
    symmetry. apply string_app_nil_r.
  - destruct (IH (Store.appendToModelResponse modelId messageId delta now st)
                (ModelResponse.append r delta)) as (r' & Hslot & Hcontent & Hrest).
    { now apply currentSlot_append. }
    exists r'. split; [exact Hslot|]. split.
    + rewrite Hcontent. cbn [ModelResponse.append ModelResponse.content map snd].
      rewrite (string_concat_cons delta (map snd calls)). apply string_app_assoc.
    + exact Hrest.
Qed.

Lemma appendToModelResponse_concatenates_witness :
  Store.currentSlot "deepseek-chat" "m1" Sample.state = Some Sample.response
  ∧ ∃ r' : ModelResponse.t,
      Store.currentSlot "deepseek-chat" "m1"
        (Store.appendAll "deepseek-chat" "m1" [(1001%Z, "l"); (1002%Z, "lo")] Sample.state)
      = Some r'
      ∧ ModelResponse.content r'
        = ModelResponse.content Sample.response ++ String.concat "" ["l"; "lo"].
Proof.
  split; [reflexivity|].
  destruct (appendToModelResponse_concatenates "deepseek-chat" "m1"
              [(1001%Z, "l"); (1002%Z, "lo")] Sample.state Sample.response)
    as (r' & Hslot & Hcontent & _); [reflexivity|].
  exists r'. split; [exact Hslot | exact Hcontent].
Defined.

(** ** C5: appending to a slot that does not exist *)

(** C5. Without a current session, and with a current session in which
    the read [responses[modelId]?.[messageId]] is [undefined],
    [appendToModelResponse] returns the state it was given. A pair
    without an own slot reads as [undefined] unless one of its ids is a
    name inherited from [Object.prototype]: there the read finds the
    inherited property, which is truthy, and the guard
    [if (!currentResponse) return state] does not return, as for the
    message id [constructor] under a model that has a slot in the
    sample session. Moreover the validation of [importSession] accepts a
    document that has no [responses] at all, a session on which the
    read itself cannot be made. *)
Theorem appendToModelResponse_missing_slot_guard
    (modelId messageId delta : string) (now : Z) (st : AppState.t) :
  (AppState.currentSession st = None →
   Store.appendToModelResponse modelId messageId delta now st = st)
  ∧ (∀ cur, AppState.currentSession st = Some cur →
       ChatSession.read modelId messageId cur = ChatSession.NoSlot →
       Store.appendToModelResponse modelId messageId delta now st = st)
  ∧ (∀ cur, ChatSession.slot modelId messageId cur = None →
       modelId ∉ JS.objectPrototype → messageId ∉ JS.objectPrototype →
       ChatSession.read modelId messageId cur = ChatSession.NoSlot)
  ∧ (ChatSession.slot "deepseek-chat" "constructor" Sample.session = None
     ∧ ChatSession.read "deepseek-chat" "constructor" Sample.session
       = ChatSession.InheritedSlot)
  ∧ (JSON.accepts Fixtures.bareSession = true
     ∧ JSON.prop "responses" Fixtures.bareSession = None
     ∧ JSON.toSession Fixtures.bareSession = None).
Proof.
  split; [|split; [|split; [|split]]].
  - intros Hcur. unfold Store.appendToModelResponse. now rewrite Hcur.
  - intros cur Hcur Hread. unfold Store.appendToModelResponse. rewrite Hcur.
    unfold ChatSession.read, ChatSession.slot, JS.get in *.
    destruct (ChatSession.responses cur !! modelId) as [byMessage|]; simpl; [|reflexivity].
    destruct (byMessage !! messageId); [discriminate | reflexivity].
  - intros cur Hslot Hmodel Hmessage. unfold ChatSession.read, ChatSession.slot, JS.get in *.
    destruct (ChatSession.responses cur !! modelId) as [byMessage|]; simpl in *.
    + rewrite Hslot. now rewrite bool_decide_eq_false_2.
    + now rewrite bool_decide_eq_false_2.
  - split; vm_compute; reflexivity.
  - split; [|split]; vm_compute; reflexivity.
Qed.

Lemma appendToModelResponse_missing_slot_guard_witness :
  ChatSession.read "qwen-turbo" "m1" Sample.session = ChatSession.NoSlot
  ∧ Store.appendToModelResponse "qwen-turbo" "m1" "x" 1001 Sample.state = Sample.state
  ∧ Store.appendToModelResponse "deepseek-chat" "m1" "x" 1001 Store.initialState
    = Store.initialState.
Proof.
  destruct (appendToModelResponse_missing_slot_guard "qwen-turbo" "m1" "x" 1001 Sample.state)
    as (_ & Hcurrent & Hplain & _).
  destruct (appendToModelResponse_missing_slot_guard "deepseek-chat" "m1" "x" 1001
              Store.initialState) as (Hnone & _).
  assert (Hread : ChatSession.read "qwen-turbo" "m1" Sample.session = ChatSession.NoSlot).
  { apply Hplain; [reflexivity | |]; apply (bool_decide_unpack _); vm_compute; exact I. }
  split; [exact Hread|]. split.
  - apply (Hcurrent Sample.session); [reflexivity | exact Hread].
  - apply Hnone. reflexivity.
Defined.


(** ** C3: deltas that arrive after a session switch *)

Section LateAppends.
Import AppState Store.

(** One append leaves alone every list entry whose id is not the id of
    the current session, and does not change the id of the current
    session. *)
Lemma append_keeps_foreign_entry m mid delta now st (a b : ChatSession.t) (i : nat) :
  currentSession st = Some b →
  ChatSession.id a ≠ ChatSession.id b →
  sessions st !! i = Some a →
  (∃ b', currentSession (appendToModelResponse m mid delta now st) = Some b'
         ∧ ChatSession.id b' = ChatSession.id b)
  ∧ sessions (appendToModelResponse m mid delta now st) !! i = Some a.
Proof.
  intros Hcur Hne Hi. unfold appendToModelResponse. rewrite Hcur.
  destruct (ChatSession.slot m mid b) as [r|]; simpl.
  - split; [eexists; split; reflexivity|].
    now apply replaceSession_lookup_ne.
  - split; [now exists b | done].
Qed.

Lemma appendAll_keeps_foreign_entry m mid calls st (a b : ChatSession.t) (i : nat) :
  currentSession st = Some b →
  ChatSession.id a ≠ ChatSession.id b →
  sessions st !! i = Some a →
  sessions (appendAll m mid calls st) !! i = Some a.
Proof.
  unfold appendAll. revert st b.
  induction calls as [|[now delta] calls IH]; intros st b Hcur Hne Hi; simpl; [done|].
  destruct (append_keeps_foreign_entry m mid delta now st a b i Hcur Hne Hi)
    as [(b' & Hcur' & Hid) Hi'].
  apply (IH _ b'); [done | congruence | done].
Qed.

End LateAppends.

(** C3. Let [original] be the current session, stored at index [i] of the
    sessions list, while a stream writes into one of its slots. After
    [loadSession] has switched to a session with another id, any run of
    late [appendToModelResponse] calls leaves the entry at index [i]
    equal to [original]: what had been streamed into its slots is still
    there, and the slot reads the same as before the switch. *)
Theorem late_appends_preserve_original_session
    (st : AppState.t) (original : ChatSession.t) (i : nat)
    (sessionId modelId messageId : string) (calls : list (Z * string)) :
  AppState.currentSession st = Some original →
  AppState.sessions st !! i = Some original →
  sessionId ≠ ChatSession.id original →
  is_Some (Store.findSession sessionId (AppState.sessions st)) →
  AppState.sessions
    (Store.appendAll modelId messageId calls (Store.loadSession sessionId st)) !! i
  = Some original
  ∧ (AppState.sessions
       (Store.appendAll modelId messageId calls (Store.loadSession sessionId st)) !! i)
      ≫= ChatSession.slot modelId messageId
    = Store.currentSlot modelId messageId st.
Proof.
  intros Hcur Hi Hne [b Hb].
  assert (Hkeep : AppState.sessions
            (Store.appendAll modelId messageId calls (Store.loadSession sessionId st)) !! i
          = Some original).
  { apply (appendAll_keeps_foreign_entry _ _ _ _ original b).
    - unfold Store.loadSession. now rewrite Hb.
    - apply findSession_id in Hb. congruence.
    - unfold Store.loadSession. now rewrite Hb. }
  split; [exact Hkeep|].
  rewrite Hkeep. unfold Store.currentSlot. now rewrite Hcur.
Qed.

Lemma late_appends_preserve_original_session_witness :
  AppState.sessions
    (Store.appendAll "deepseek-chat" "m1" [(1001%Z, "l"); (1002%Z, "lo")]
       (Store.loadSession "s2" Sample.state)) !! 0%nat
  = Some Sample.session
  ∧ (AppState.sessions
       (Store.appendAll "deepseek-chat" "m1" [(1001%Z, "l"); (1002%Z, "lo")]
          (Store.loadSession "s2" Sample.state)) !! 0%nat)
      ≫= ChatSession.slot "deepseek-chat" "m1"
    = Store.currentSlot "deepseek-chat" "m1" Sample.state.
Proof.
  apply (late_appends_preserve_original_session Sample.state Sample.session 0 "s2").
  - reflexivity.
  - reflexivity.
  - discriminate.
  - exists Sample.other. reflexivity.
Defined.

(** ** C10: toggling a model twice *)

Lemma filter_absent (modelId : string) (l : list string) :
  modelId ∉ l → filter (fun id : string => id ≠ modelId) l = l.
Proof.
  induction l as [|y l IH]; intros Hnot; [reflexivity|].
  apply not_elem_of_cons in Hnot as [Hy Hl].
  rewrite filter_cons_True by congruence. now rewrite IH.
Qed.

(** C10. Two successive [toggleModel modelId] calls give back a selection
    with the same members: the same list when [modelId] was not selected,
    and the list without [modelId] followed by [modelId] when it was. *)
Theorem toggleModel_twice_same_membership (modelId : string) (st : AppState.t) :
  (∀ x : string,
     x ∈ AppState.selectedModels (Store.toggleModel modelId (Store.toggleModel modelId st))
     ↔ x ∈ AppState.selectedModels st)
  ∧ AppState.selectedModels (Store.toggleModel modelId (Store.toggleModel modelId st))
    = (if bool_decide (modelId ∈ AppState.selectedModels st)
       then filter (fun id : string => id ≠ modelId) (AppState.selectedModels st) ++ [modelId]
       else AppState.selectedModels st)%list.
Proof.
  assert (Hlist :
    AppState.selectedModels (Store.toggleModel modelId (Store.toggleModel modelId st))
    = (if bool_decide (modelId ∈ AppState.selectedModels st)
       then filter (fun id : string => id ≠ modelId) (AppState.selectedModels st) ++ [modelId]
       else AppState.selectedModels st)%list).
  { unfold Store.toggleModel; simpl.
    destruct (bool_decide (modelId ∈ AppState.selectedModels st)) eqn:Hsel; simpl.
    - rewrite bool_decide_eq_false_2; [reflexivity|].
      rewrite list_elem_of_filter. tauto.
    - rewrite bool_decide_eq_true_2 by (apply elem_of_app; right; apply list_elem_of_singleton; reflexivity).
      rewrite filter_app.
      apply bool_decide_eq_false in Hsel.
      rewrite filter_absent by done.
      rewrite filter_cons_False by tauto. apply app_nil_r. }
  split; [|exact Hlist].
  intros x. rewrite Hlist.
  destruct (bool_decide (modelId ∈ AppState.selectedModels st)) eqn:Hsel.
  - apply bool_decide_eq_true in Hsel.
    rewrite elem_of_app, list_elem_of_filter, list_elem_of_singleton.
    destruct (decide (x = modelId)) as [->|]; tauto.
  - reflexivity.
Qed.

(** ** C8: the cost, and the model ids the price table inherits *)

Lemma prices_inherited_names (p : AIProvider) (model : string) :
  model ∈ JS.objectPrototype → Cost.prices p !! model = None.
Proof.
  intros Hin. apply list_elem_of_In in Hin. simpl in Hin.
  repeat (destruct Hin as [<-|Hin]; [destruct p; vm_compute; reflexivity|]).
  destruct Hin.
Qed.

(** C8. For each of the five adapters and every model id that is not a
    name inherited from [Object.prototype], [calculateCost] gives a
    number that doubles when the token count doubles, and an id that is
    not a key of the price table is charged at the default rate of the
    adapter. At the inherited names (none of which is a key of a price
    table) the lookup [prices[model]] finds the inherited property, the
    default is not taken, and the cost is [NaN]: such an unknown model
    id is not charged at the default rate. *)
Theorem calculateCost_default_rate_fails_at_inherited_names
    (p : AIProvider) (tokens : Q) (model : string) :
  (model ∉ JS.objectPrototype →
   ∃ c c2 : Q,
     Cost.calculateCost p tokens model = Some c
     ∧ Cost.calculateCost p (2 * tokens) model = Some c2
     ∧ c2 == 2 * c
     ∧ (Cost.prices p !! model = None → c == tokens * Cost.defaultRatePerToken p))
  ∧ (model ∈ JS.objectPrototype →
     Cost.prices p !! model = None
     ∧ Cost.calculateCost p tokens model = None
     ∧ Cost.calculateCost p (2 * tokens) model = None).
Proof.
  split.
  - intros Hplain. unfold Cost.calculateCost, Cost.pricePerMillion, JS.get.
    destruct (Cost.prices p !! model) as [price|] eqn:Hprice.
    + destruct p; simpl; eexists _, _;
        (split; [reflexivity|]); (split; [reflexivity|]);
        (split; [unfold Qdiv; ring | discriminate]).
    + rewrite bool_decide_eq_false_2 by exact Hplain.
      destruct p; simpl; eexists _, _;
        (split; [reflexivity|]); (split; [reflexivity|]);
        (split; [unfold Qdiv; ring|]); intros _;
        unfold Cost.defaultRatePerToken; unfold Qdiv; ring.
  - intros Hin. pose proof (prices_inherited_names p model Hin) as Hprice.
    split; [exact Hprice|].
    unfold Cost.calculateCost, Cost.pricePerMillion, JS.get.
    rewrite Hprice, bool_decide_eq_true_2 by exact Hin.
    destruct p; split; reflexivity.
Qed.

Lemma calculateCost_default_rate_fails_at_inherited_names_witness :
  (∃ c c2 : Q,
     Cost.calculateCost kimi 1000 "gpt-4" = Some c
     ∧ Cost.calculateCost kimi (2 * 1000) "gpt-4" = Some c2
     ∧ c2 == 2 * c
     ∧ (Cost.prices kimi !! "gpt-4" = None → c == 1000 * Cost.defaultRatePerToken kimi))
  ∧ Cost.prices kimi !! "constructor" = None
  ∧ Cost.calculateCost kimi 1000 "constructor" = None.
Proof.
  destruct (calculateCost_default_rate_fails_at_inherited_names kimi 1000 "gpt-4")
    as (Hplain & _).
  destruct (calculateCost_default_rate_fails_at_inherited_names kimi 1000 "constructor")
    as (_ & Hinherited).
  split.
  - apply Hplain. apply (bool_decide_unpack _). vm_compute. exact I.
  - destruct Hinherited as (Hprice & Hcost & _).
    + apply (bool_decide_unpack _). vm_compute. exact I.
    + split; assumption.
Defined.

(** ** C1: terminal chunks of a stream that is read to its end *)

Section TerminalChunks.
Import Stream.
Variable parsePayload : string -> option Payload.

Lemma terminals_app (l1 l2 : list StreamChunk) :
  terminals (l1 ++ l2) = (terminals l1 ++ terminals l2)%list.
Proof. unfold terminals. apply List.filter_app. Qed.

(** A parsed event adds no terminal chunk. *)
Lemma onData_terminals data r :
  terminals (rd_emitted (onData parsePayload data r)) = terminals (rd_emitted r).
Proof.
  unfold onData. destruct (parsePayload data) as [p|]; [|reflexivity].
  assert (H : terminals
            (rd_emitted
               (if JS.truthy_string (delta p)
                then emit (deltaChunk (delta p))
                       (mkReader (rd_content r ++ delta p) (rd_tokens r) (rd_emitted r))
                else r)) = terminals (rd_emitted r)).
  { destruct (JS.truthy_string (delta p)); simpl; [|reflexivity].
    rewrite terminals_app; simpl. apply app_nil_r. }
  destruct (total_tokens p) as [t|]; [|exact H].
  destruct (JS.truthy_number t); exact H.
Qed.

(** One read adds one terminal chunk when one of its lines is the
    sentinel, and none otherwise. *)
Lemma forLines_terminals lines r :
  length (terminals (rd_emitted (forLines parsePayload lines r)))
  = (length (terminals (rd_emitted r)) + (if existsb isDoneLine lines then 1 else 0))%nat.
Proof.
  revert r. induction lines as [|line rest IH]; intros r; cbn [forLines existsb].
  - lia.
  - unfold isDoneLine at 1.
    destruct (JS.startsWith "data: " line); cbn [andb orb]; [|apply IH].
    destruct (String.eqb (JS.trim (JS.slice 6 line)) "[DONE]"); cbn [orb].
    + unfold emit; cbn [rd_emitted]. rewrite terminals_app, length_app; reflexivity.
    + destruct (JS.truthy_string (JS.trim (JS.slice 6 line))).
      * rewrite IH, onData_terminals. reflexivity.
      * apply IH.
Qed.

Lemma readLoop_terminals reads r :
  length (terminals (rd_emitted (readLoop parsePayload reads r)))
  = (length (terminals (rd_emitted r)) + length (List.filter hasDoneLine reads))%nat.
Proof.
  unfold readLoop. revert r.
  induction reads as [|value reads IH]; intros r; simpl; [lia|].
  rewrite IH. unfold onRead. rewrite forLines_terminals.
  fold (hasDoneLine value). destruct (hasDoneLine value); simpl; lia.
Qed.

(** The number of terminal chunks of a stream read to its end: one for
    every read that holds a sentinel line, and one more for the adapters
    that signal completion after the loop. *)
Lemma sendMessageStream_terminal_count p model t0 t1 reads :
  length (terminals (fst (sendMessageStream parsePayload p model t0 t1 (FetchOk reads None))))
  = ((if emitsAfterLoop p then 1 else 0) + length (List.filter hasDoneLine reads))%nat.
Proof.
  unfold sendMessageStream.
  destruct (emitsAfterLoop p); cbn [fst].
  - unfold emit; cbn [rd_emitted].
    rewrite terminals_app, length_app, readLoop_terminals. simpl. lia.
  - rewrite readLoop_terminals. simpl. lia.
Qed.

End TerminalChunks.

(** C1. The claim asks for exactly one terminal chunk per stream that is
    read to its end. Evaluated on two such streams, whatever the event
    parser does: the DeepSeek adapter, given a body whose only read is
    the sentinel line, passes two terminal chunks to [onChunk] (one at
    the sentinel, one after the loop); the Aliyun adapter, given a body
    that ends without a sentinel, passes none. *)
Theorem sendMessageStream_terminal_chunks_not_exactly_one
    (parsePayload : string -> option Stream.Payload) :
  Stream.terminals
    (fst (Stream.sendMessageStream parsePayload deepseek "deepseek-chat" 0 10
            (Stream.FetchOk [Sample.doneRead] None)))
  = [Stream.terminalChunk 0; Stream.terminalChunk 0]
  ∧ Stream.terminals
      (fst (Stream.sendMessageStream parsePayload aliyun "qwen-turbo" 0 10
              (Stream.FetchOk [Sample.eventRead] None)))
    = [].
Proof.
  split; [reflexivity|].
  apply length_zero_iff_nil.
  rewrite sendMessageStream_terminal_count. reflexivity.
Qed.

(** ** C9: the current session and its entry in the list *)

Section Coherence.
Import AppState Store SessionOp.

(** After [sessions.map(s => s.id === updated.id ? updated : s)] every
    entry with the id of [updated] is [updated]. *)
Lemma replaceSession_coherent (updated : ChatSession.t) l (st : AppState.t) :
  coherent (setSessions (Some updated) (replaceSession updated l) st).
Proof.
  intros cur s Hcur Hin Hid. simpl in Hcur, Hin. injection Hcur as <-.
  unfold replaceSession in Hin. apply list_elem_of_fmap in Hin as (x & -> & _).
  destruct (bool_decide (ChatSession.id x = ChatSession.id updated)) eqn:Hx; [reflexivity|].
  apply bool_decide_eq_false in Hx. contradiction.
Qed.

Lemma addModelResponse_coherent m mid r now st :
  coherent st → coherent (addModelResponse m mid r now st).
Proof.
  intros Hst. unfold addModelResponse.
  destruct (currentSession st); [apply replaceSession_coherent | exact Hst].
Qed.

Lemma updateModelResponse_coherent m mid u now st :
  coherent st → coherent (updateModelResponse m mid u now st).
Proof.
  intros Hst. unfold updateModelResponse.
  destruct (currentSession st) as [cur|]; [|exact Hst].
  destruct (ChatSession.slot m mid cur); [apply replaceSession_coherent | exact Hst].
Qed.

Lemma appendToModelResponse_coherent m mid c now st :
  coherent st → coherent (appendToModelResponse m mid c now st).
Proof.
  intros Hst. unfold appendToModelResponse.
  destruct (currentSession st) as [cur|]; [|exact Hst].
  destruct (ChatSession.slot m mid cur); [apply replaceSession_coherent | exact Hst].
Qed.

Lemma updateSessionTitle_coherent sid title tl tc st :
  (∀ i, tl i = tc) → coherent st → coherent (updateSessionTitle sid title tl tc st).
Proof.
  intros Hclock Hst cur' s' Hcur' Hin Hid.
  unfold updateSessionTitle in Hcur', Hin. simpl in Hcur', Hin.
  apply list_elem_of_lookup in Hin as [i Hi].
  rewrite list_lookup_imap in Hi.
  destruct (sessions st !! i) as [s|] eqn:Hs; [|discriminate].
  simpl in Hi. injection Hi as <-.
  assert (Hsin : s ∈ sessions st) by (eapply list_elem_of_lookup_2; eassumption).
  destruct (currentSession st) as [cur|] eqn:Hcur; [|discriminate].
  destruct (bool_decide (ChatSession.id cur = sid)) eqn:Hc;
    injection Hcur' as <-;
    destruct (bool_decide (ChatSession.id s = sid)) eqn:Hsid;
    [ apply bool_decide_eq_true in Hc, Hsid
    | apply bool_decide_eq_true in Hc; apply bool_decide_eq_false in Hsid
    | apply bool_decide_eq_false in Hc; apply bool_decide_eq_true in Hsid
    | apply bool_decide_eq_false in Hc, Hsid ]; simpl in Hid.
  - rewrite (Hst cur s Hcur Hsin) by congruence. now rewrite Hclock.
  - congruence.
  - congruence.
  - now apply (Hst cur s).
Qed.

Lemma addMessage_coherent content images env st :
  (∀ i, tList env i = tCurrent env) → coherent st →
  coherent (addMessage content images env st).2.
Proof.
  intros Hclock Hst. unfold addMessage.
  destruct (currentSession st) as [cur|] eqn:Hcur.
  - apply replaceSession_coherent.
  - unfold createNewSession.
    cbn [currentSession sessions setSessions snd].
    intros cur' s' Hcur' Hin Hid.
    cbn [currentSession sessions setSessions] in Hcur', Hin.
    injection Hcur' as <-.
    apply list_elem_of_lookup in Hin as [i Hi].
    rewrite list_lookup_imap in Hi.
    match type of Hi with
    | (_ <$> ?l !! i) = _ => destruct (l !! i) as [s|]; [|discriminate]
    end.
    cbn [fmap option_fmap option_map] in Hi. injection Hi as <-.
    revert Hid.
    match goal with
    | |- context [bool_decide ?P] => destruct (bool_decide P) eqn:Hs
    end; intros Hid.
    + now rewrite Hclock.
    + apply bool_decide_eq_false in Hs. contradiction.
Qed.

(** Lookups by id through a map that keeps the ids. *)
Lemma findSession_imap (g : nat → ChatSession.t → ChatSession.t) k :
  (∀ i s, ChatSession.id (g i s) = ChatSession.id s) →
  ∀ l s', findSession k (imap g l) = Some s' →
          ∃ i s, findSession k l = Some s ∧ s' = g i s.
Proof.
  intros Hid l. revert g Hid.
  induction l as [|x l IH]; intros g Hid s'; [discriminate|].
  rewrite imap_cons. unfold findSession. cbn [List.find]. rewrite Hid.
  destruct (bool_decide (ChatSession.id x = k)).
  - intros H. injection H as <-. now exists 0%nat, x.
  - intros H. destruct (IH (g ∘ S) (fun i s => Hid (S i) s) s' H) as (i & s & Hs & ->).
    now exists (S i), s.
Qed.

Lemma coherent_coherentEntry st : coherent st → coherentEntry st.
Proof.
  intros Hst cur s Hcur Hfind. apply (Hst cur s Hcur).
  - apply find_some in Hfind as [Hin _]. now apply list_elem_of_In.
  - now apply findSession_id in Hfind.
Qed.

Lemma updateSessionTitle_coherentEntry sid title tl tc st :
  (∀ i, tl i = tc) → coherentEntry st →
  coherentEntry (updateSessionTitle sid title tl tc st).
Proof.
  intros Hclock Hst cur' s' Hcur' Hfind.
  unfold updateSessionTitle in Hcur', Hfind. simpl in Hcur', Hfind.
  apply findSession_imap in Hfind as (i & s & Hs & ->);
    [|intros j x; now destruct (bool_decide (ChatSession.id x = sid))].
  destruct (currentSession st) as [cur|] eqn:Hcur; [|discriminate].
  destruct (bool_decide (ChatSession.id cur = sid)) eqn:Hc;
    injection Hcur' as <-; simpl in Hs;
    rewrite (Hst cur s Hcur Hs), Hc; [now rewrite Hclock | reflexivity].
Qed.

End Coherence.

(** C9. [addModelResponse], [updateModelResponse],
    [appendToModelResponse] and [addMessage] on an existing session
    build one session object and put it in both places: they keep the
    current session equal to every list entry that carries its id.
    [updateSessionTitle], and [addMessage] when it has to create the
    session, build the list entry and the current session separately,
    each with its own [new Date()]: they keep the invariant when the
    readings are the same instant, and break it as soon as the reading
    for a list entry with the current id differs from the reading for
    the current session, also from a state in which the invariant
    holds. *)
Theorem session_ops_coherence_and_clock_readings (st : AppState.t) :
  (∀ op, match op with
         | SessionOp.UpdateSessionTitle _ _ _ _ => False
         | SessionOp.AddMessage _ _ _ => is_Some (AppState.currentSession st)
         | _ => True
         end →
         SessionOp.coherent st → SessionOp.coherent (SessionOp.apply op st))
  ∧ (∀ op, SessionOp.sameInstant op →
           (SessionOp.coherent st → SessionOp.coherent (SessionOp.apply op st))
           ∧ (SessionOp.coherentEntry st →
              SessionOp.coherentEntry (SessionOp.apply op st)))
  ∧ (∀ sessionId title tList tCurrent cur (i : nat) s,
       AppState.currentSession st = Some cur →
       ChatSession.id cur = sessionId →
       AppState.sessions st !! i = Some s →
       ChatSession.id s = sessionId →
       tList i ≠ tCurrent →
       ¬ SessionOp.coherent (Store.updateSessionTitle sessionId title tList tCurrent st))
  ∧ (∀ content images env,
       AppState.currentSession st = None →
       Store.tList env 0%nat ≠ Store.tCurrent env →
       ¬ SessionOp.coherent (Store.addMessage content images env st).2).
Proof.
  split; [|split; [|split]].
  - intros op Hop Hst. destruct op; simpl in *.
    + destruct Hop as [cur Hcur]. unfold Store.addMessage. rewrite Hcur.
      apply replaceSession_coherent.
    + now apply addModelResponse_coherent.
    + now apply updateModelResponse_coherent.
    + now apply appendToModelResponse_coherent.
    + destruct Hop.
  - intros op Hclock. split; intros Hst; destruct op; simpl in *.
    + now apply addMessage_coherent.
    + now apply addModelResponse_coherent.
    + now apply updateModelResponse_coherent.
    + now apply appendToModelResponse_coherent.
    + now apply updateSessionTitle_coherent.
    + unfold Store.addMessage.
      destruct (AppState.currentSession st) as [cur|] eqn:Hcur.
      * apply coherent_coherentEntry, replaceSession_coherent.
      * apply coherent_coherentEntry.
        pose proof (addMessage_coherent content images env st Hclock) as H.
        unfold Store.addMessage in H. rewrite Hcur in H. apply H.
        intros cur s Hc. congruence.
    + unfold Store.addModelResponse.
      destruct (AppState.currentSession st);
        [apply coherent_coherentEntry, replaceSession_coherent | exact Hst].
    + unfold Store.updateModelResponse.
      destruct (AppState.currentSession st) as [cur|]; [|exact Hst].
      destruct (ChatSession.slot modelId messageId cur);
        [apply coherent_coherentEntry, replaceSession_coherent | exact Hst].
    + unfold Store.appendToModelResponse.
      destruct (AppState.currentSession st) as [cur|]; [|exact Hst].
      destruct (ChatSession.slot modelId messageId cur);
        [apply coherent_coherentEntry, replaceSession_coherent | exact Hst].
    + now apply updateSessionTitle_coherentEntry.
  - intros sessionId title tList tCurrent cur i s Hcur Hid Hi Hsid Hclock Hco.
    apply Hclock.
    assert (Heq : ChatSession.withTitle title (JS.DateObj (tList i)) s
                  = ChatSession.withTitle title (JS.DateObj tCurrent) cur).
    { apply Hco.
      - unfold Store.updateSessionTitle; simpl. rewrite Hcur.
        now rewrite bool_decide_eq_true_2.
      - unfold Store.updateSessionTitle; simpl.
        apply list_elem_of_lookup. exists i.
        rewrite list_lookup_imap, Hi. simpl. now rewrite bool_decide_eq_true_2.
      - simpl. congruence. }
    apply (f_equal ChatSession.updatedAt) in Heq. simpl in Heq. congruence.
  - intros content images env Hcur Hclock Hco. apply Hclock.
    unfold Store.addMessage in Hco. rewrite Hcur in Hco.
    unfold Store.createNewSession in Hco.
    cbn [AppState.currentSession AppState.sessions AppState.setSessions snd imap] in Hco.
    match type of Hco with
    | SessionOp.coherent
        (AppState.setSessions (Some ?c) ((if ?b then ?x else ?y) :: ?l) ?s0) =>
        assert (Heq : x = c)
    end.
    { apply Hco.
      - reflexivity.
      - cbn [AppState.sessions AppState.setSessions].
        rewrite bool_decide_eq_true_2 by reflexivity. apply elem_of_cons. now left.
      - reflexivity. }
    apply (f_equal ChatSession.updatedAt) in Heq. simpl in Heq. congruence.
Qed.

Lemma sample_state_coherent : SessionOp.coherent Sample.state.
Proof.
  intros cur s Hcur Hin Hid. simpl in Hcur, Hin. injection Hcur as <-.
  apply elem_of_cons in Hin as [->|Hin]; [reflexivity|].
  apply list_elem_of_singleton in Hin as ->. discriminate Hid.
Qed.

Lemma session_ops_coherence_and_clock_readings_witness :
  SessionOp.coherent Sample.state
  ∧ SessionOp.coherent
      (SessionOp.apply (SessionOp.UpdateSessionTitle "s1" "Hi" (fun _ => 2000%Z) 2000)
         Sample.state)
  ∧ SessionOp.coherent
      (SessionOp.apply (SessionOp.AppendToModelResponse "deepseek-chat" "m1" "!" 2000)
         Sample.state)
  ∧ ¬ SessionOp.coherent
        (Store.updateSessionTitle "s1" "Hi" (fun _ => 2000%Z) 2001 Sample.state).
Proof.
  destruct (session_ops_coherence_and_clock_readings Sample.state)
    as (Hone & Hsame & Htitle & _).
  split; [exact sample_state_coherent|]. split; [|split].
  - apply (Hsame (SessionOp.UpdateSessionTitle "s1" "Hi" (fun _ => 2000%Z) 2000)).
    + intros i. reflexivity.
    + exact sample_state_coherent.
  - apply (Hone (SessionOp.AppendToModelResponse "deepseek-chat" "m1" "!" 2000)).
    + exact I.
    + exact sample_state_coherent.
  - apply (Htitle "s1" "Hi" (fun _ => 2000%Z) 2001%Z Sample.session 0%nat Sample.session).
    + reflexivity.
    + reflexivity.
    + reflexivity.
    + reflexivity.
    + discriminate.
Defined.

(** C9 as stated fails: [updateSessionTitle] reads the clock once for the
    list entry and once more for [currentSession]. Starting from a state
    in which the current session equals its list entry, readings of 2000
    and 2001 leave two sessions with the same id and different
    [updatedAt]. *)
Lemma updateSessionTitle_two_clock_readings_diverge :
  SessionOp.coherent Sample.state
  ∧ AppState.currentSession
      (Store.updateSessionTitle "s1" "Hi" (fun _ => 2000%Z) 2001 Sample.state)
    = Some Sample.retitledCurrent
  ∧ AppState.sessions
      (Store.updateSessionTitle "s1" "Hi" (fun _ => 2000%Z) 2001 Sample.state)
    = [Sample.retitledList; Sample.other]
  ∧ ChatSession.id Sample.retitledList = ChatSession.id Sample.retitledCurrent
  ∧ Sample.retitledList ≠ Sample.retitledCurrent
  ∧ ¬ SessionOp.coherent
        (SessionOp.apply (SessionOp.UpdateSessionTitle "s1" "Hi" (fun _ => 2000%Z) 2001)
           Sample.state)
  ∧ ¬ SessionOp.coherentEntry
        (SessionOp.apply (SessionOp.UpdateSessionTitle "s1" "Hi" (fun _ => 2000%Z) 2001)
           Sample.state).
Proof.
  assert (Hne : Sample.retitledList ≠ Sample.retitledCurrent).
  { intros H. apply (f_equal ChatSession.updatedAt) in H. discriminate H. }
  split; [exact sample_state_coherent|].
  split; [reflexivity|]. split; [reflexivity|]. split; [reflexivity|].
  split; [exact Hne|].
  split; intros Hco; apply Hne.
  - apply (Hco Sample.retitledCurrent Sample.retitledList).
    + reflexivity.
    + apply elem_of_cons. left. reflexivity.
    + reflexivity.
  - apply (Hco Sample.retitledCurrent Sample.retitledList); reflexivity.
Qed.

(** ** C7: models dropped before dispatch *)

Section Dispatch.
Import App.

Lemma handleSendMessage_models parsePayload reg input env st f :
  handleSendMessage parsePayload reg input env st = Some f →
  models f = dispatched (selectDispatch (AppState.apiKeys st) (AppState.selectedModels st))
  ∧ notified f = alerted (selectDispatch (AppState.apiKeys st) (AppState.selectedModels st))
  ∧ tasks f = map (fun model => modelTask parsePayload reg model
                                  (taskEnv env (ModelConfig.id model)))
                (models f).
Proof.
  unfold handleSendMessage.
  destruct (negb _ && negb _); [discriminate|].
  destruct (AppState.isLoading st); [discriminate|].
  destruct (Store.addMessage _ _ _ _) as [[mid request] st2].
  intros H. injection H as <-. simpl. auto.
Qed.


Lemma taskFetches_unregistered parsePayload reg model env :
  reg (ModelConfig.provider model) = None →
  taskFetches parsePayload reg model env = false.
Proof.
  intros H. unfold taskFetches, Stream.chatSendMessageStream. now rewrite H.
Qed.

End Dispatch.




(** ** C4: failures stay inside their task *)

Section Interleaving.
Context {A : Type} (P : A → Prop) `{∀ x, Decision (P x)}.

(** The calls of one list, picked out of a schedule by a property that
    holds of all of them and of no call of another list. *)
Lemma interleave_filter (lists : list (list A)) (sched : list A) :
  App.Interleave lists sched →
  ∀ (i : nat) (own : list A),
    lists !! i = Some own →
    Forall P own →
    (∀ j other, j ≠ i → lists !! j = Some other → Forall (fun x => ¬ P x) other) →
    filter P sched = own.
Proof.
  induction 1 as [lists Hall | lists k x rest sched Hk _ IH];
    intros i own Hi Hown Hothers.
  - rewrite Forall_lookup in Hall. now rewrite (Hall i own Hi).
  - destruct (decide (k = i)) as [->|Hki].
    + rewrite Hi in Hk. injection Hk as ->.
      apply Forall_cons in Hown as [Hx Hrest].
      rewrite filter_cons_True by exact Hx. f_equal.
      apply (IH i rest).
      * apply list_lookup_insert_eq. now apply lookup_lt_Some in Hi.
      * exact Hrest.
      * intros j other Hj Hlook. rewrite list_lookup_insert_ne in Hlook by done.
        now apply (Hothers j).
    + assert (Hx : ¬ P x).
      { specialize (Hothers k (x :: rest) Hki Hk).
        now apply Forall_cons in Hothers as [Hx _]. }
      rewrite filter_cons_False by exact Hx.
      apply (IH i own).
      * now rewrite list_lookup_insert_ne.
      * exact Hown.
      * intros j other Hj Hlook.
        destruct (decide (j = k)) as [->|Hjk].
        -- rewrite list_lookup_insert_eq in Hlook by (now apply lookup_lt_Some in Hk).
           injection Hlook as <-.
           specialize (Hothers k (x :: rest) Hki Hk).
           now apply Forall_cons in Hothers as [_ Hrest].
        -- rewrite list_lookup_insert_ne in Hlook by done. now apply (Hothers j).
Qed.

End Interleaving.

Section SlotSemantics.
Import AppState Store App.

(** A call acts on the slot of its target as [slotStep] says, leaves the
    other slots of the message alone, and keeps a current session. *)
Lemma call_currentSlot mid c st m :
  is_Some (currentSession st) →
  is_Some (currentSession (call mid c st))
  ∧ currentSlot m mid (call mid c st)
    = if decide (target c = Some m)
      then slotStep c (currentSlot m mid st)
      else currentSlot m mid st.
Proof.
  intros [cur Hcur]. unfold currentSlot.
  destruct c as [m' r now | m' content now | m' u now | sid title tl tc]; simpl.
  - unfold addModelResponse. rewrite Hcur; simpl. split; [done|].
    destruct (decide (Some m' = Some m)) as [Heq|Hne].
    + injection Heq as ->. apply slot_withResponses_putSlot.
    + apply slot_withResponses_putSlot_ne. congruence.
  - unfold appendToModelResponse. rewrite Hcur.
    destruct (ChatSession.slot m' mid cur) as [r|] eqn:Hslot; simpl.
    + split; [done|].
      destruct (decide (Some m' = Some m)) as [Heq|Hne].
      * injection Heq as <-. rewrite Hslot. apply slot_withResponses_putSlot.
      * apply slot_withResponses_putSlot_ne. congruence.
    + rewrite Hcur; simpl. split; [done|].
      destruct (decide (Some m' = Some m)) as [Heq|Hne]; [|reflexivity].
      injection Heq as <-. now rewrite Hslot.
  - unfold updateModelResponse. rewrite Hcur.
    destruct (ChatSession.slot m' mid cur) as [r|] eqn:Hslot; simpl.
    + split; [done|].
      destruct (decide (Some m' = Some m)) as [Heq|Hne].
      * injection Heq as <-. rewrite Hslot. apply slot_withResponses_putSlot.
      * apply slot_withResponses_putSlot_ne. congruence.
    + rewrite Hcur; simpl. split; [done|].
      destruct (decide (Some m' = Some m)) as [Heq|Hne]; [|reflexivity].
      injection Heq as <-. now rewrite Hslot.
  - unfold updateSessionTitle. rewrite Hcur; simpl.
    destruct (bool_decide (ChatSession.id cur = sid)); simpl; split; done.
Qed.

(** The slot of [m] after a schedule depends only on the calls of the
    schedule that target [m]. *)
Lemma runCalls_currentSlot mid m sched st :
  is_Some (currentSession st) →
  currentSlot m mid (runCalls mid sched st)
  = fold_left (fun o c => slotStep c o)
      (filter (fun c => target c = Some m) sched)
      (currentSlot m mid st).
Proof.
  unfold runCalls. revert st.
  induction sched as [|c sched IH]; intros st Hst; simpl; [reflexivity|].
  destruct (call_currentSlot mid c st m Hst) as [Hst' Hslot].
  rewrite (IH _ Hst'), Hslot, filter_cons.
  destruct (decide (target c = Some m)); reflexivity.
Qed.

End SlotSemantics.

Section Tasks.
Import AppState Store App.

Lemma schedule_interleave {A : Type} (order : list nat) :
  ∀ (lists : list (list A)) (sched : list A),
    schedule order lists = Some sched → Interleave lists sched.
Proof.
  induction order as [|i order IH]; intros lists sched; simpl.
  - destruct (forallb _ lists) eqn:Hall; [|discriminate].
    intros H. injection H as <-. apply interleave_done.
    apply Forall_forall. intros t Ht.
    rewrite forallb_forall in Hall. apply list_elem_of_In in Ht.
    specialize (Hall t Ht). now destruct t.
  - destruct (lists !! i) as [[|x rest]|] eqn:Hi; try discriminate.
    destruct (schedule order (<[i:=rest]> lists)) as [sched'|] eqn:Hs; [|discriminate].
    simpl. intros H. injection H as <-.
    eapply interleave_step; [exact Hi|]. now apply IH.
Qed.

Variable parsePayload : string -> option Stream.Payload.
Variable reg : Stream.Registry.

(** The log of a task: the allocation of the slot, the calls for the
    chunks, and the failure update when the streaming call throws. The
    task itself is always fulfilled. *)
Lemma modelTask_log model env :
  (modelTask parsePayload reg model env).1
  = (CallAdd (ModelConfig.id model)
       (ModelResponse.mk (ModelConfig.id model) "" true None None None None
          (JS.DateObj (tSlot env)))
       (tAdd env)
     :: chunkCalls (ModelConfig.id model) env (streamCall parsePayload reg model env).1
     ++ match (streamCall parsePayload reg model env).2 with
        | inl e => [CallUpdate (ModelConfig.id model) (failure e) (tError env)]
        | inr _ => []
        end)%list
  ∧ (modelTask parsePayload reg model env).2 = inr tt.
Proof.
  unfold modelTask.
  destruct (streamCall parsePayload reg model env) as [chunks [e|resp]]; simpl.
  - done.
  - now rewrite app_nil_r.
Qed.

Lemma onChunk_target modelId ui clock chunk :
  target (onChunk modelId ui clock chunk) = Some modelId.
Proof. unfold onChunk. now destruct (Stream.finished chunk). Qed.

Lemma modelTask_targets model env :
  Forall (fun c => target c = Some (ModelConfig.id model))
    (modelTask parsePayload reg model env).1.
Proof.
  rewrite (proj1 (modelTask_log model env)).
  apply Forall_cons. split; [reflexivity|].
  apply Forall_app. split.
  - unfold chunkCalls. apply Forall_lookup. intros i c Hc.
    rewrite list_lookup_imap in Hc.
    destruct (_ !! i); [|discriminate]. injection Hc as <-. apply onChunk_target.
  - destruct (streamCall parsePayload reg model env).2; repeat constructor.
Qed.

(** The calls for the chunks keep the slot, keep its [error] field,
    and clear [loading] as soon as one chunk is a terminal one. *)
Lemma fold_chunkCalls modelId ui chunks :
  ∀ (clock : nat → Z * Z) (r : ModelResponse.t),
  ∃ r', fold_left (fun o c => slotStep c o)
          (imap (fun i chunk => onChunk modelId ui (clock i) chunk) chunks) (Some r)
        = Some r'
        ∧ ModelResponse.error r' = ModelResponse.error r
        ∧ (ModelResponse.loading r = false ∨ existsb Stream.finished chunks = true →
           ModelResponse.loading r' = false).
Proof.
  induction chunks as [|chunk chunks IH]; intros clock r.
  - exists r. simpl. repeat split. intros [H|H]; [exact H | discriminate].
  - rewrite imap_cons. cbn [fold_left existsb]. unfold onChunk at 2.
    destruct (Stream.finished chunk) eqn:Hfin; cbn [slotStep fmap option_fmap option_map].
    + destruct (IH (clock ∘ S) (ModelResponse.merge r
          (ModelResponse.mkPartial None None (Some false) None
             (Some (inject_Z ((clock 0%nat).1 - ui)))
             (Some (JS.or_number (Stream.tokens chunk) 0))
             (Some (JS.or_number (Stream.cost chunk) 0)) None)))
        as (r' & Hfold & Herr & Hload).
      exists r'. split; [exact Hfold|]. split; [exact Herr|].
      intros _. apply Hload. now left.
    + destruct (IH (clock ∘ S) (ModelResponse.append r (Stream.content chunk)))
        as (r' & Hfold & Herr & Hload).
      exists r'. split; [exact Hfold|]. split; [exact Herr|].
      intros [H|H]; apply Hload; [now left | now right].
Qed.

End Tasks.

Section FanOut.
Import AppState Store App.
Variable parsePayload : string -> option Stream.Payload.
Variable reg : Stream.Registry.

Lemma available_model_ids_distinct : NoDup (map ModelConfig.id AVAILABLE_MODELS).
Proof. apply (bool_decide_unpack _). vm_compute. exact I. Qed.

Lemma NoDup_map_filter {A B : Type} (g : A → B) (P : A → Prop) `{∀ x, Decision (P x)}
    (l : list A) :
  NoDup (map g l) → NoDup (map g (filter P l)).
Proof.
  induction l as [|x l IH]; simpl; intros Hnd; [constructor|].
  apply NoDup_cons in Hnd as [Hx Hl].
  rewrite filter_cons. destruct (decide (P x)); [|now apply IH].
  simpl. apply NoDup_cons. split; [|now apply IH].
  intros Hin. apply Hx.
  apply list_elem_of_In, in_map_iff in Hin as (y & Hy & Hin).
  apply list_elem_of_In, in_map_iff. exists y. split; [exact Hy|].
  apply list_elem_of_In. apply list_elem_of_In in Hin.
  now apply list_elem_of_filter in Hin as [_ Hin].
Qed.

Lemma filter_all {A : Type} (P : A → Prop) `{∀ x, Decision (P x)} (l : list A) :
  Forall P l → filter P l = l.
Proof.
  induction 1 as [|x l Hx _ IH]; [reflexivity|].
  rewrite filter_cons_True by exact Hx. now rewrite IH.
Qed.

Lemma dispatched_ids_distinct apiKeys selected :
  NoDup (map ModelConfig.id (dispatched (selectDispatch apiKeys selected))).
Proof.
  unfold selectDispatch, activeModels.
  destruct (_ && _); simpl.
  - apply NoDup_map_filter, NoDup_map_filter, available_model_ids_distinct.
  - apply NoDup_map_filter, available_model_ids_distinct.
Qed.

(** Past the guards there is a current session when the tasks start,
    and the calls of the title request target no slot. *)
Lemma handleSendMessage_started input env st f :
  handleSendMessage parsePayload reg input env st = Some f →
  is_Some (currentSession (started f))
  ∧ Forall (fun c => target c = None) (titleCalls f).
Proof.
  unfold handleSendMessage.
  destruct (negb _ && negb _); [discriminate|].
  destruct (isLoading st); [discriminate|].
  set (st1 := match currentSession st with
              | Some _ => st
              | None => createNewSession (newId env) (tCreated env) (tUpdated env) st
              end).
  assert (Hcur : is_Some (currentSession st1)).
  { subst st1. destruct (currentSession st) eqn:E; [now rewrite E | simpl; eauto]. }
  destruct Hcur as [cur Hcur]. unfold addMessage. rewrite Hcur.
  intros H. injection H as <-. simpl. split; [eauto|].
  match goal with |- context [match ?r with _ => _ end] => destruct r as [[sid c]|] end;
    [|constructor].
  destruct (titleResult env) as [[[t tl] tc]|]; repeat constructor.
Qed.

Lemma tasks_lookup input env st f (i : nat) model :
  handleSendMessage parsePayload reg input env st = Some f →
  models f !! i = Some model →
  (titleCalls f :: map fst (tasks f)) !! S i
  = Some (modelTask parsePayload reg model (taskEnv env (ModelConfig.id model))).1.
Proof.
  intros Hsend Hi.
  destruct (handleSendMessage_models _ _ _ _ _ _ Hsend) as (_ & _ & Htasks).
  rewrite Htasks. simpl.
  change (map fst (map ?g ?l)) with (fst <$> (g <$> l)).
  now rewrite !list_lookup_fmap, Hi.
Qed.

(** In every schedule, the calls that target the model of a task are
    the calls of that task, in its order. *)
Lemma own_calls_of_schedule input env st f sched model :
  handleSendMessage parsePayload reg input env st = Some f →
  Interleave (titleCalls f :: map fst (tasks f)) sched →
  In model (models f) →
  filter (fun c => target c = Some (ModelConfig.id model)) sched
  = (modelTask parsePayload reg model (taskEnv env (ModelConfig.id model))).1.
Proof.
  intros Hsend Hsched Hin.
  apply list_elem_of_In, list_elem_of_lookup in Hin as [i Hi].
  apply (interleave_filter _ _ _ Hsched (S i)).
  - now apply (tasks_lookup input env st).
  - apply modelTask_targets.
  - intros [|j] other Hj Hother.
    + simpl in Hother. injection Hother as <-.
      destruct (handleSendMessage_started _ _ _ _ Hsend) as [_ Htitle].
      eapply Forall_impl; [exact Htitle|]. intros c Hc. now rewrite Hc.
    + assert (Hji : j ≠ i) by congruence.
      destruct (models f !! j) as [model'|] eqn:Hj'.
      * rewrite (tasks_lookup input env st f j model' Hsend Hj') in Hother.
        injection Hother as <-.
        eapply Forall_impl; [apply modelTask_targets|].
        intros c Hc. rewrite Hc. intros Heq. injection Heq as Heq.
        destruct (handleSendMessage_models _ _ _ _ _ _ Hsend) as (Hmodels & _ & _).
        pose proof (dispatched_ids_distinct (apiKeys st) (selectedModels st)) as Hnd.
        rewrite <- Hmodels in Hnd.
        apply Hji. eapply (NoDup_lookup _ _ _ (ModelConfig.id model) Hnd).
        -- change (map ?g ?l) with (g <$> l). rewrite list_lookup_fmap, Hj'.
           simpl. now rewrite Heq.
        -- change (map ?g ?l) with (g <$> l). now rewrite list_lookup_fmap, Hi.
      * destruct (handleSendMessage_models _ _ _ _ _ _ Hsend) as (_ & _ & Htasks).
        simpl in Hother. rewrite Htasks in Hother.
        change (map fst (map ?g ?l)) with (fst <$> (g <$> l)) in Hother.
        rewrite !list_lookup_fmap, Hj' in Hother. discriminate.
Qed.

End FanOut.

Section SiblingSlot.
Import AppState Store App.
Variable parsePayload : string -> option Stream.Payload.
Variable reg : Stream.Registry.

(** The calls for the chunks leave [loading] as it was unless one of
    the chunks is a terminal one. *)
Lemma fold_chunkCalls_loading modelId ui chunks :
  ∀ (clock : nat → Z * Z) (r : ModelResponse.t),
  ∃ r', fold_left (fun o c => slotStep c o)
          (imap (fun i chunk => onChunk modelId ui (clock i) chunk) chunks) (Some r)
        = Some r'
        ∧ ModelResponse.error r' = ModelResponse.error r
        ∧ ModelResponse.loading r'
          = (if existsb Stream.finished chunks then false else ModelResponse.loading r).
Proof.
  induction chunks as [|chunk chunks IH]; intros clock r.
  - exists r. simpl. repeat split.
  - rewrite imap_cons. cbn [fold_left existsb]. unfold onChunk at 2.
    destruct (Stream.finished chunk) eqn:Hfin; cbn [slotStep fmap option_fmap option_map orb].
    + destruct (IH (clock ∘ S) (ModelResponse.merge r
          (ModelResponse.mkPartial None None (Some false) None
             (Some (inject_Z ((clock 0%nat).1 - ui)))
             (Some (JS.or_number (Stream.tokens chunk) 0))
             (Some (JS.or_number (Stream.cost chunk) 0)) None)))
        as (r' & Hfold & Herr & Hload).
      exists r'. split; [exact Hfold|]. split; [exact Herr|].
      rewrite Hload. simpl. now destruct (existsb Stream.finished chunks).
    + destruct (IH (clock ∘ S) (ModelResponse.append r (Stream.content chunk)))
        as (r' & Hfold & Herr & Hload).
      exists r'. split; [exact Hfold|]. split; [exact Herr | exact Hload].
Qed.

(** What the calls of one task make of its slot: the outcome of a call
    that throws, and of a call that resolves. *)
Lemma own_calls_final_slot model env (o : option ModelResponse.t) :
  ∃ r, fold_left (fun o c => slotStep c o)
         (modelTask parsePayload reg model env).1 o = Some r
       ∧ (∀ e, (streamCall parsePayload reg model env).2 = inl e →
            ModelResponse.loading r = false
            ∧ ModelResponse.error r = Some (errorText e)
            ∧ ModelResponse.content r = "")
       ∧ (∀ resp, (streamCall parsePayload reg model env).2 = inr resp →
            ModelResponse.error r = None
            ∧ ModelResponse.loading r
              = negb (existsb Stream.finished (streamCall parsePayload reg model env).1)).
Proof.
  rewrite (proj1 (modelTask_log parsePayload reg model env)).
  cbn [fold_left slotStep]. rewrite fold_left_app. unfold chunkCalls.
  destruct (fold_chunkCalls_loading (ModelConfig.id model) (uiStart env)
              (streamCall parsePayload reg model env).1 (chunkClock env)
              (ModelResponse.mk (ModelConfig.id model) "" true None None None None
                 (JS.DateObj (tSlot env))))
    as (r' & -> & Herr & Hload).
  destruct (streamCall parsePayload reg model env).2 as [e|resp]; simpl.
  - eexists. split; [reflexivity|]. split.
    + intros e' He'. injection He' as <-. simpl. auto.
    + intros resp H. discriminate H.
  - exists r'. split; [reflexivity|]. split.
    + intros e H. discriminate H.
    + intros _ _. split; [exact Herr|]. rewrite Hload. simpl.
      now destruct (existsb Stream.finished (streamCall parsePayload reg model env).1).
Qed.

(** A body without sentinel line, read to its end by an adapter that
    signals nothing after its loop, delivers no terminal chunk. *)
Lemma silent_stream_has_no_terminal_chunk model env key reads :
  reg (ModelConfig.provider model) = Some key →
  Stream.emitsAfterLoop (ModelConfig.provider model) = false →
  net env = Stream.FetchOk reads None →
  Forall (fun value => Stream.hasDoneLine value = false) reads →
  (∃ resp, (streamCall parsePayload reg model env).2 = inr resp)
  ∧ existsb Stream.finished (streamCall parsePayload reg model env).1 = false.
Proof.
  intros Hreg Hsilent Hnet Hreads.
  unfold streamCall, Stream.chatSendMessageStream. rewrite Hreg, Hnet. cbn [fst].
  split; [unfold Stream.sendMessageStream; eauto|].
  pose proof (sendMessageStream_terminal_count parsePayload (ModelConfig.provider model)
                (ModelConfig.modelId model) (adapterStart env) (adapterEnd env) reads)
    as Hcount.
  assert (Hnone : List.filter Stream.hasDoneLine reads = []).
  { clear -Hreads. induction Hreads as [|value reads Hvalue _ IH]; simpl; [reflexivity|].
    now rewrite Hvalue. }
  rewrite Hsilent, Hnone in Hcount.
  apply length_zero_iff_nil in Hcount.
  destruct (existsb Stream.finished _) eqn:Hex; [|reflexivity].
  apply existsb_exists in Hex as (chunk & Hin & Hfin).
  match type of Hcount with
  | Stream.terminals ?chunks = [] =>
      assert (Hin' : In chunk (Stream.terminals chunks))
        by (apply List.filter_In; split; [exact Hin | exact Hfin])
  end.
  rewrite Hcount in Hin'. destruct Hin'.
Qed.

End SiblingSlot.

(** C4. Take a send that gets past its guards and any completion of
    it, that is any interleaving of the store calls of its per-model
    tasks (and of the title request) followed by [setLoading(false)].
    Every task promise is fulfilled, so nothing is thrown out of the
    fan-out, and [isLoading] is false at the end. For every dispatched
    model the slot at the end is the slot that the calls of its own task
    alone produce: the slot of a model whose streaming call throws ends
    with [loading = false], an empty content and the error message; the
    slot of a model whose call resolves ends without error, and with
    [loading = false] exactly when a terminal chunk was delivered. The
    Aliyun and Volcengine adapters deliver none for a body that ends
    without a sentinel line: the slot of such a sibling stays at
    [loading = true], although its task has settled and the fan-out has
    completed. *)
Theorem fanout_sibling_without_sentinel_stays_loading
    (parsePayload : string -> option Stream.Payload) (reg : Stream.Registry)
    (input : App.SendInput) (env : App.SendEnv) (st : AppState.t)
    (f : App.FanOut) (final : AppState.t) :
  App.handleSendMessage parsePayload reg input env st = Some f →
  App.completes f final →
  Forall (fun task : App.Task unit => task.2 = inr tt) (App.tasks f)
  ∧ AppState.isLoading final = false
  ∧ ∀ model, In model (App.models f) →
      Store.currentSlot (ModelConfig.id model) (App.userMessageId f) final
      = Store.currentSlot (ModelConfig.id model) (App.userMessageId f)
          (App.runCalls (App.userMessageId f)
             (App.modelTask parsePayload reg model
                (App.taskEnv env (ModelConfig.id model))).1
             (App.started f))
      ∧ ∃ r, Store.currentSlot (ModelConfig.id model) (App.userMessageId f) final = Some r
          ∧ (∀ e, (App.streamCall parsePayload reg model
                     (App.taskEnv env (ModelConfig.id model))).2 = inl e →
               ModelResponse.loading r = false
               ∧ ModelResponse.error r = Some (App.errorText e)
               ∧ ModelResponse.content r = "")
          ∧ (∀ resp, (App.streamCall parsePayload reg model
                        (App.taskEnv env (ModelConfig.id model))).2 = inr resp →
               ModelResponse.error r = None
               ∧ ModelResponse.loading r
                 = negb (existsb Stream.finished
                           (App.streamCall parsePayload reg model
                              (App.taskEnv env (ModelConfig.id model))).1))
          ∧ (∀ key reads,
               reg (ModelConfig.provider model) = Some key →
               Stream.emitsAfterLoop (ModelConfig.provider model) = false →
               App.net (App.taskEnv env (ModelConfig.id model))
               = Stream.FetchOk reads None →
               Forall (fun value => Stream.hasDoneLine value = false) reads →
               ModelResponse.loading r = true ∧ ModelResponse.error r = None).
Proof.
  intros Hsend (sched & Hsched & ->).
  destruct (handleSendMessage_models _ _ _ _ _ _ Hsend) as (_ & _ & Htasks).
  destruct (handleSendMessage_started _ _ _ _ _ _ Hsend) as [Hcur _].
  split; [|split; [reflexivity|]].
  - rewrite Htasks. apply Forall_forall. intros task Hin.
    apply list_elem_of_In, in_map_iff in Hin as (model & <- & _).
    apply modelTask_log.
  - intros model Hin.
    assert (Hfinal :
      Store.currentSlot (ModelConfig.id model) (App.userMessageId f)
        (Store.setLoading false (App.runCalls (App.userMessageId f) sched (App.started f)))
      = fold_left (fun o c => App.slotStep c o)
          (App.modelTask parsePayload reg model (App.taskEnv env (ModelConfig.id model))).1
          (Store.currentSlot (ModelConfig.id model) (App.userMessageId f) (App.started f))).
    { change (Store.currentSlot ?m ?mid (Store.setLoading false ?s))
        with (Store.currentSlot m mid s).
      rewrite runCalls_currentSlot by exact Hcur.
      now rewrite (own_calls_of_schedule parsePayload reg input env st f sched model). }
    split.
    + rewrite Hfinal, runCalls_currentSlot by exact Hcur.
      rewrite filter_all; [reflexivity | apply modelTask_targets].
    + rewrite Hfinal.
      destruct (own_calls_final_slot parsePayload reg model
                  (App.taskEnv env (ModelConfig.id model))
                  (Store.currentSlot (ModelConfig.id model) (App.userMessageId f)
                     (App.started f)))
        as (r & Hr & Hthrow & Hresolve).
      exists r. split; [exact Hr|]. split; [exact Hthrow|]. split; [exact Hresolve|].
      intros key reads Hreg Hsilent Hnet Hreads.
      destruct (silent_stream_has_no_terminal_chunk parsePayload reg model
                  (App.taskEnv env (ModelConfig.id model)) key reads
                  Hreg Hsilent Hnet Hreads) as ((resp & Hresp) & Hnone).
      destruct (Hresolve resp Hresp) as (Herr & Hload).
      rewrite Hnone in Hload. now split.
Qed.

Lemma fanout_sibling_without_sentinel_stays_loading_witness :
  ∃ f final,
    Fixtures.silentFanOut = Some f
    ∧ Fixtures.silentFinal = Some final
    ∧ App.completes f final
    ∧ Forall (fun task : App.Task unit => task.2 = inr tt) (App.tasks f)
    ∧ AppState.isLoading final = false
    ∧ (∃ r, Store.currentSlot "deepseek-chat" "m2" final = Some r
            ∧ ModelResponse.loading r = false
            ∧ ModelResponse.error r
              = Some "DeepSeek Stream API错误: HTTP 500: Internal Server Error")
    ∧ (∃ r, Store.currentSlot "qwen-turbo" "m2" final = Some r
            ∧ ModelResponse.loading r = true
            ∧ ModelResponse.error r = None).
Proof.
  destruct Fixtures.silentFanOut as [f|] eqn:Hf; [|vm_compute in Hf; discriminate Hf].
  destruct Fixtures.silentFinal as [final|] eqn:Hfinal;
    [|vm_compute in Hfinal; discriminate Hfinal].
  assert (Hdone : App.completes f final).
  { unfold Fixtures.silentFinal in Hfinal. rewrite Hf in Hfinal.
    destruct (App.schedule Fixtures.silentOrder _) as [sched|] eqn:Hsched; [|discriminate].
    injection Hfinal as <-. exists sched. split; [|reflexivity].
    now apply schedule_interleave in Hsched. }
  destruct (fanout_sibling_without_sentinel_stays_loading Sample.echoPayload Sample.registry
              Sample.sendInput Fixtures.silentSendEnv Sample.sendState f final Hf Hdone)
    as (Hfulfilled & Hloading & Hslots).
  assert (Hmodels : map ModelConfig.id (App.models f)
                    = ["deepseek-chat"; "qwen-turbo"; "moonshot-v1-8k"]).
  { unfold Fixtures.silentFanOut in Hf. vm_compute in Hf. injection Hf as <-. reflexivity. }
  assert (Hid : App.userMessageId f = "m2").
  { unfold Fixtures.silentFanOut in Hf. vm_compute in Hf. injection Hf as <-. reflexivity. }
  exists f, final. repeat (split; [assumption || reflexivity|]).
  destruct (App.models f) as [|a [|b [|c [|d l]]]] eqn:Hl; try discriminate Hmodels.
  injection Hmodels as Ha Hb Hc.
  split.
  - destruct (Hslots a) as (_ & r & Hr & Hthrow & _); [simpl; tauto|].
    rewrite Ha, Hid in Hr. exists r. split; [exact Hr|].
    assert (He : (App.streamCall Sample.echoPayload Sample.registry a
                    (App.taskEnv Fixtures.silentSendEnv (ModelConfig.id a))).2
                 = inl (JS.ErrorObj
                          "DeepSeek Stream API错误: HTTP 500: Internal Server Error")).
    { rewrite Ha. unfold App.streamCall, Stream.chatSendMessageStream.
      assert (Hp : ModelConfig.provider a = deepseek).
      { unfold Fixtures.silentFanOut in Hf. vm_compute in Hf. injection Hf as <-.
        injection Hl as <- _ _. reflexivity. }
      rewrite Hp. reflexivity. }
    destruct (Hthrow _ He) as (H1 & H2 & _). split; [exact H1 | exact H2].
  - destruct (Hslots b) as (_ & r & Hr & _ & _ & Hsilent); [simpl; tauto|].
    rewrite Hb, Hid in Hr. exists r. split; [exact Hr|].
    assert (Hp : ModelConfig.provider b = aliyun).
    { unfold Fixtures.silentFanOut in Hf. vm_compute in Hf. injection Hf as <-.
      injection Hl as _ <- _. reflexivity. }
    apply (Hsilent "sk-b" Fixtures.silentBody).
    + rewrite Hp. reflexivity.
    + rewrite Hp. reflexivity.
    + rewrite Hb. reflexivity.
    + repeat constructor.
Defined.

(** ** C6: export followed by import *)

Section ReadBack.
Import JSON.
Variable toISOString : Z -> string.

Lemma each_map {A : Type} (enc : A → value) (dec : value → option A) (rl : A → A)
    (l : list A) :
  (∀ a, dec (enc a) = Some (rl a)) → each dec (map enc l) = Some (map rl l).
Proof.
  intros Hdec. induction l as [|a l IH]; simpl; [reflexivity|].
  now rewrite Hdec, IH.
Qed.

Lemma eachField_map {A : Type} (enc : A → value) (dec : value → option A) (rl : A → A)
    (l : list (string * A)) :
  (∀ a, dec (enc a) = Some (rl a)) →
  eachField dec (map (fun kv => (kv.1, enc kv.2)) l)
  = Some (prod_map id rl <$> l).
Proof.
  intros Hdec. induction l as [|[k a] l IH]; simpl; [reflexivity|].
  now rewrite Hdec, IH.
Qed.

Lemma asDict_dict {A : Type} (enc : A → value) (dec : value → option A) (rl : A → A)
    (m : gmap string A) :
  (∀ a, dec (enc a) = Some (rl a)) → asDict dec (dict enc m) = Some (rl <$> m).
Proof.
  intros Hdec. unfold asDict, dict.
  rewrite (eachField_map enc dec rl _ Hdec). simpl. f_equal.
  rewrite list_to_map_fmap. now rewrite list_to_map_to_list.
Qed.

Lemma asStrings_strings (l : list string) : asStrings (strings l) = Some l.
Proof.
  unfold asStrings, strings.
  rewrite (each_map Str asStr id l) by reflexivity. now rewrite map_id.
Qed.

Lemma role_of_name_role_name (r : Role) : role_of_name (role_name r) = Some r.
Proof. now destruct r. Qed.

Lemma provider_of_name_provider_name (p : AIProvider) :
  provider_of_name (provider_name p) = Some p.
Proof. now destruct p. Qed.

Lemma asDate_date (d : JS.DateVal) : asDate (date toISOString d) = Some (reloadDate toISOString d).
Proof. now destruct d. Qed.

Lemma toMessage_ofMessage (m : Message.t) :
  toMessage (ofMessage toISOString m) = Some (reloadMessage toISOString m).
Proof.
  destruct m as [mid role content timestamp images].
  unfold toMessage, ofMessage, reloadMessage, required, optional; simpl.
  rewrite role_of_name_role_name, asDate_date; simpl.
  destruct images as [l|]; simpl; [|reflexivity].
  rewrite (each_map Str asStr id l) by reflexivity. now rewrite map_id.
Qed.

Lemma toResponse_ofResponse (r : ModelResponse.t) :
  toResponse (ofResponse toISOString r) = Some (reloadResponse toISOString r).
Proof.
  destruct r as [modelId content loading error responseTime tokens cost timestamp].
  unfold toResponse, ofResponse, reloadResponse, required, optional; simpl.
  rewrite asDate_date.
  destruct error, responseTime, tokens, cost; reflexivity.
Qed.

Lemma toSession_ofSession (s : ChatSession.t) :
  toSession (ofSession toISOString s) = Some (reloadSession toISOString s).
Proof.
  destruct s as [sid title systemPrompt selectedModels messages responses
                 createdAt updatedAt model provider tokenCount cost temperature maxTokens].
  unfold toSession, ofSession, reloadSession, required, optional.
  assert (Hmessages :
    asMessages (Arr (map (ofMessage toISOString) messages))
    = Some (map (reloadMessage toISOString) messages)).
  { apply each_map, toMessage_ofMessage. }
  assert (Hresponses :
    asDict (asDict toResponse) (dict (dict (ofResponse toISOString)) responses)
    = Some ((fun byMessage : gmap string ModelResponse.t =>
               reloadResponse toISOString <$> byMessage) <$> responses)).
  { apply asDict_dict. intros byMessage. apply asDict_dict, toResponse_ofResponse. }
  destruct title as [t|];
    cbn [getField List.find fst snd app String.eqb Ascii.eqb Bool.eqb fmap option_fmap
         option_map mbind option_bind optField
         ChatSession.id ChatSession.title ChatSession.systemPrompt
         ChatSession.selectedModels ChatSession.messages ChatSession.responses
         ChatSession.createdAt ChatSession.updatedAt ChatSession.model ChatSession.provider
         ChatSession.tokenCount ChatSession.cost ChatSession.temperature
         ChatSession.maxTokens asStr asNum];
    rewrite asStrings_strings, Hmessages, Hresponses, !asDate_date,
      provider_of_name_provider_name;
    reflexivity.
Qed.

Lemma accepts_ofSession (s : ChatSession.t) :
  accepts (ofSession toISOString s)
  = JS.truthy_string (ChatSession.id s)
    && match ChatSession.title s with
       | Some t => JS.truthy_string t
       | None => false
       end.
Proof.
  destruct s as [sid title systemPrompt selectedModels messages responses
                 createdAt updatedAt model provider tokenCount cost temperature maxTokens].
  unfold accepts, ofSession, prop. simpl.
  destruct title as [t|]; simpl.
  - destruct (JS.truthy_string sid), (JS.truthy_string t); reflexivity.
  - destruct (JS.truthy_string sid); reflexivity.
Qed.

End ReadBack.

Section Transfer.
Import JSON Transfer.
Variable toISOString : Z -> string.
Variable JSON_stringify : JSON.value -> string.
Variable JSON_parse : string -> option JSON.value.

(** A session that went through JSON once goes through unchanged. *)
Lemma reloadDate_idempotent d :
  reloadDate toISOString (reloadDate toISOString d) = reloadDate toISOString d.
Proof. now destruct d. Qed.

Lemma reloadSession_idempotent s :
  reloadSession toISOString (reloadSession toISOString s) = reloadSession toISOString s.
Proof.
  unfold reloadSession; simpl. f_equal.
  - rewrite map_map. apply map_ext. intros m. unfold reloadMessage; simpl.
    now rewrite reloadDate_idempotent.
  - rewrite <- map_fmap_compose. apply map_fmap_ext. intros k byMessage _. simpl.
    rewrite <- map_fmap_compose. apply map_fmap_ext. intros k' r _. simpl.
    unfold reloadResponse; simpl. now rewrite reloadDate_idempotent.
  - apply reloadDate_idempotent.
  - apply reloadDate_idempotent.
Qed.

Lemma importSession_rejects data st :
  returned (importSession JSON_parse data st) = false
  ↔ match JSON_parse data with
    | None => True
    | Some v =>
        v = Null
        ∨ truthy (prop "id" v) = false
        ∨ truthy (prop "title" v) = false
        ∨ isArray (prop "messages" v) = false
    end.
Proof.
  unfold importSession. destruct (JSON_parse data) as [v|]; [|done].
  assert (Hacc : accepts v = false
                 ↔ v = Null
                   ∨ truthy (prop "id" v) = false
                   ∨ truthy (prop "title" v) = false
                   ∨ isArray (prop "messages" v) = false).
  { destruct v; [split; [now left | intros _; reflexivity] | ..];
      cbv beta iota delta [accepts];
      match goal with
      | |- context [prop "id" ?x] =>
          generalize (truthy (prop "id" x)), (truthy (prop "title" x)),
            (isArray (prop "messages" x))
      end;
      intros [] [] []; cbn [negb orb];
      (split; [ intros H; try discriminate H; auto
              | intros [H|[H|[H|H]]]; try discriminate H; reflexivity ]). }
  destruct (accepts v).
  - assert (Hret : returned
               match toSession v with
               | Some session =>
                   Added (AppState.setSessionList (session :: AppState.sessions st) st)
               | None => AddedUntyped v
               end = true) by now destruct (toSession v).
    rewrite Hret. split; [discriminate|].
    intros H. now apply Hacc in H.
  - split; [|reflexivity]. intros _. now apply Hacc.
Qed.

Lemma import_of_export sessionId st s :
  Store.findSession sessionId (AppState.sessions st) = Some s →
  JSON_parse (JSON_stringify (ofSession toISOString s)) = Some (ofSession toISOString s) →
  importSession JSON_parse (exportSession toISOString JSON_stringify sessionId st) st
  = if JS.truthy_string (ChatSession.id s)
       && match ChatSession.title s with
          | Some t => JS.truthy_string t
          | None => false
          end
    then Added (AppState.setSessionList
                  (reloadSession toISOString s :: AppState.sessions st) st)
    else Rejected.
Proof.
  intros Hfind Hcodec. unfold exportSession, importSession.
  rewrite Hfind, Hcodec, accepts_ofSession, toSession_ofSession. reflexivity.
Qed.

End Transfer.

(** C6 (amended). Let [s] be the session that [exportSession] finds for
    an id, let its [id] and its [title] be non-empty strings, and let the
    JSON codec read back the document of [s] as it was written. Then
    [importSession] of the exported text returns [true] and puts in front
    of the list the session read from JSON: it has the [systemPrompt] of
    [s], and the [messages] and [responses] of [s] with every [Date]
    replaced by its ISO string, and it is [s] itself when [s] had gone
    through JSON before. Moreover, on any text, [importSession] returns
    [false] exactly when the text does not parse, or parses to [null], or
    [id] or [title] is missing or falsy, or [messages] is not an array. *)
Theorem export_import_roundtrip_of_titled_session
    (toISOString : Z -> string)
    (JSON_stringify : JSON.value -> string) (JSON_parse : string -> option JSON.value)
    (st : AppState.t) (sessionId : string) (s : ChatSession.t) :
  Store.findSession sessionId (AppState.sessions st) = Some s →
  JSON_parse (JSON_stringify (JSON.ofSession toISOString s))
  = Some (JSON.ofSession toISOString s) →
  JS.truthy_string (ChatSession.id s) = true →
  (∃ t, ChatSession.title s = Some t ∧ JS.truthy_string t = true) →
  (Transfer.importSession JSON_parse
     (Transfer.exportSession toISOString JSON_stringify sessionId st) st
   = Transfer.Added
       (AppState.setSessionList
          (JSON.reloadSession toISOString s :: AppState.sessions st) st)
   ∧ ChatSession.systemPrompt (JSON.reloadSession toISOString s)
     = ChatSession.systemPrompt s
   ∧ ChatSession.messages (JSON.reloadSession toISOString s)
     = map (JSON.reloadMessage toISOString) (ChatSession.messages s)
   ∧ ChatSession.responses (JSON.reloadSession toISOString s)
     = (fun byMessage : gmap string ModelResponse.t =>
          JSON.reloadResponse toISOString <$> byMessage) <$> ChatSession.responses s
   ∧ JSON.reloadSession toISOString (JSON.reloadSession toISOString s)
     = JSON.reloadSession toISOString s)
  ∧ (∀ data,
       Transfer.returned (Transfer.importSession JSON_parse data st) = false
       ↔ match JSON_parse data with
         | None => True
         | Some v =>
             v = JSON.Null
             ∨ JSON.truthy (JSON.prop "id" v) = false
             ∨ JSON.truthy (JSON.prop "title" v) = false
             ∨ JSON.isArray (JSON.prop "messages" v) = false
         end).
Proof.
  intros Hfind Hcodec Hid (t & Htitle & Ht).
  split; [|intros data; apply importSession_rejects].
  split; [|split; [reflexivity|split; [reflexivity|split; [reflexivity|]]]].
  - rewrite (import_of_export toISOString JSON_stringify JSON_parse sessionId st s Hfind Hcodec).
    now rewrite Hid, Htitle, Ht.
  - apply reloadSession_idempotent.
Qed.

Lemma export_import_roundtrip_of_titled_session_witness :
  Transfer.importSession Sample.JSON_parse
    (Transfer.exportSession Sample.toISOString Sample.JSON_stringify "s1" Sample.state)
    Sample.state
  = Transfer.Added
      (AppState.setSessionList
         (JSON.reloadSession Sample.toISOString Sample.session
          :: AppState.sessions Sample.state) Sample.state)
  ∧ ChatSession.messages (JSON.reloadSession Sample.toISOString Sample.session)
    = [Message.mk "m1" user "Hello" (JS.DateStr "1970-01-01T00:00:01.000Z") None].
Proof.
  split; [|reflexivity].
  apply (export_import_roundtrip_of_titled_session Sample.toISOString
           Sample.JSON_stringify Sample.JSON_parse Sample.state "s1" Sample.session).
  - reflexivity.
  - vm_compute. reflexivity.
  - reflexivity.
  - exists "Greeting". split; reflexivity.
Defined.

(** C6 as stated fails. A session has no title until one is generated
    for it ([createNewSession] sets none), and the validation of
    [importSession] requires one: the export of the untitled session
    [s2] of the sample state is rejected, with the sample codec and with
    any codec that reads the document back as it was written. *)
Lemma untitled_session_is_not_reimported :
  In Sample.other (AppState.sessions Sample.state)
  ∧ Store.findSession "s2" (AppState.sessions Sample.state) = Some Sample.other
  ∧ ChatSession.title Sample.other = None
  ∧ Sample.JSON_parse (Sample.JSON_stringify (JSON.ofSession Sample.toISOString Sample.other))
    = Some (JSON.ofSession Sample.toISOString Sample.other)
  ∧ Transfer.importSession Sample.JSON_parse
      (Transfer.exportSession Sample.toISOString Sample.JSON_stringify "s2" Sample.state)
      Sample.state
    = Transfer.Rejected
  ∧ (∀ toISOString JSON_stringify JSON_parse,
       JSON_parse (JSON_stringify (JSON.ofSession toISOString Sample.other))
       = Some (JSON.ofSession toISOString Sample.other) →
       Transfer.importSession JSON_parse
         (Transfer.exportSession toISOString JSON_stringify "s2" Sample.state)
         Sample.state
       = Transfer.Rejected)
  ∧ (∀ newId tCreated tUpdated st s,
       AppState.currentSession (Store.createNewSession newId tCreated tUpdated st) = Some s →
       ChatSession.title s = None).
Proof.
  split; [simpl; tauto|]. split; [reflexivity|]. split; [reflexivity|].
  split; [vm_compute; reflexivity|]. split; [vm_compute; reflexivity|]. split.
  - intros toISOString JSON_stringify JSON_parse Hcodec.
    now rewrite (import_of_export toISOString JSON_stringify JSON_parse "s2"
                   Sample.state Sample.other eq_refl Hcodec).
  - intros newId tCreated tUpdated st s H. simpl in H. now injection H as <-.
Qed.

(* ================================================================== *)
(** * Part III: further properties of the code                         *)
(* ================================================================== *)

(** ** The chunks of a stream *)

Lemma string_concat_app (l1 l2 : list string) :
  String.concat "" (l1 ++ l2) = String.concat "" l1 ++ String.concat "" l2.
Proof.
  induction l1 as [|x l1 IH]; [reflexivity|].
  change ((x :: l1) ++ l2)%list with (x :: (l1 ++ l2))%list.
  rewrite !string_concat_cons, IH. symmetry. apply string_app_assoc.
Qed.

Section ChunkShape.
Import Stream.
Variable parsePayload : string -> option Payload.

Import Shape.

Lemma emit_terminal_faithful r t : faithful r → faithful (emit (terminalChunk t) r).
Proof.
  intros [Hc Hs]. split; simpl.
  - rewrite map_app, string_concat_app, <- Hc. simpl. now rewrite string_app_nil_r.
  - apply Forall_app. split; [exact Hs|]. apply Forall_cons; split; [|constructor]. right. now exists t.
Qed.

Lemma onData_faithful data r : faithful r → faithful (onData parsePayload data r).
Proof.
  intros Hr. unfold onData. destruct (parsePayload data) as [p|]; [|exact Hr].
  assert (H1 : faithful
            (if JS.truthy_string (delta p)
             then emit (deltaChunk (delta p))
                    (mkReader (rd_content r ++ delta p) (rd_tokens r) (rd_emitted r))
             else r)).
  { destruct (JS.truthy_string (delta p)) eqn:Hd; [|exact Hr].
    destruct Hr as [Hc Hs]. split; simpl.
    - rewrite map_app, string_concat_app, <- Hc. reflexivity.
    - apply Forall_app. split; [exact Hs|].
      apply Forall_cons; split; [|constructor]. left.
      exists (delta p). split; [|reflexivity].
      intros Heq. unfold JS.truthy_string in Hd. rewrite Heq in Hd. discriminate Hd. }
  destruct (total_tokens p) as [t|]; [|exact H1].
  destruct (JS.truthy_number t); exact H1.
Qed.

Lemma forLines_faithful lines r : faithful r → faithful (forLines parsePayload lines r).
Proof.
  revert r. induction lines as [|line rest IH]; intros r Hr; cbn [forLines]; [exact Hr|].
  destruct (JS.startsWith "data: " line); [|now apply IH].
  destruct (String.eqb _ "[DONE]"); [now apply emit_terminal_faithful|].
  destruct (JS.truthy_string _); apply IH; [now apply onData_faithful | exact Hr].
Qed.

Lemma readLoop_faithful reads r : faithful r → faithful (readLoop parsePayload reads r).
Proof.
  unfold readLoop. revert r. induction reads as [|value reads IH]; intros r Hr; simpl.
  - exact Hr.
  - apply IH. now apply forLines_faithful.
Qed.

Lemma sendMessageStream_shaped p model t0 t1 net :
  Forall (fun c => (∃ d, d ≠ "" ∧ c = deltaChunk d) ∨ (∃ t, c = terminalChunk t))
    (sendMessageStream parsePayload p model t0 t1 net).1.
Proof.
  assert (Hstart : faithful (mkReader "" 0 [])) by (split; [reflexivity | constructor]).
  destruct net as [e|status statusText errorText| |reads [e|]]; simpl; try constructor.
  - apply (readLoop_faithful reads _ Hstart).
  - destruct (emitsAfterLoop p).
    + apply (emit_terminal_faithful _ _ (readLoop_faithful reads _ Hstart)).
    + apply (readLoop_faithful reads _ Hstart).
Qed.

Lemma sendMessageStream_content p model t0 t1 reads :
  ∃ resp,
    (sendMessageStream parsePayload p model t0 t1 (FetchOk reads None)).2 = inr resp
    ∧ r_content resp
      = String.concat ""
          (map content (sendMessageStream parsePayload p model t0 t1 (FetchOk reads None)).1).
Proof.
  assert (Hstart : faithful (mkReader "" 0 [])) by (split; [reflexivity | constructor]).
  eexists. split; [reflexivity|]. simpl.
  destruct (emitsAfterLoop p).
  - apply (emit_terminal_faithful _ _ (readLoop_faithful reads _ Hstart)).
  - apply (readLoop_faithful reads _ Hstart).
Qed.

End ChunkShape.

(** X1. For each of the five adapters and every body that is read to
    its end, the [content] the streaming call resolves with is the
    concatenation, in order, of the contents of the chunks it passed to
    [onChunk]; and whatever the network does, every chunk passed to
    [onChunk] is either a delta with a non-empty content (no tokens, no
    cost) or the terminal chunk (empty content, a token count, no
    cost). *)
Theorem stream_content_is_what_was_delivered
    (parsePayload : string -> option Stream.Payload) (p : AIProvider) (model : string)
    (startTime endTime : Z) (reads : list string) (net : Stream.FetchResult) :
  (∃ resp,
     (Stream.sendMessageStream parsePayload p model startTime endTime
        (Stream.FetchOk reads None)).2 = inr resp
     ∧ Stream.r_content resp
       = String.concat ""
           (map Stream.content
              (Stream.sendMessageStream parsePayload p model startTime endTime
                 (Stream.FetchOk reads None)).1))
  ∧ Forall (fun c => (∃ d, d ≠ "" ∧ c = Stream.deltaChunk d)
                     ∨ (∃ t, c = Stream.terminalChunk t))
      (Stream.sendMessageStream parsePayload p model startTime endTime net).1.
Proof.
  split; [apply sendMessageStream_content | apply sendMessageStream_shaped].
Qed.

(** ** Where the body is cut into reads *)



Section Reads.
Import Stream.
Variable parsePayload : string -> option Payload.



End Reads.



(** ** The cost recorded in a slot *)

Section SlotCost.
Import App.
Variable parsePayload : string -> option Stream.Payload.
Variable reg : Stream.Registry.

Lemma streamCall_shaped model env :
  Forall Shape.shaped (streamCall parsePayload reg model env).1.
Proof.
  unfold streamCall, Stream.chatSendMessageStream.
  destruct (reg (ModelConfig.provider model)); simpl; [|constructor].
  apply sendMessageStream_shaped.
Qed.

Lemma fold_chunkCalls_cost modelId ui chunks :
  Forall Shape.shaped chunks →
  ∀ (clock : nat → Z * Z) (r : ModelResponse.t),
    ModelResponse.cost r = None ∨ ModelResponse.cost r = Some 0%Q →
    ∃ r', fold_left (fun o c => slotStep c o)
            (imap (fun i chunk => onChunk modelId ui (clock i) chunk) chunks) (Some r)
          = Some r'
          ∧ (ModelResponse.cost r' = None ∨ ModelResponse.cost r' = Some 0%Q).
Proof.
  induction 1 as [|chunk chunks Hchunk _ IH]; intros clock r Hr.
  - exists r. now split.
  - rewrite imap_cons. cbn [fold_left].
    destruct Hchunk as [(d & _ & ->)|(t & ->)]; unfold onChunk; simpl.
    + apply IH. exact Hr.
    + apply IH. simpl. now right.
Qed.

End SlotCost.

(** X3. Whatever the adapter and the network do, the store calls of a
    per-model task leave in the slot a [cost] that is either unset or
    0: the adapters put no cost on their chunks, and the callback
    records [chunk.cost || 0]. The cost computed by [calculateCost]
    never reaches the slot. *)
Theorem task_never_records_a_cost
    (parsePayload : string -> option Stream.Payload) (reg : Stream.Registry)
    (model : ModelConfig.t) (env : App.TaskEnv) (o : option ModelResponse.t) :
  ∃ r, fold_left (fun o c => App.slotStep c o)
         (App.modelTask parsePayload reg model env).1 o = Some r
       ∧ (ModelResponse.cost r = None ∨ ModelResponse.cost r = Some 0%Q).
Proof.
  rewrite (proj1 (modelTask_log parsePayload reg model env)).
  cbn [fold_left App.slotStep]. rewrite fold_left_app. unfold App.chunkCalls.
  destruct (fold_chunkCalls_cost (ModelConfig.id model) (App.uiStart env)
              (App.streamCall parsePayload reg model env).1
              (streamCall_shaped parsePayload reg model env) (App.chunkClock env)
              (ModelResponse.mk (ModelConfig.id model) "" true None None None None
                 (JS.DateObj (App.tSlot env))))
    as (r' & -> & Hcost); [now left|].
  destruct (App.streamCall parsePayload reg model env).2 as [e|resp]; simpl; eauto.
Qed.

(** ** What the adapters send *)

(** X4. For every adapter, [formatMessages] puts one system entry in
    front when the system prompt is a non-empty string and none
    otherwise, then one entry per message, in order and with the role
    of the message. Every adapter but the volcengine one sends the bare
    text of each message, whatever images it carries; the volcengine
    adapter sends a text part followed by one data-URI part per image
    when the message has images, and the bare text when it has none. *)
Theorem formatMessages_structure
    (p : AIProvider) (messages : list Message.t) (systemPrompt : option string) :
  map Adapter.role (Adapter.formatMessages p messages systemPrompt)
  = ((if JS.truthy_string (default "" systemPrompt) then [system] else [])
     ++ map Message.role messages)%list
  ∧ length (Adapter.formatMessages p messages systemPrompt)
    = ((if JS.truthy_string (default "" systemPrompt) then 1 else 0) + length messages)%nat
  ∧ (p ≠ volcengine →
     Adapter.formatMessages p messages systemPrompt
     = (Adapter.systemEntry systemPrompt
        ++ map (fun m => Adapter.mkFormatted (Message.role m) (Adapter.Plain (Message.content m)))
             messages)%list)
  ∧ (∀ m, In m messages →
       Adapter.content (Adapter.formatMessage volcengine m)
       = match Message.images m with
         | None | Some [] => Adapter.Plain (Message.content m)
         | Some images =>
             Adapter.Parts
               (Adapter.TextPart (Message.content m)
                :: map (fun image => Adapter.ImagePart ("data:image/jpeg;base64," ++ image))
                     images)
         end).
Proof.
  assert (Hroles : ∀ l, map Adapter.role (map (Adapter.formatMessage p) l)
                        = map Message.role l).
  { intros l. rewrite map_map. apply map_ext. intros m.
    unfold Adapter.formatMessage. destruct p; try reflexivity.
    destruct (Message.images m) as [[|i l']|]; reflexivity. }
  unfold Adapter.formatMessages, Adapter.systemEntry.
  split; [|split; [|split]].
  - rewrite map_app, Hroles.
    destruct systemPrompt as [prompt|]; simpl; [|reflexivity].
    destruct (JS.truthy_string prompt); reflexivity.
  - rewrite length_app, length_map.
    destruct systemPrompt as [prompt|]; simpl; [|reflexivity].
    destruct (JS.truthy_string prompt); reflexivity.
  - intros Hp. f_equal. apply map_ext. intros m.
    unfold Adapter.formatMessage. destruct p; try reflexivity. contradiction.
  - intros m _. unfold Adapter.formatMessage.
    destruct (Message.images m) as [[|i l']|]; reflexivity.
Qed.

Lemma formatMessages_structure_witness :
  Adapter.formatMessages kimi [Sample.message; Fixtures.picture]
    (Some "You are a helpful assistant.")
  = [ Adapter.mkFormatted system (Adapter.Plain "You are a helpful assistant.")
    ; Adapter.mkFormatted user (Adapter.Plain "Hello")
    ; Adapter.mkFormatted user (Adapter.Plain "What is this?") ]
  ∧ Adapter.content (Adapter.formatMessage volcengine Fixtures.picture)
    = Adapter.Parts [ Adapter.TextPart "What is this?"
                    ; Adapter.ImagePart "data:image/jpeg;base64,AAAA"
                    ; Adapter.ImagePart "data:image/jpeg;base64,BBBB" ].
Proof.
  destruct (formatMessages_structure kimi [Sample.message; Fixtures.picture]
              (Some "You are a helpful assistant.")) as (_ & _ & Hplain & Hparts).
  split.
  - rewrite Hplain by discriminate. reflexivity.
  - rewrite (Hparts Fixtures.picture) by (simpl; tauto). reflexivity.
Defined.

Lemma min_le_r (a b : Q) : (Adapter.min a b <= b)%Q.
Proof.
  unfold Adapter.min. destruct (Qle_bool a b) eqn:H.
  - now apply Qle_bool_iff.
  - apply Qle_refl.
Qed.

Lemma or_number_nonzero (x : option Q) (d : Q) : ¬ (d == 0)%Q → ¬ (JS.or_number x d == 0)%Q.
Proof.
  intros Hd. unfold JS.or_number, JS.truthy_number.
  destruct x as [q|]; [|exact Hd].
  destruct (Qeq_bool q 0) eqn:Hq; simpl; [exact Hd|].
  now apply Qeq_bool_neq.
Qed.

(** X5. In the request body of every adapter, for [sendMessage] and
    for [sendMessageStream] alike: [max_tokens] never exceeds the
    ceiling of the adapter (4096, 2000 for aliyun, 128000 for kimi);
    [temperature] is never 0, because a requested 0 is replaced by the
    default of the adapter; and a requested non-zero [maxTokens] within
    the ceiling is forwarded as it is. *)
Theorem requestBody_bounds (p : AIProvider) (stream : bool) (request : Adapter.ChatRequest) :
  (Adapter.b_max_tokens (Adapter.requestBody p stream request) <= Adapter.maxTokensCeiling p)%Q
  ∧ ¬ (Adapter.b_temperature (Adapter.requestBody p stream request) == 0)%Q
  ∧ (Adapter.temperature request = Some 0%Q →
     Adapter.b_temperature (Adapter.requestBody p stream request)
     = Adapter.defaultTemperature p)
  ∧ (∀ m, Adapter.maxTokens request = Some m →
          ¬ (m == 0)%Q → (m <= Adapter.maxTokensCeiling p)%Q →
          Adapter.b_max_tokens (Adapter.requestBody p stream request) = m).
Proof.
  unfold Adapter.requestBody; simpl. split; [|split; [|split]].
  - apply min_le_r.
  - apply or_number_nonzero. now destruct p.
  - now intros ->.
  - intros m -> Hm Hle. unfold JS.or_number, JS.truthy_number.
    destruct (Qeq_bool m 0) eqn:Hz; [now apply Qeq_bool_iff in Hz|]. simpl.
    unfold Adapter.min. now rewrite (proj2 (Qle_bool_iff _ _) Hle).
Qed.

Lemma requestBody_bounds_witness :
  Adapter.b_temperature (Adapter.requestBody kimi true Fixtures.request) = (3 # 10)%Q
  ∧ (Adapter.b_max_tokens (Adapter.requestBody kimi true Fixtures.request) <= 128000)%Q
  ∧ Adapter.b_max_tokens (Adapter.requestBody aliyun false Fixtures.modest) = 1500%Q.
Proof.
  destruct (requestBody_bounds kimi true Fixtures.request) as (Hmax & _ & Htemp & _).
  destruct (requestBody_bounds aliyun false Fixtures.modest) as (_ & _ & _ & Hsame).
  split; [apply Htemp; reflexivity|]. split; [exact Hmax|].
  apply Hsame; [reflexivity | discriminate | discriminate].
Defined.

(** ** Credentials: the store, the registry and the validation *)

Lemma syncRegistry_spec (keys : AIProvider → string) (reg : Stream.Registry) (p : AIProvider) :
  AppRest.syncRegistry keys reg p
  = if JS.truthy_string (keys p)
    then (if JS.truthy_string (JS.trim (keys p)) then Some (keys p) else None)
    else reg p.
Proof.
  unfold AppRest.syncRegistry, AppRest.providers. cbn [fold_left].
  destruct (JS.truthy_string (keys deepseek)) eqn:H1,
           (JS.truthy_string (keys aliyun)) eqn:H2,
           (JS.truthy_string (keys volcengine)) eqn:H3,
           (JS.truthy_string (keys kimi)) eqn:H4,
           (JS.truthy_string (keys claude)) eqn:H5;
    destruct p; unfold Stream.setApiKey; simpl;
    rewrite ?H1, ?H2, ?H3, ?H4, ?H5; reflexivity.
Qed.

(** X6. The registry after the effect that follows a change of
    [apiKeys]: a provider whose stored key is a non-empty string has the
    adapter built with that key when the key has a non-blank character
    and no adapter when it is all white space; a provider whose stored
    key is the empty string keeps whatever adapter it had. So storing
    the empty key for a provider (clearing the field) leaves its adapter
    registered with the old key, and a change of one provider's key
    never changes the adapter of a provider whose own key is empty. *)
Theorem registry_follows_nonempty_keys_only
    (st : AppState.t) (provider : AIProvider) (apiKey : string)
    (reg : Stream.Registry) (p : AIProvider) :
  let keys := AppState.apiKeys (StoreRest.setApiKey provider apiKey st) in
  AppRest.syncRegistry keys reg p
  = (if JS.truthy_string (keys p)
     then (if JS.truthy_string (JS.trim (keys p)) then Some (keys p) else None)
     else reg p)
  ∧ StoreRest.getApiKey provider (StoreRest.setApiKey provider apiKey st) = apiKey
  ∧ (p ≠ provider →
     StoreRest.getApiKey p (StoreRest.setApiKey provider apiKey st)
     = StoreRest.getApiKey p st)
  ∧ AppRest.syncRegistry
      (AppState.apiKeys (StoreRest.setApiKey provider "" st)) reg provider
    = reg provider.
Proof.
  intros keys. split; [apply syncRegistry_spec|].
  unfold StoreRest.getApiKey, StoreRest.setApiKey; simpl.
  split; [now rewrite decide_True|]. split.
  - intros Hp. now rewrite decide_False.
  - rewrite syncRegistry_spec. simpl. now rewrite decide_True.
Qed.

Lemma registry_follows_nonempty_keys_only_witness :
  AppRest.syncRegistry
    (AppState.apiKeys (StoreRest.setApiKey kimi "" Sample.sendState))
    (Stream.setApiKey kimi "sk-old" Stream.emptyRegistry) kimi
  = Some "sk-old"
  ∧ StoreRest.getApiKey kimi (StoreRest.setApiKey kimi "" Sample.sendState) = ""
  ∧ AppRest.syncRegistry
      (AppState.apiKeys (StoreRest.setApiKey kimi Fixtures.nbsp Sample.sendState))
      (Stream.setApiKey kimi "sk-old" Stream.emptyRegistry) kimi
    = None.
Proof.
  destruct (registry_follows_nonempty_keys_only Sample.sendState kimi ""
              (Stream.setApiKey kimi "sk-old" Stream.emptyRegistry) kimi)
    as (_ & Hget & _ & Hkeep).
  destruct (registry_follows_nonempty_keys_only Sample.sendState kimi Fixtures.nbsp
              (Stream.setApiKey kimi "sk-old" Stream.emptyRegistry) kimi)
    as (Hblank & _).
  split; [rewrite Hkeep; reflexivity|]. split; [exact Hget|].
  rewrite Hblank. reflexivity.
Defined.

Lemma length_zero (s : string) : JS.length s = 0%nat ↔ s = "".
Proof.
  split; [|now intros ->].
  destruct s as [|c r]; [reflexivity|]. unfold JS.length. lia.
Qed.

Lemma trim_truthy_of_length (key : string) :
  (JS.length (JS.trim key) =? 0)%nat = false → JS.truthy_string (JS.trim key) = true.
Proof.
  intros Hlen. apply Nat.eqb_neq in Hlen. unfold JS.truthy_string.
  destruct (JS.trim key); [now destruct Hlen | reflexivity].
Qed.

Lemma eqb_provider_name (provider : string) (p : AIProvider) :
  String.eqb provider (provider_name p) = true → provider = provider_name p.
Proof. apply String.eqb_eq. Qed.

(** X7. A key that [validateApiKey] accepts is accepted for one of the
    five providers only, is a non-empty string with a non-blank
    character, and so, once stored, makes the effect on [apiKeys]
    register the adapter of that provider with exactly that key. A key
    that is empty or all white space is refused for every provider. *)
Theorem validated_key_registers_adapter
    (provider key : string) (Hvalid : Helpers.validateApiKey provider key = true) :
  ∃ p : AIProvider,
    provider = provider_name p
    ∧ ∀ (st : AppState.t) (reg : Stream.Registry),
        AppRest.syncRegistry (AppState.apiKeys (StoreRest.setApiKey p key st)) reg p
        = Some key.
Proof.
  unfold Helpers.validateApiKey in Hvalid.
  destruct (JS.truthy_string key) eqn:Hkey; [|discriminate]. simpl in Hvalid.
  destruct (JS.length (JS.trim key) =? 0)%nat eqn:Hlen; [discriminate|].
  apply trim_truthy_of_length in Hlen.
  assert (Hreg : ∀ p st reg,
             AppRest.syncRegistry (AppState.apiKeys (StoreRest.setApiKey p key st)) reg p
             = Some key).
  { intros p st reg. rewrite syncRegistry_spec. simpl.
    rewrite decide_True by reflexivity. now rewrite Hkey, Hlen. }
  destruct (String.eqb provider "deepseek") eqn:E1;
    [exists deepseek; split; [now apply eqb_provider_name | apply Hreg]|].
  destruct (String.eqb provider "aliyun") eqn:E2;
    [exists aliyun; split; [now apply eqb_provider_name | apply Hreg]|].
  destruct (String.eqb provider "volcengine") eqn:E3;
    [exists volcengine; split; [now apply eqb_provider_name | apply Hreg]|].
  destruct (String.eqb provider "kimi") eqn:E4;
    [exists kimi; split; [now apply eqb_provider_name | apply Hreg]|].
  destruct (String.eqb provider "claude") eqn:E5;
    [exists claude; split; [now apply eqb_provider_name | apply Hreg]|].
  discriminate.
Qed.

Lemma validated_key_registers_adapter_witness :
  Helpers.validateApiKey "aliyun" "abcdefghij_klmnop-0123456789" = true
  ∧ ∃ p : AIProvider,
      "aliyun" = provider_name p
      ∧ ∀ (st : AppState.t) (reg : Stream.Registry),
          AppRest.syncRegistry
            (AppState.apiKeys (StoreRest.setApiKey p "abcdefghij_klmnop-0123456789" st))
            reg p
          = Some "abcdefghij_klmnop-0123456789".
Proof.
  split; [reflexivity|].
  apply (validated_key_registers_adapter "aliyun" "abcdefghij_klmnop-0123456789").
  reflexivity.
Defined.

(** X8. [validateApiKey] refuses every key that is empty or consists of
    white space only, whatever the provider, and refuses every key for a
    provider name that is not one of the five; for claude it accepts
    every other key. *)
Theorem validateApiKey_blank_or_unknown (provider key : string) :
  (JS.trim key = "" → Helpers.validateApiKey provider key = false)
  ∧ ((∀ p, provider ≠ provider_name p) → Helpers.validateApiKey provider key = false)
  ∧ (JS.trim key ≠ "" → Helpers.validateApiKey "claude" key = true).
Proof.
  unfold Helpers.validateApiKey. split; [|split].
  - intros ->. simpl. now rewrite orb_true_r.
  - intros Hp.
    destruct (negb (JS.truthy_string key) || (JS.length (JS.trim key) =? 0)%nat);
      [reflexivity|].
    rewrite (proj2 (String.eqb_neq provider "deepseek")) by apply (Hp deepseek).
    rewrite (proj2 (String.eqb_neq provider "aliyun")) by apply (Hp aliyun).
    rewrite (proj2 (String.eqb_neq provider "volcengine")) by apply (Hp volcengine).
    rewrite (proj2 (String.eqb_neq provider "kimi")) by apply (Hp kimi).
    rewrite (proj2 (String.eqb_neq provider "claude")) by apply (Hp claude).
    reflexivity.
  - intros Htrim.
    assert (Hkey : JS.truthy_string key = true).
    { destruct key; [now destruct Htrim | reflexivity]. }
    assert (Hlen : JS.length (JS.trim key) ≠ 0%nat) by now rewrite length_zero.
    rewrite Hkey, (proj2 (Nat.eqb_neq _ _) Hlen). cbn [negb orb].
    apply Nat.ltb_lt. lia.
Qed.

Lemma validateApiKey_blank_or_unknown_witness :
  Helpers.validateApiKey "kimi" "   " = false
  ∧ Helpers.validateApiKey "claude" (Fixtures.nbsp ++ Fixtures.ideographicSpace) = false
  ∧ Helpers.validateApiKey "openai" "sk-abc" = false
  ∧ Helpers.validateApiKey "claude" " x " = true.
Proof.
  split; [|split; [|split]].
  - destruct (validateApiKey_blank_or_unknown "kimi" "   ") as (H & _ & _).
    apply H. reflexivity.
  - destruct (validateApiKey_blank_or_unknown "claude"
                (Fixtures.nbsp ++ Fixtures.ideographicSpace)) as (H & _ & _).
    apply H. reflexivity.
  - destruct (validateApiKey_blank_or_unknown "openai" "sk-abc") as (_ & H & _).
    apply H. intros []; discriminate.
  - destruct (validateApiKey_blank_or_unknown "claude" " x ") as (_ & _ & H).
    apply H. discriminate.
Defined.

(** ** The store: selection and sessions *)

(** X9. [toggleModel] flips the membership of the given id in the
    selection and of no other id: an unselected id is appended at the
    end, a selected id loses all its occurrences; the sessions and the
    current session (with the selection it was created with) are not
    touched. *)
Theorem toggleModel_flips_only_that_model (modelId other : string) (st : AppState.t) :
  (modelId ∈ AppState.selectedModels (Store.toggleModel modelId st)
   ↔ modelId ∉ AppState.selectedModels st)
  ∧ (other ≠ modelId →
     other ∈ AppState.selectedModels (Store.toggleModel modelId st)
     ↔ other ∈ AppState.selectedModels st)
  ∧ (modelId ∉ AppState.selectedModels st →
     AppState.selectedModels (Store.toggleModel modelId st)
     = (AppState.selectedModels st ++ [modelId])%list)
  ∧ AppState.currentSession (Store.toggleModel modelId st) = AppState.currentSession st
  ∧ AppState.sessions (Store.toggleModel modelId st) = AppState.sessions st.
Proof.
  unfold Store.toggleModel, AppState.setSelected; simpl.
  destruct (bool_decide_reflect (modelId ∈ AppState.selectedModels st)) as [Hin|Hout].
  - split; [|split; [|split; [|split]]]; try reflexivity.
    + rewrite list_elem_of_filter. tauto.
    + intros Hne. rewrite list_elem_of_filter. tauto.
    + contradiction.
  - split; [|split; [|split; [|split]]]; try reflexivity.
    + rewrite elem_of_app, list_elem_of_singleton. tauto.
    + intros Hne. rewrite elem_of_app, list_elem_of_singleton. tauto.
Qed.

Lemma toggleModel_flips_only_that_model_witness :
  "qwen-turbo" ∈ AppState.selectedModels (Store.toggleModel "deepseek-chat" Store.initialState)
  ∧ AppState.selectedModels (Store.toggleModel "qwen-max" Store.initialState)
    = ["deepseek-chat"; "qwen-turbo"; "moonshot-v1-8k"; "qwen-max"].
Proof.
  destruct (toggleModel_flips_only_that_model "deepseek-chat" "qwen-turbo" Store.initialState)
    as (_ & Hother & _).
  destruct (toggleModel_flips_only_that_model "qwen-max" "" Store.initialState)
    as (_ & _ & Happend & _).
  split.
  - apply Hother; [discriminate|]. apply (bool_decide_unpack _). vm_compute. exact I.
  - rewrite Happend; [reflexivity|]. apply (bool_decide_unpack _). vm_compute. exact I.
Defined.

Section Sessions.
Import AppState Store SessionOp.

Lemma findSession_elem_of sid l s : findSession sid l = Some s → s ∈ l.
Proof.
  intros H. apply find_some in H as [H _]. now apply list_elem_of_In.
Qed.

Lemma findSession_absent sid l :
  (∀ s, s ∈ l → ChatSession.id s ≠ sid) → findSession sid l = None.
Proof.
  unfold findSession. induction l as [|a l IH]; intros H; simpl; [reflexivity|].
  rewrite bool_decide_eq_false_2 by (apply H, elem_of_cons; now left).
  apply IH. intros s Hs. apply H, elem_of_cons. now right.
Qed.

Lemma findSession_present sid l s :
  s ∈ l → ChatSession.id s = sid → is_Some (findSession sid l).
Proof.
  intros Hs Hid. destruct (findSession sid l) as [x|] eqn:E; [eauto|].
  apply list_elem_of_In in Hs. apply (find_none _ _ E s) in Hs.
  simpl in Hs. apply bool_decide_eq_false in Hs. contradiction.
Qed.

Lemma map_id_replaceSession (updated : ChatSession.t) l :
  map ChatSession.id (replaceSession updated l) = map ChatSession.id l.
Proof.
  unfold replaceSession. induction l as [|a l IH]; simpl; [reflexivity|].
  f_equal; [|exact IH]. case_bool_decide; congruence.
Qed.

Lemma map_id_imap (g : nat → ChatSession.t → ChatSession.t) l :
  (∀ i s, ChatSession.id (g i s) = ChatSession.id s) →
  map ChatSession.id (imap g l) = map ChatSession.id l.
Proof.
  revert g. induction l as [|a l IH]; intros g Hg; simpl; [reflexivity|].
  f_equal; [apply Hg|]. apply IH. intros i s. apply Hg.
Qed.

End Sessions.

(** X10. [loadSession] makes the first list entry with the given id the
    current session and adopts its selection and system prompt; the
    list itself is never changed; when no entry carries the id, the
    state is unchanged. Loading is idempotent, and after a successful
    load the entry a lookup by the current id returns is the current
    session. *)
Theorem loadSession_selects_first_entry (sessionId : string) (st : AppState.t) :
  (∀ s, Store.findSession sessionId (AppState.sessions st) = Some s →
        AppState.currentSession (Store.loadSession sessionId st) = Some s
        ∧ ChatSession.id s = sessionId
        ∧ s ∈ AppState.sessions st
        ∧ AppState.selectedModels (Store.loadSession sessionId st)
          = ChatSession.selectedModels s
        ∧ AppState.systemPrompt (Store.loadSession sessionId st)
          = ChatSession.systemPrompt s
        ∧ SessionOp.coherentEntry (Store.loadSession sessionId st))
  ∧ ((∀ s, s ∈ AppState.sessions st → ChatSession.id s ≠ sessionId) →
     Store.loadSession sessionId st = st)
  ∧ ((∃ s, s ∈ AppState.sessions st ∧ ChatSession.id s = sessionId) →
     ∃ s, AppState.currentSession (Store.loadSession sessionId st) = Some s
          ∧ ChatSession.id s = sessionId)
  ∧ AppState.sessions (Store.loadSession sessionId st) = AppState.sessions st
  ∧ Store.loadSession sessionId (Store.loadSession sessionId st)
    = Store.loadSession sessionId st.
Proof.
  unfold Store.loadSession.
  split; [|split; [|split; [|split]]].
  - intros s Hs. rewrite Hs. simpl.
    pose proof (findSession_id _ _ _ Hs) as Hid.
    repeat split; try done.
    + eapply findSession_elem_of, Hs.
    + intros cur s' Hcur Hfind. simpl in *. injection Hcur as <-.
      rewrite Hid, Hs in Hfind. congruence.
  - intros Habsent. now rewrite (findSession_absent _ _ Habsent).
  - intros (s & Hs & Hid).
    destruct (findSession_present _ _ _ Hs Hid) as [x Hx]. rewrite Hx. simpl.
    exists x. split; [reflexivity|]. eapply findSession_id, Hx.
  - destruct (Store.findSession sessionId (AppState.sessions st)); reflexivity.
  - destruct (Store.findSession sessionId (AppState.sessions st)) as [s|] eqn:Hs.
    + simpl. now rewrite Hs.
    + now rewrite Hs.
Qed.

Lemma loadSession_selects_first_entry_witness :
  AppState.currentSession (Store.loadSession "s2" Sample.state) = Some Sample.other
  ∧ Store.loadSession "s3" Sample.state = Sample.state.
Proof.
  destruct (loadSession_selects_first_entry "s2" Sample.state) as (Hfound & _).
  destruct (loadSession_selects_first_entry "s3" Sample.state) as (_ & Habsent & _).
  split.
  - apply (Hfound Sample.other). reflexivity.
  - apply Habsent. intros s Hs.
    apply elem_of_cons in Hs as [->|Hs]; [discriminate|].
    apply elem_of_cons in Hs as [->|Hs]; [discriminate|].
    inversion Hs.
Defined.

(** X11. [deleteSession] removes every list entry that carries the id
    and keeps the others, in order; the current session is dropped
    exactly when it carries the id; afterwards loading that id does
    nothing. A state whose current session agrees with the list stays
    so. The selection and the system prompt of the store are kept even
    when the current session is the one deleted. *)
Theorem deleteSession_removes_every_entry (sessionId : string) (st : AppState.t) :
  (∀ s, s ∈ AppState.sessions (Store.deleteSession sessionId st)
        ↔ s ∈ AppState.sessions st ∧ ChatSession.id s ≠ sessionId)
  ∧ (∀ cur, AppState.currentSession (Store.deleteSession sessionId st) = Some cur
            ↔ AppState.currentSession st = Some cur ∧ ChatSession.id cur ≠ sessionId)
  ∧ Store.loadSession sessionId (Store.deleteSession sessionId st)
    = Store.deleteSession sessionId st
  ∧ (SessionOp.coherent st → SessionOp.coherent (Store.deleteSession sessionId st))
  ∧ AppState.selectedModels (Store.deleteSession sessionId st) = AppState.selectedModels st
  ∧ AppState.systemPrompt (Store.deleteSession sessionId st) = AppState.systemPrompt st.
Proof.
  assert (Hlist : ∀ s, s ∈ AppState.sessions (Store.deleteSession sessionId st)
                       ↔ s ∈ AppState.sessions st ∧ ChatSession.id s ≠ sessionId).
  { intros s. unfold Store.deleteSession; simpl. rewrite list_elem_of_filter. tauto. }
  assert (Hcur : ∀ cur, AppState.currentSession (Store.deleteSession sessionId st) = Some cur
                        ↔ AppState.currentSession st = Some cur
                          ∧ ChatSession.id cur ≠ sessionId).
  { intros cur. unfold Store.deleteSession; simpl.
    destruct (AppState.currentSession st) as [c|]; [|split; [discriminate | now intros [? _]]].
    case_bool_decide as Hid.
    - split; [discriminate|]. intros [[= ->] Hne]. contradiction.
    - split; [intros [= ->]; now split | now intros [? _]]. }
  split; [exact Hlist|]. split; [exact Hcur|]. split; [|split; [|split]]; try reflexivity.
  - unfold Store.loadSession. rewrite findSession_absent; [reflexivity|].
    intros s Hs. now apply Hlist in Hs.
  - intros Hcoh cur s Hc Hs Hid.
    apply Hcur in Hc as [Hc _]. apply Hlist in Hs as [Hs _].
    exact (Hcoh cur s Hc Hs Hid).
Qed.

Lemma deleteSession_removes_every_entry_witness :
  SessionOp.coherent (Store.deleteSession "s1" Sample.state)
  ∧ AppState.currentSession (Store.deleteSession "s2" Sample.state) = Some Sample.session.
Proof.
  destruct (deleteSession_removes_every_entry "s1" Sample.state) as (_ & _ & _ & Hcoh & _).
  destruct (deleteSession_removes_every_entry "s2" Sample.state) as (_ & Hcur & _).
  split.
  - apply Hcoh. exact sample_state_coherent.
  - apply Hcur. split; [reflexivity | discriminate].
Defined.

(** X12. [createNewSession] with an id that no session of the list
    carries: the new session is the current session and the first entry
    of the list, the old entries follow unchanged; it has no title, no
    message and no response, and takes the selection and the system
    prompt of the store; the ids of the list stay pairwise distinct and
    the current session agrees with the list. The first message added
    to it starts a title request for that session with the content of
    the message. *)
Theorem createNewSession_with_fresh_id
    (newId : string) (tCreated tUpdated : Z) (st : AppState.t)
    (Hfresh : ∀ s, s ∈ AppState.sessions st → ChatSession.id s ≠ newId)
    (Hdistinct : NoDup (map ChatSession.id (AppState.sessions st))) :
  ∃ s : ChatSession.t,
    AppState.currentSession (Store.createNewSession newId tCreated tUpdated st) = Some s
    ∧ AppState.sessions (Store.createNewSession newId tCreated tUpdated st)
      = s :: AppState.sessions st
    ∧ ChatSession.id s = newId
    ∧ ChatSession.title s = None
    ∧ ChatSession.messages s = []
    ∧ ChatSession.responses s = ∅
    ∧ ChatSession.selectedModels s = AppState.selectedModels st
    ∧ ChatSession.systemPrompt s = AppState.systemPrompt st
    ∧ NoDup (map ChatSession.id
               (AppState.sessions (Store.createNewSession newId tCreated tUpdated st)))
    ∧ SessionOp.coherent (Store.createNewSession newId tCreated tUpdated st)
    ∧ ∀ content images env,
        (Store.addMessage content images env
           (Store.createNewSession newId tCreated tUpdated st)).1
        = (Store.messageId env, Some (newId, content)).
Proof.
  unfold Store.createNewSession. eexists. simpl.
  split; [reflexivity|]. split; [reflexivity|]. simpl.
  repeat (split; [reflexivity|]). split; [|split].
  - constructor; [|exact Hdistinct].
    intros Hin. apply list_elem_of_fmap in Hin as (s & Hid & Hs).
    now apply (Hfresh s Hs).
  - intros cur s Hcur Hs Hid. simpl in Hcur, Hs. injection Hcur as <-.
    apply elem_of_cons in Hs as [Hs|Hs]; [exact Hs|].
    now destruct (Hfresh s Hs).
  - intros content images env. reflexivity.
Qed.

Lemma createNewSession_with_fresh_id_witness :
  ∃ s : ChatSession.t,
    AppState.currentSession (Store.createNewSession "s9" 9000 9001 Sample.state) = Some s
    ∧ AppState.sessions (Store.createNewSession "s9" 9000 9001 Sample.state)
      = s :: AppState.sessions Sample.state
    ∧ ChatSession.id s = "s9"
    ∧ SessionOp.coherent (Store.createNewSession "s9" 9000 9001 Sample.state).
Proof.
  destruct (createNewSession_with_fresh_id "s9" 9000 9001 Sample.state)
    as (s & Hcur & Hlist & Hid & _ & _ & _ & _ & _ & _ & Hcoh & _).
  - intros s Hs.
    apply elem_of_cons in Hs as [->|Hs]; [discriminate|].
    apply elem_of_cons in Hs as [->|Hs]; [discriminate|].
    inversion Hs.
  - apply (bool_decide_unpack _). vm_compute. exact I.
  - exists s. repeat split; assumption.
Defined.

(** X13. While there is a current session, no session operation of the
    store ([addMessage], [addModelResponse], [updateModelResponse],
    [appendToModelResponse], [updateSessionTitle]) adds, removes or
    reorders an entry of the session list or changes an id in it, and
    none switches to another session: the current session afterwards
    carries the same id. *)
Theorem session_ops_keep_list_ids_and_current_id
    (op : SessionOp.t) (st : AppState.t) (cur : ChatSession.t)
    (Hcur : AppState.currentSession st = Some cur) :
  map ChatSession.id (AppState.sessions (SessionOp.apply op st))
  = map ChatSession.id (AppState.sessions st)
  ∧ ∃ cur', AppState.currentSession (SessionOp.apply op st) = Some cur'
            ∧ ChatSession.id cur' = ChatSession.id cur.
Proof.
  destruct op as [content images env | m mid r now | m mid u now | m mid c now
                 | sid title tl tc]; simpl.
  - unfold Store.addMessage. rewrite Hcur. simpl.
    split; [apply map_id_replaceSession | eauto].
  - unfold Store.addModelResponse. rewrite Hcur. simpl.
    split; [apply map_id_replaceSession | eauto].
  - unfold Store.updateModelResponse. rewrite Hcur.
    destruct (ChatSession.slot m mid cur); simpl.
    + split; [apply map_id_replaceSession | eauto].
    + split; [reflexivity | eauto].
  - unfold Store.appendToModelResponse. rewrite Hcur.
    destruct (ChatSession.slot m mid cur); simpl.
    + split; [apply map_id_replaceSession | eauto].
    + split; [reflexivity | eauto].
  - unfold Store.updateSessionTitle. rewrite Hcur. simpl. split.
    + apply map_id_imap. intros i s. case_bool_decide; reflexivity.
    + case_bool_decide; eauto.
Qed.

Lemma session_ops_keep_list_ids_and_current_id_witness :
  map ChatSession.id
    (AppState.sessions
       (SessionOp.apply (SessionOp.UpdateSessionTitle "s2" "Renamed" (fun _ => 5000%Z) 5001)
          Sample.state))
  = ["s1"; "s2"]
  ∧ ∃ cur', AppState.currentSession
              (SessionOp.apply (SessionOp.UpdateSessionTitle "s2" "Renamed" (fun _ => 5000%Z) 5001)
                 Sample.state) = Some cur'
            ∧ ChatSession.id cur' = "s1".
Proof.
  apply (session_ops_keep_list_ids_and_current_id
           (SessionOp.UpdateSessionTitle "s2" "Renamed" (fun _ => 5000%Z) 5001)
           Sample.state Sample.session).
  reflexivity.
Defined.

(** ** The store: messages and responses *)

(** X14. Called for a model id and a message id that are not names
    inherited from [Object.prototype] (where the read of the slot is an
    own slot or [undefined]), [updateModelResponse] and
    [appendToModelResponse] never create or remove a slot of the
    current session, for any model and message, and change no slot but
    the one they are called for. [addModelResponse] fills the slot it
    is called for when there is a current session, changes no other
    slot, and drops the response when there is none. *)
Theorem response_calls_touch_one_slot
    (m mid m' mid' : string) (u : ModelResponse.partial) (c : string)
    (r : ModelResponse.t) (now : Z) (st : AppState.t)
    (Hmodel : m ∉ JS.objectPrototype) (Hmessage : mid ∉ JS.objectPrototype) :
  (∀ cur, AppState.currentSession st = Some cur →
     ChatSession.read m mid cur
     = match ChatSession.slot m mid cur with
       | Some own => ChatSession.OwnSlot own
       | None => ChatSession.NoSlot
       end)
  ∧ (is_Some (Store.currentSlot m' mid' (Store.updateModelResponse m mid u now st))
   ↔ is_Some (Store.currentSlot m' mid' st))
  ∧ (is_Some (Store.currentSlot m' mid' (Store.appendToModelResponse m mid c now st))
     ↔ is_Some (Store.currentSlot m' mid' st))
  ∧ ((m', mid') ≠ (m, mid) →
     Store.currentSlot m' mid' (Store.updateModelResponse m mid u now st)
     = Store.currentSlot m' mid' st
     ∧ Store.currentSlot m' mid' (Store.appendToModelResponse m mid c now st)
       = Store.currentSlot m' mid' st
     ∧ Store.currentSlot m' mid' (Store.addModelResponse m mid r now st)
       = Store.currentSlot m' mid' st)
  ∧ (is_Some (AppState.currentSession st) →
     Store.currentSlot m mid (Store.addModelResponse m mid r now st) = Some r)
  ∧ (AppState.currentSession st = None → Store.addModelResponse m mid r now st = st).
Proof.
  split.
  { intros cur _. unfold ChatSession.read, ChatSession.slot, JS.get.
    destruct (ChatSession.responses cur !! m) as [byMessage|]; simpl.
    - destruct (byMessage !! mid); [reflexivity|]. now rewrite bool_decide_eq_false_2.
    - now rewrite bool_decide_eq_false_2. }
  unfold Store.currentSlot, Store.updateModelResponse, Store.appendToModelResponse,
    Store.addModelResponse.
  destruct (AppState.currentSession st) as [cur|] eqn:Hcur.
  2:{ rewrite Hcur. simpl. repeat split; try tauto. intros [x Hx]. discriminate. }
  simpl. split; [|split; [|split; [|split]]].
  - destruct (ChatSession.slot m mid cur) as [r0|] eqn:Hslot; [|now rewrite Hcur].
    simpl. destruct (decide ((m', mid') = (m, mid))) as [[= -> ->]|Hne].
    + rewrite slot_withResponses_putSlot, Hslot. split; eauto.
    + now rewrite slot_withResponses_putSlot_ne.
  - destruct (ChatSession.slot m mid cur) as [r0|] eqn:Hslot; [|now rewrite Hcur].
    simpl. destruct (decide ((m', mid') = (m, mid))) as [[= -> ->]|Hne].
    + rewrite slot_withResponses_putSlot, Hslot. split; eauto.
    + now rewrite slot_withResponses_putSlot_ne.
  - intros Hne.
    destruct (ChatSession.slot m mid cur) as [r0|] eqn:Hslot; simpl;
      rewrite ?Hcur; simpl; rewrite ?slot_withResponses_putSlot_ne by exact Hne; done.
  - intros _. apply slot_withResponses_putSlot.
  - discriminate.
Qed.

Lemma response_calls_touch_one_slot_witness :
  Store.currentSlot "qwen-turbo" "m1"
    (Store.appendToModelResponse "deepseek-chat" "m1" "!" 3000 Sample.state)
  = Store.currentSlot "qwen-turbo" "m1" Sample.state
  ∧ Store.currentSlot "qwen-turbo" "m1"
      (Store.addModelResponse "qwen-turbo" "m1" Sample.response 3000 Sample.state)
    = Some Sample.response.
Proof.
  assert (Hdeepseek : "deepseek-chat" ∉ JS.objectPrototype)
    by (apply (bool_decide_unpack _); vm_compute; exact I).
  assert (Hqwen : "qwen-turbo" ∉ JS.objectPrototype)
    by (apply (bool_decide_unpack _); vm_compute; exact I).
  assert (Hm1 : "m1" ∉ JS.objectPrototype)
    by (apply (bool_decide_unpack _); vm_compute; exact I).
  destruct (response_calls_touch_one_slot "deepseek-chat" "m1" "qwen-turbo" "m1"
              ModelResponse.noUpdates "!" Sample.response 3000 Sample.state
              Hdeepseek Hm1)
    as (_ & _ & _ & Hframe & _).
  destruct (response_calls_touch_one_slot "qwen-turbo" "m1" "qwen-turbo" "m1"
              ModelResponse.noUpdates "!" Sample.response 3000 Sample.state
              Hqwen Hm1)
    as (_ & _ & _ & _ & Hadd & _).
  split.
  - apply Hframe. discriminate.
  - apply Hadd. eexists. reflexivity.
Defined.

(** X15. [addMessage] always leaves a current session whose messages
    are those of the session it started from (none when it had to
    create one) followed by exactly one new user message with the given
    content and images; the id it returns is the id of that message;
    the responses of the session are not touched, and the session keeps
    its id (or gets the id read for the new session). *)
Theorem addMessage_appends_one_user_message
    (content : string) (images : option (list string))
    (env : Store.AddMessageEnv) (st : AppState.t) :
  ∃ cur' : ChatSession.t,
    AppState.currentSession (Store.addMessage content images env st).2 = Some cur'
    ∧ ChatSession.messages cur'
      = (match AppState.currentSession st with
         | Some cur => ChatSession.messages cur
         | None => []
         end
         ++ [Message.mk (Store.addMessage content images env st).1.1 user content
               (JS.DateObj (Store.tMessage env)) images])%list
    ∧ (Store.addMessage content images env st).1.1 = Store.messageId env
    ∧ ChatSession.responses cur'
      = match AppState.currentSession st with
        | Some cur => ChatSession.responses cur
        | None => ∅
        end
    ∧ ChatSession.id cur'
      = match AppState.currentSession st with
        | Some cur => ChatSession.id cur
        | None => Store.newSessionId env
        end.
Proof.
  unfold Store.addMessage.
  destruct (AppState.currentSession st) as [cur|] eqn:Hcur; simpl;
    eexists; (split; [reflexivity|]); simpl; repeat split; reflexivity.
Qed.

Section TitleUpdates.
Import AppState Store.

Lemma imap_unchanged {A : Type} (g : nat → A → A) (l : list A) :
  (∀ i x, x ∈ l → g i x = x) → imap g l = l.
Proof.
  revert g. induction l as [|a l IH]; intros g Hg; simpl; [reflexivity|].
  f_equal.
  - apply Hg, elem_of_cons. now left.
  - apply IH. intros i x Hx. apply Hg, elem_of_cons. now right.
Qed.

Lemma updateSessionTitle_unknown sid title tl tc st :
  (∀ s, s ∈ sessions st → ChatSession.id s ≠ sid) →
  (∀ cur, currentSession st = Some cur → ChatSession.id cur ≠ sid) →
  updateSessionTitle sid title tl tc st = st.
Proof.
  intros Hlist Hcur. unfold updateSessionTitle.
  rewrite imap_unchanged.
  2:{ intros i s Hs. now rewrite bool_decide_eq_false_2 by (apply Hlist, Hs). }
  destruct st as [k av sel cur l b sp tt tcost]; simpl in *.
  destruct cur as [c|]; [|reflexivity].
  now rewrite bool_decide_eq_false_2 by (now apply Hcur).
Qed.

Lemma map_imap_field {B : Type} (field : ChatSession.t → B)
    (g : nat → ChatSession.t → ChatSession.t) l :
  (∀ i s, field (g i s) = field s) → map field (imap g l) = map field l.
Proof.
  revert g. induction l as [|a l IH]; intros g Hg; simpl; [reflexivity|].
  f_equal; [apply Hg|]. apply IH. intros i s. apply Hg.
Qed.

End TitleUpdates.

(** X16. [updateSessionTitle] with an id that neither a list entry nor
    the current session carries leaves the state as it is; so the title
    that [generateSessionTitle] delivers for a session deleted in the
    meantime is dropped. With any id, the messages and the responses of
    every entry and of the current session are kept. *)
Theorem updateSessionTitle_unknown_id_is_dropped
    (sessionId title : string) (tList : nat → Z) (tCurrent : Z) (st : AppState.t) :
  ((∀ s, s ∈ AppState.sessions st → ChatSession.id s ≠ sessionId) →
   (∀ cur, AppState.currentSession st = Some cur → ChatSession.id cur ≠ sessionId) →
   Store.updateSessionTitle sessionId title tList tCurrent st = st)
  ∧ Store.updateSessionTitle sessionId title tList tCurrent
      (Store.deleteSession sessionId st)
    = Store.deleteSession sessionId st
  ∧ map ChatSession.messages
      (AppState.sessions (Store.updateSessionTitle sessionId title tList tCurrent st))
    = map ChatSession.messages (AppState.sessions st)
  ∧ map ChatSession.responses
      (AppState.sessions (Store.updateSessionTitle sessionId title tList tCurrent st))
    = map ChatSession.responses (AppState.sessions st)
  ∧ (ChatSession.messages
       <$> AppState.currentSession
             (Store.updateSessionTitle sessionId title tList tCurrent st))
    = (ChatSession.messages <$> AppState.currentSession st).
Proof.
  split; [apply updateSessionTitle_unknown|]. split; [|split; [|split]].
  - apply updateSessionTitle_unknown.
    + intros s Hs. unfold Store.deleteSession in Hs; simpl in Hs.
      now apply list_elem_of_filter in Hs as [Hne _].
    + intros cur. unfold Store.deleteSession; simpl.
      destruct (AppState.currentSession st) as [c|]; [|discriminate].
      case_bool_decide; [discriminate|]. now intros [= <-].
  - apply map_imap_field. intros i s. case_bool_decide; reflexivity.
  - apply map_imap_field. intros i s. case_bool_decide; reflexivity.
  - unfold Store.updateSessionTitle; simpl.
    destruct (AppState.currentSession st) as [c|]; [|reflexivity].
    case_bool_decide; reflexivity.
Qed.

Lemma updateSessionTitle_unknown_id_is_dropped_witness :
  Store.updateSessionTitle "s3" "Late title" (fun _ => 5000%Z) 5001 Sample.state
  = Sample.state.
Proof.
  destruct (updateSessionTitle_unknown_id_is_dropped "s3" "Late title"
              (fun _ => 5000%Z) 5001 Sample.state) as (Hdrop & _).
  apply Hdrop.
  - intros s Hs.
    apply elem_of_cons in Hs as [->|Hs]; [discriminate|].
    apply elem_of_cons in Hs as [->|Hs]; [discriminate|].
    inversion Hs.
  - intros cur [= <-]. discriminate.
Defined.

(** ** Calls that arrive late *)

Section LateCalls.
Import AppState Store App.

Lemma call_without_current mid c st :
  currentSession st = None →
  (∀ sid title tl tc, c = CallTitle sid title tl tc →
     ∀ s, s ∈ sessions st → ChatSession.id s ≠ sid) →
  call mid c st = st.
Proof.
  intros Hcur Htitle.
  destruct c as [m r now | m content now | m u now | sid title tl tc]; simpl.
  - unfold addModelResponse. now rewrite Hcur.
  - unfold appendToModelResponse. now rewrite Hcur.
  - unfold updateModelResponse. now rewrite Hcur.
  - apply updateSessionTitle_unknown.
    + now apply (Htitle sid title tl tc).
    + intros cur Hc. congruence.
Qed.

Lemma runCalls_without_current mid calls st :
  currentSession st = None →
  (∀ sid title tl tc, CallTitle sid title tl tc ∈ calls →
     ∀ s, s ∈ sessions st → ChatSession.id s ≠ sid) →
  runCalls mid calls st = st.
Proof.
  intros Hcur. unfold runCalls.
  induction calls as [|c calls IH]; intros Htitle; simpl; [reflexivity|].
  rewrite call_without_current; [apply IH | exact Hcur |].
  - intros sid title tl tc Hin. apply (Htitle sid title tl tc), elem_of_cons. now right.
  - intros sid title tl tc ->. apply (Htitle sid title tl tc), elem_of_cons. now left.
Qed.

End LateCalls.

(** X17. Store calls that arrive when there is no current session are
    dropped: any run of task callbacks ([addModelResponse],
    [appendToModelResponse], [updateModelResponse]) and of title
    updates for ids that are not in the list leaves the state as it is.
    In particular every call that arrives after [clearAllData] is
    dropped, and so is every task callback that arrives after the
    current session was deleted. *)
Theorem calls_without_current_session_are_dropped
    (messageId : string) (calls : list App.StoreCall) (st : AppState.t) :
  (AppState.currentSession st = None →
   (∀ sid title tl tc, App.CallTitle sid title tl tc ∈ calls →
      ∀ s, s ∈ AppState.sessions st → ChatSession.id s ≠ sid) →
   App.runCalls messageId calls st = st)
  ∧ App.runCalls messageId calls (StoreRest.clearAllData st) = StoreRest.clearAllData st
  ∧ (∀ cur, AppState.currentSession st = Some cur →
       Forall (fun c => App.target c ≠ None) calls →
       App.runCalls messageId calls (Store.deleteSession (ChatSession.id cur) st)
       = Store.deleteSession (ChatSession.id cur) st).
Proof.
  split; [apply runCalls_without_current|]. split.
  - apply runCalls_without_current; [reflexivity|].
    intros sid title tl tc _ s Hs. inversion Hs.
  - intros cur Hcur Htargets. apply runCalls_without_current.
    + unfold Store.deleteSession; simpl. rewrite Hcur.
      now rewrite bool_decide_eq_true_2.
    + intros sid title tl tc Hin.
      rewrite Forall_forall in Htargets. now destruct (Htargets _ Hin).
Qed.

Lemma calls_without_current_session_are_dropped_witness :
  App.runCalls "m1"
    [App.CallAppend "deepseek-chat" "late" 4000;
     App.CallUpdate "deepseek-chat" ModelResponse.noUpdates 4001]
    (Store.deleteSession "s1" Sample.state)
  = Store.deleteSession "s1" Sample.state.
Proof.
  destruct (calls_without_current_session_are_dropped "m1"
              [App.CallAppend "deepseek-chat" "late" 4000;
               App.CallUpdate "deepseek-chat" ModelResponse.noUpdates 4001]
              Sample.state) as (_ & _ & Hdeleted).
  apply (Hdeleted Sample.session); [reflexivity|].
  repeat constructor; discriminate.
Defined.

(** ** Import next to the original *)

(** X18. Importing the export of a titled session of the list puts the
    copy in front of the original without removing it: the list grows
    by one, two entries carry the same id, the current session is not
    touched, a lookup or a [loadSession] by that id now gives the copy
    (with its dates as ISO strings), and [deleteSession] of that id
    removes both. *)
Theorem imported_copy_shadows_original
    (toISOString : Z -> string)
    (JSON_stringify : JSON.value -> string) (JSON_parse : string -> option JSON.value)
    (st : AppState.t) (sessionId : string) (s : ChatSession.t) :
  Store.findSession sessionId (AppState.sessions st) = Some s →
  JSON_parse (JSON_stringify (JSON.ofSession toISOString s))
  = Some (JSON.ofSession toISOString s) →
  JS.truthy_string (ChatSession.id s) = true →
  (∃ t, ChatSession.title s = Some t ∧ JS.truthy_string t = true) →
  ∃ st' : AppState.t,
    Transfer.importSession JSON_parse
      (Transfer.exportSession toISOString JSON_stringify sessionId st) st
    = Transfer.Added st'
    ∧ length (AppState.sessions st') = S (length (AppState.sessions st))
    ∧ AppState.currentSession st' = AppState.currentSession st
    ∧ Store.findSession sessionId (AppState.sessions st')
      = Some (JSON.reloadSession toISOString s)
    ∧ AppState.currentSession (Store.loadSession sessionId st')
      = Some (JSON.reloadSession toISOString s)
    ∧ ¬ NoDup (map ChatSession.id (AppState.sessions st'))
    ∧ AppState.sessions (Store.deleteSession sessionId st')
      = AppState.sessions (Store.deleteSession sessionId st).
Proof.
  intros Hfind Hcodec Hid (t & Htitle & Ht).
  pose proof (findSession_id _ _ _ Hfind) as Hsid.
  eexists. split.
  { rewrite (import_of_export toISOString JSON_stringify JSON_parse sessionId st s Hfind Hcodec).
    rewrite Hid, Htitle, Ht. reflexivity. }
  assert (Hfirst : Store.findSession sessionId
                     (JSON.reloadSession toISOString s :: AppState.sessions st)
                   = Some (JSON.reloadSession toISOString s)).
  { unfold Store.findSession. cbn [find].
    now rewrite bool_decide_eq_true_2 by exact Hsid. }
  split; [reflexivity|]. split; [reflexivity|]. split; [exact Hfirst|]. split; [|split].
  - unfold Store.loadSession. cbn [AppState.sessions AppState.setSessionList
      AppState.setSessions]. now rewrite Hfirst.
  - cbn [AppState.sessions AppState.setSessionList AppState.setSessions map].
    intros Hnd. apply NoDup_cons in Hnd as [Hnotin _]. apply Hnotin.
    apply list_elem_of_fmap. exists s. split; [reflexivity|].
    eapply findSession_elem_of, Hfind.
  - unfold Store.deleteSession.
    cbn [AppState.sessions AppState.setSessionList AppState.setSessions].
    now rewrite filter_cons_False by (intros Hne; now apply Hne).
Qed.

Lemma imported_copy_shadows_original_witness :
  ∃ st' : AppState.t,
    Transfer.importSession Sample.JSON_parse
      (Transfer.exportSession Sample.toISOString Sample.JSON_stringify "s1" Sample.state)
      Sample.state
    = Transfer.Added st'
    ∧ length (AppState.sessions st') = 3%nat
    ∧ AppState.currentSession (Store.loadSession "s1" st')
      = Some (JSON.reloadSession Sample.toISOString Sample.session).
Proof.
  destruct (imported_copy_shadows_original Sample.toISOString Sample.JSON_stringify
              Sample.JSON_parse Sample.state "s1" Sample.session)
    as (st' & Himport & Hlength & _ & _ & Hload & _).
  - reflexivity.
  - vm_compute. reflexivity.
  - reflexivity.
  - exists "Greeting". split; reflexivity.
  - exists st'. split; [exact Himport|]. split; [exact Hlength | exact Hload].
Defined.

(** ** The send: selection, history, failures *)

(** X19. The models a send works with depend only on which ids are in
    the selection, not on their order or on repetitions: they are the
    models of the table whose id is selected, in the order of the
    table, each at most once; a selected id that is not in the table
    contributes nothing. *)
Theorem activeModels_depends_on_membership_only (selected selected' : list string) :
  ((∀ id : string, id ∈ selected ↔ id ∈ selected') →
   App.activeModels selected = App.activeModels selected')
  ∧ App.activeModels selected `sublist_of` AVAILABLE_MODELS
  ∧ (∀ m, m ∈ App.activeModels selected
          ↔ m ∈ AVAILABLE_MODELS ∧ ModelConfig.id m ∈ selected)
  ∧ NoDup (map ModelConfig.id (App.activeModels selected)).
Proof.
  unfold App.activeModels. split; [|split; [|split]].
  - intros Hsame. apply list_filter_iff. intros m. apply Hsame.
  - apply sublist_filter.
  - intros m. rewrite list_elem_of_filter. tauto.
  - apply NoDup_map_filter, available_model_ids_distinct.
Qed.

Lemma activeModels_depends_on_membership_only_witness :
  App.activeModels ["qwen-turbo"; "deepseek-chat"; "qwen-turbo"; "gpt-4"]
  = App.activeModels ["deepseek-chat"; "qwen-turbo"; "gpt-4"].
Proof.
  apply (activeModels_depends_on_membership_only
           ["qwen-turbo"; "deepseek-chat"; "qwen-turbo"; "gpt-4"]
           ["deepseek-chat"; "qwen-turbo"; "gpt-4"]).
  intros id. rewrite !elem_of_cons. tauto.
Defined.

(** X20. A send that gets past its guards sets [isLoading] and leaves a
    current session whose last message is the stored user message; the
    history each task passes to its adapter is the stored conversation
    with that last message replaced by one of the same id, role and
    images. The stored message carries the input as typed. The message
    that is sent carries the input as typed when no document was
    parsed, and otherwise the input followed by two line feeds, the
    heading of the document, a line feed and the text of the document:
    that text is in the message that is sent only. *)
Theorem sent_history_matches_stored_conversation
    (parsePayload : string -> option Stream.Payload) (reg : Stream.Registry)
    (input : App.SendInput) (env : App.SendEnv) (st : AppState.t) (f : App.FanOut)
    (tNow : Z)
    (Hsend : App.handleSendMessage parsePayload reg input env st = Some f) :
  ∃ (cur : ChatSession.t) (history : list Message.t) (stored sent : Message.t),
    AppState.currentSession (App.started f) = Some cur
    ∧ AppState.isLoading (App.started f) = true
    ∧ ChatSession.messages cur = (history ++ [stored])%list
    ∧ AppRest.allMessages input (App.userMessageId f) tNow st = (history ++ [sent])%list
    ∧ Message.id stored = App.userMessageId f
    ∧ Message.id sent = App.userMessageId f
    ∧ Message.role stored = user
    ∧ Message.role sent = user
    ∧ Message.images stored = Message.images sent
    ∧ Message.content stored = App.inputMessage input
    ∧ (App.parsedFileContent input = "" → Message.content sent = App.inputMessage input)
    ∧ (App.parsedFileContent input ≠ "" →
       Message.content sent
       = App.inputMessage input
         ++ String JS.LF (String JS.LF
              ("【上传文档内容】：" ++ String JS.LF (App.parsedFileContent input)))).
Proof.
  assert (Hplain :
    (App.parsedFileContent input = ""
     → AppRest.messageToSend input = App.inputMessage input)
    ∧ (App.parsedFileContent input ≠ "" →
       AppRest.messageToSend input
       = App.inputMessage input
         ++ String JS.LF (String JS.LF
              ("【上传文档内容】：" ++ String JS.LF (App.parsedFileContent input))))).
  { unfold AppRest.messageToSend, JS.truthy_string. split.
    - now intros ->.
    - intros Hdoc. destruct (String.eqb_spec (App.parsedFileContent input) "");
        [contradiction | reflexivity]. }
  unfold App.handleSendMessage in Hsend.
  destruct (negb _ && negb _); [discriminate|].
  destruct (AppState.isLoading st); [discriminate|].
  unfold AppRest.allMessages.
  destruct (AppState.currentSession st) as [cur|] eqn:Hcur.
  - unfold Store.addMessage in Hsend. rewrite Hcur in Hsend.
    injection Hsend as <-. simpl.
    eexists _, (ChatSession.messages cur), _, _.
    repeat (split; [reflexivity|]). exact Hplain.
  - unfold Store.addMessage in Hsend. simpl in Hsend.
    injection Hsend as <-. simpl.
    eexists _, [], _, _.
    repeat (split; [reflexivity|]). exact Hplain.
Qed.

Lemma sent_history_matches_stored_conversation_witness :
  ∃ (f : App.FanOut) (cur : ChatSession.t) (history : list Message.t)
    (stored sent : Message.t),
    App.handleSendMessage Sample.echoPayload Sample.registry Fixtures.withDocument
      Sample.sendEnv Sample.sendState = Some f
    ∧ AppState.currentSession (App.started f) = Some cur
    ∧ ChatSession.messages cur = (history ++ [stored])%list
    ∧ AppRest.allMessages Fixtures.withDocument (App.userMessageId f) 3004 Sample.sendState
      = (history ++ [sent])%list
    ∧ Message.content stored = "Summarise"
    ∧ Message.content sent
      = "Summarise"
        ++ String JS.LF (String JS.LF ("【上传文档内容】：" ++ String JS.LF "Chapter 1")).
Proof.
  destruct (App.handleSendMessage Sample.echoPayload Sample.registry Fixtures.withDocument
              Sample.sendEnv Sample.sendState) as [f|] eqn:Hsend;
    [|vm_compute in Hsend; discriminate Hsend].
  destruct (sent_history_matches_stored_conversation Sample.echoPayload Sample.registry
              Fixtures.withDocument Sample.sendEnv Sample.sendState f 3004 Hsend)
    as (cur & history & stored & sent & Hcur & _ & Hstored & Hsent & _ & _ & _ & _ & _
        & Hc1 & _ & Hc2).
  exists f, cur, history, stored, sent.
  split; [reflexivity|]. split; [exact Hcur|]. split; [exact Hstored|].
  split; [exact Hsent|]. split; [exact Hc1|]. apply Hc2. discriminate.
Defined.

(** X21. A task whose streaming call is rejected leaves in its slot an
    empty content, [loading = false] and the text of the error: the
    deltas that were appended before the failure are erased by the
    update in the [catch]. When the provider of the model has no
    adapter in the registry, the task calls no [fetch] and its slot
    ends as the loading response with the error asking to configure
    the key of that provider. *)
Theorem failed_task_leaves_only_the_error
    (parsePayload : string -> option Stream.Payload) (reg : Stream.Registry)
    (model : ModelConfig.t) (env : App.TaskEnv) (o : option ModelResponse.t) :
  (∀ e, (App.streamCall parsePayload reg model env).2 = inl e →
     ∃ r, fold_left (fun o c => App.slotStep c o)
            (App.modelTask parsePayload reg model env).1 o = Some r
          ∧ ModelResponse.content r = ""
          ∧ ModelResponse.loading r = false
          ∧ ModelResponse.error r = Some (App.errorText e))
  ∧ (reg (ModelConfig.provider model) = None →
     App.taskFetches parsePayload reg model env = false
     ∧ fold_left (fun o c => App.slotStep c o)
         (App.modelTask parsePayload reg model env).1 o
       = Some (ModelResponse.mk (ModelConfig.id model) "" false
                 (Some ("请先配置 " ++ provider_name (ModelConfig.provider model)
                        ++ " 的API密钥"))
                 None None None (JS.DateObj (App.tSlot env)))).
Proof.
  split.
  - intros e He.
    rewrite (proj1 (modelTask_log parsePayload reg model env)), He.
    cbn [fold_left App.slotStep]. rewrite fold_left_app. unfold App.chunkCalls.
    destruct (fold_chunkCalls (ModelConfig.id model) (App.uiStart env)
                (App.streamCall parsePayload reg model env).1 (App.chunkClock env)
                (ModelResponse.mk (ModelConfig.id model) "" true None None None None
                   (JS.DateObj (App.tSlot env))))
      as (r' & -> & _).
    simpl. eexists. split; [reflexivity|]. repeat split.
  - intros Hreg. split; [now apply taskFetches_unregistered|].
    unfold App.modelTask, App.streamCall, Stream.chatSendMessageStream.
    rewrite Hreg. reflexivity.
Qed.

Lemma failed_task_leaves_only_the_error_witness :
  (∃ r, fold_left (fun o c => App.slotStep c o)
          (App.modelTask Sample.echoPayload Sample.registry Fixtures.moonshot
             Fixtures.brokenEnv).1 None = Some r
        ∧ ModelResponse.content r = ""
        ∧ ModelResponse.error r = Some "Kimi Stream API错误: 流式请求失败")
  ∧ App.taskFetches Sample.echoPayload Sample.registry Fixtures.doubao Fixtures.brokenEnv
    = false.
Proof.
  destruct (failed_task_leaves_only_the_error Sample.echoPayload Sample.registry
              Fixtures.moonshot Fixtures.brokenEnv None) as (Hfailed & _).
  destruct (failed_task_leaves_only_the_error Sample.echoPayload Sample.registry
              Fixtures.doubao Fixtures.brokenEnv None) as (_ & Hunregistered).
  split.
  - destruct (Hfailed (JS.ErrorObj "Kimi Stream API错误: 流式请求失败"))
      as (r & Hr & Hcontent & _ & Herror); [reflexivity|].
    exists r. repeat split; assumption.
  - apply Hunregistered. reflexivity.
Defined.

(** X22. The only things that stop a send before it touches the store
    are an input that is blank while no document was parsed, and a send
    still in progress ([isLoading]); an empty selection or missing keys
    do not stop it. *)
Theorem send_is_stopped_by_its_two_guards_only
    (parsePayload : string -> option Stream.Payload) (reg : Stream.Registry)
    (input : App.SendInput) (env : App.SendEnv) (st : AppState.t) :
  App.handleSendMessage parsePayload reg input env st = None
  ↔ (JS.trim (App.inputMessage input) = "" ∧ App.parsedFileContent input = "")
    ∨ AppState.isLoading st = true.
Proof.
  assert (Htruthy : ∀ s, negb (JS.truthy_string s) = true ↔ s = "").
  { intros s. unfold JS.truthy_string. rewrite negb_involutive. apply String.eqb_eq. }
  unfold App.handleSendMessage.
  destruct (negb (JS.truthy_string (JS.trim (App.inputMessage input)))
            && negb (JS.truthy_string (App.parsedFileContent input))) eqn:Hblank.
  - split; [|reflexivity]. intros _. left.
    apply andb_true_iff in Hblank as [H1 H2]. split; now apply Htruthy.
  - destruct (AppState.isLoading st) eqn:Hloading.
    + split; [now right | reflexivity].
    + destruct (Store.addMessage _ _ _ _) as [[mid request] st2].
      split; [discriminate|]. intros [[H1 H2]|H]; [|discriminate].
      apply Htruthy in H1, H2. now rewrite H1, H2 in Hblank.
Qed.

Lemma send_is_stopped_by_its_two_guards_only_witness :
  App.handleSendMessage Sample.echoPayload Sample.registry
    (App.mkSendInput (" " ++ Fixtures.nbsp ++ Fixtures.ideographicSpace) "" None)
    Sample.sendEnv Sample.sendState
  = None.
Proof.
  apply (send_is_stopped_by_its_two_guards_only Sample.echoPayload Sample.registry
           (App.mkSendInput (" " ++ Fixtures.nbsp ++ Fixtures.ideographicSpace) "" None)
           Sample.sendEnv Sample.sendState).
  left. split; reflexivity.
Defined.

(** X23. For every model of the table, the request a task builds from
    the model record goes through the adapter of its provider with the
    limits of the record: the body carries the [modelId], the
    [temperature] and the [maxTokens] of the record, none of them
    replaced by a default of the adapter or cut by its ceiling. *)
Theorem table_models_are_sent_with_their_own_limits
    (model : ModelConfig.t) (stream : bool) (input : App.SendInput)
    (userMessageId : string) (tNow : Z) (st : AppState.t)
    (Hmodel : model ∈ AVAILABLE_MODELS) :
  Adapter.b_model
    (Adapter.requestBody (ModelConfig.provider model) stream
       (AppRest.requestFor model input userMessageId tNow st))
  = ModelConfig.modelId model
  ∧ Adapter.b_temperature
      (Adapter.requestBody (ModelConfig.provider model) stream
         (AppRest.requestFor model input userMessageId tNow st))
    = ModelConfig.temperature model
  ∧ Adapter.b_max_tokens
      (Adapter.requestBody (ModelConfig.provider model) stream
         (AppRest.requestFor model input userMessageId tNow st))
    = ModelConfig.maxTokens model.
Proof.
  assert (Hall : Forall (fun m : ModelConfig.t =>
                   JS.or_number (Some (ModelConfig.temperature m))
                     (Adapter.defaultTemperature (ModelConfig.provider m))
                   = ModelConfig.temperature m
                   ∧ Adapter.min
                       (JS.or_number (Some (ModelConfig.maxTokens m))
                          (Adapter.defaultMaxTokens (ModelConfig.provider m)))
                       (Adapter.maxTokensCeiling (ModelConfig.provider m))
                     = ModelConfig.maxTokens m)
                 AVAILABLE_MODELS).
  { unfold AVAILABLE_MODELS. repeat (apply Forall_cons; split; [split; reflexivity|]).
    constructor. }
  rewrite Forall_forall in Hall. destruct (Hall model Hmodel) as [Htemp Hmax].
  unfold Adapter.requestBody, AppRest.requestFor; simpl.
  split; [reflexivity|]. split; [exact Htemp | exact Hmax].
Qed.

Lemma table_models_are_sent_with_their_own_limits_witness :
  Adapter.b_max_tokens
    (Adapter.requestBody kimi true
       (AppRest.requestFor Fixtures.moonshot Sample.sendInput "m2" 3004 Sample.sendState))
  = 2048%Q.
Proof.
  destruct (table_models_are_sent_with_their_own_limits Fixtures.moonshot true
              Sample.sendInput "m2" 3004 Sample.sendState) as (_ & _ & Hmax).
  - unfold AVAILABLE_MODELS. do 10 (apply elem_of_cons; right).
    apply elem_of_cons. left. reflexivity.
  - exact Hmax.
Defined.
